(** * Template_man: cache, store client, models and renderer

    A shallow embedding of the parts of [template_api] that the
    specification speaks about, and the theorems that settle each claim:

    - [renderer.py]     : [TemplateRenderer] (regex pipeline, [render_template])
    - [models.py]       : [Template] ([activate], [archive], [get_active_template])
    - [redis_client.py] : [RedisClient] ([get_connection], [_handle_connection_error])
    - [views.py]        : the Redis cache-aside [TemplateCacheManager]
    - [cache_manager.py]: the in-process mirror [TemplateCacheManager]

    Python [str] values are modelled as lists of characters over the code
    points 0..255; exceptions are values of an error type and every fallible
    function returns a [result]. *)

From Stdlib Require Import Ascii String DecimalString.
From Stdlib Require Import List ZArith Lia Bool Arith PeanoNat Sorted.
Import ListNotations.

Set Implicit Arguments.
Set Warnings "-register-all".

(* ================================================================== *)
(** ** Python strings and results *)

Definition text := list ascii.

(** String literals of the source, as texts. *)
Definition T (s : string) : text := list_ascii_of_string s.
Arguments T s%_string.

Definition text_eqb (a b : text) : bool :=
  if list_eq_dec ascii_dec a b then true else false.

Inductive result (E A : Type) : Type :=
| Ok (a : A)
| Err (e : E).
Arguments Ok {E A} a.
Arguments Err {E A} e.

Module Re.

(** [\w] of Python's [re] on [str] patterns, for the code points 0..255:
    ASCII letters, digits and underscore, and the Latin-1 characters that
    are alphanumeric for Unicode. *)
Definition is_word (c : ascii) : bool :=
  let n := nat_of_ascii c in
  ((48 <=? n) && (n <=? 57)) || ((65 <=? n) && (n <=? 90)) ||
  (n =? 95) || ((97 <=? n) && (n <=? 122)) ||
  (n =? 170) || (n =? 178) || (n =? 179) || (n =? 181) || (n =? 185) ||
  (n =? 186) || ((188 <=? n) && (n <=? 190)) ||
  ((192 <=? n) && (n <=? 214)) || ((216 <=? n) && (n <=? 246)) ||
  (248 <=? n).

(** [starts_with p s]: the rest of [s] after the literal [p], if [s] begins
    with it. *)
Fixpoint starts_with (p s : text) : option text :=
  match p, s with
  | [], _ => Some s
  | _ :: _, [] => None
  | a :: p', b :: s' => if Ascii.eqb a b then starts_with p' s' else None
  end.

(** [span_word s]: the longest run of [\w] characters at the head of [s]
    (the greedy [\w+], which never has to give characters back since the
    next pattern character is not a word character) and what follows. *)
Fixpoint span_word (s : text) : text * text :=
  match s with
  | [] => ([], [])
  | c :: s' =>
      if is_word c then let (w, r) := span_word s' in (c :: w, r)
      else ([], s)
  end.

(** [find_sub p s]: the text before and after the first occurrence of the
    literal [p] in [s]: the lazy [(.*?)] followed by [p], with DOTALL. *)
Fixpoint find_sub (p s : text) : option (text * text) :=
  match starts_with p s with
  | Some r => Some ([], r)
  | None =>
      match s with
      | [] => None
      | c :: s' =>
          match find_sub p s' with
          | Some (b, r) => Some (c :: b, r)
          | None => None
          end
      end
  end.

(** Whether the literal [p] occurs in [s]. *)
Definition occurs (p s : text) : bool :=
  match find_sub p s with Some _ => true | None => false end.

(** A match object: group 1, group 2 (empty for the variable pattern) and
    the matched text, group 0. *)
Record rmatch : Type := mk_rmatch {
  group1 : text;
  group2 : text;
  group0 : text
}.

(** A compiled pattern, tried at the head of a text: the match and the
    text after it. *)
Definition pattern := text -> option (rmatch * text).

Definition lbrace2 : text := T "{{".
Definition rbrace2 : text := T "}}".

(** [\{\{(\w+)\}\}] *)
Definition VARIABLE_PATTERN : pattern := fun s =>
  match starts_with lbrace2 s with
  | None => None
  | Some r1 =>
      let (name, r2) := span_word r1 in
      match name with
      | [] => None
      | _ :: _ =>
          match starts_with rbrace2 r2 with
          | None => None
          | Some rest =>
              Some (mk_rmatch name [] (lbrace2 ++ name ++ rbrace2), rest)
          end
      end
  end.

(** [\{\{#kw (\w+)\}\}(.*?)\{\{/kw\}\}] with DOTALL, for a keyword [kw]. *)
Definition block_open (kw : text) : text := T "{{#" ++ kw ++ T " ".
Definition block_close (kw : text) : text := T "{{/" ++ kw ++ T "}}".

Definition block_pattern (kw : text) : pattern := fun s =>
  match starts_with (block_open kw) s with
  | None => None
  | Some r1 =>
      let (name, r2) := span_word r1 in
      match name with
      | [] => None
      | _ :: _ =>
          match starts_with rbrace2 r2 with
          | None => None
          | Some r3 =>
              match find_sub (block_close kw) r3 with
              | None => None
              | Some (body, rest) =>
                  Some (mk_rmatch name body
                          (block_open kw ++ name ++ rbrace2 ++ body
                             ++ block_close kw),
                        rest)
              end
          end
      end
  end.

Definition CONDITIONAL_PATTERN : pattern := block_pattern (T "if").
Definition LOOP_PATTERN : pattern := block_pattern (T "each").

(** The scan shared by [re.sub] and [re.finditer]: leftmost matches that do
    not overlap; a position with no match contributes its character. *)
Inductive token : Type :=
| Lit (c : ascii)
| Match (m : rmatch).

Fixpoint scan_fuel (p : pattern) (fuel : nat) (s : text) : list token :=
  match fuel with
  | 0 => map Lit s
  | S fuel' =>
      match s with
      | [] => []
      | c :: s' =>
          match p s with
          | Some (m, rest) => Match m :: scan_fuel p fuel' rest
          | None => Lit c :: scan_fuel p fuel' s'
          end
      end
  end.

(** Every match takes at least one character, so the length of the text
    is fuel enough. *)
Definition scan (p : pattern) (s : text) : list token :=
  scan_fuel p (length s) s.

(** [finditer]: the matches with their spans [(start, end)]. *)
Fixpoint spans_from (pos : nat) (ts : list token)
  : list ((nat * nat) * rmatch) :=
  match ts with
  | [] => []
  | Lit _ :: ts' => spans_from (S pos) ts'
  | Match m :: ts' =>
      let e := pos + length (group0 m) in
      ((pos, e), m) :: spans_from e ts'
  end.

Definition finditer (p : pattern) (s : text) : list ((nat * nat) * rmatch) :=
  spans_from 0 (scan p s).

(** The text a list of tokens stands for *)
Fixpoint text_of_tokens (ts : list token) : text :=
  match ts with
  | [] => []
  | Lit c :: ts' => c :: text_of_tokens ts'
  | Match m :: ts' => group0 m ++ text_of_tokens ts'
  end.

(** A pattern whose matches are a non-empty prefix of the text *)
Definition sound (p : pattern) : Prop :=
  forall s m rest, p s = Some (m, rest) -> s = group0 m ++ rest /\ group0 m <> [].

(** A literal no proper suffix of which is a prefix of it: two occurrences
    cannot overlap. *)
Definition unbordered (p : text) : Prop :=
  forall k, 0 < k -> k < length p -> starts_with (skipn k p) p = None.

(** A text at which a run of word characters stops *)
Definition stops (s : text) : bool :=
  match s with
  | [] => true
  | c :: _ => negb (is_word c)
  end.

End Re.

(* ================================================================== *)
(** ** Python values *)

Module Py.

(** The values a JSON request can bind a template variable to (floats are
    left out). A [dict] is kept as its list of items, in insertion order. *)
Inductive pyval : Type :=
| VNone
| VBool (b : bool)
| VInt (z : Z)
| VStr (s : text)
| VList (l : list pyval)
| VDict (d : list (text * pyval)).

Definition dict := list (text * pyval).

(** [key in d] and [d[key]] *)
Fixpoint dict_get (d : dict) (key : text) : option pyval :=
  match d with
  | [] => None
  | (k, v) :: d' => if text_eqb k key then Some v else dict_get d' key
  end.

(** [d[key] = v]: an existing key keeps its place. *)
Fixpoint dict_set (d : dict) (key : text) (v : pyval) : dict :=
  match d with
  | [] => [(key, v)]
  | (k, v') :: d' =>
      if text_eqb k key then (k, v) :: d' else (k, v') :: dict_set d' key v
  end.

(** [d.update(other)] *)
Definition dict_update (d other : dict) : dict :=
  fold_left (fun acc kv => dict_set acc (fst kv) (snd kv)) other d.

(** [bool(v)] *)
Definition truthy (v : pyval) : bool :=
  match v with
  | VNone => false
  | VBool b => b
  | VInt z => negb (Z.eqb z 0)
  | VStr s => match s with [] => false | _ :: _ => true end
  | VList l => match l with [] => false | _ :: _ => true end
  | VDict d => match d with [] => false | _ :: _ => true end
  end.

(** [v in strs] for a list of [str] constants: only a [str] equals one. *)
Definition in_strs (v : pyval) (strs : list text) : bool :=
  match v with
  | VStr s => existsb (text_eqb s) strs
  | _ => false
  end.

(** [sep.join(parts)] *)
Fixpoint join (sep : text) (parts : list text) : text :=
  match parts with
  | [] => []
  | [p] => p
  | p :: ps => p ++ sep ++ join sep ps
  end.

Definition str_of_Z (z : Z) : text :=
  list_ascii_of_string (NilZero.string_of_int (Z.to_int z)).

Definition hex_digit (n : nat) : ascii :=
  nth n (T "0123456789abcdef") "0"%char.

(** [repr] of one character of a [str] inside quotes [q]. *)
Definition repr_char (q : ascii) (c : ascii) : text :=
  let n := nat_of_ascii c in
  if Ascii.eqb c "\"%char then T "\\"
  else if Ascii.eqb c q then ["\"%char; q]
  else if n =? 9 then T "\t"
  else if n =? 10 then T "\n"
  else if n =? 13 then T "\r"
  else if (n <? 32) || ((127 <=? n) && (n <=? 160)) || (n =? 173)
  then T "\x" ++ [hex_digit (n / 16); hex_digit (n mod 16)]
  else [c].

Definition squote : ascii := "'"%char.
Definition dquote : ascii := ascii_of_nat 34.

(** [repr(s)] for a [str]: single quotes, unless the text has a single
    quote and no double quote. *)
Definition repr_str (s : text) : text :=
  let has c := existsb (Ascii.eqb c) s in
  let q := if has squote && negb (has dquote) then dquote else squote in
  [q] ++ flat_map (repr_char q) s ++ [q].

(** [repr(v)] *)
Fixpoint repr (v : pyval) : text :=
  match v with
  | VNone => T "None"
  | VBool true => T "True"
  | VBool false => T "False"
  | VInt z => str_of_Z z
  | VStr s => repr_str s
  | VList l => T "[" ++ join (T ", ") (map repr l) ++ T "]"
  | VDict d =>
      T "{" ++
      join (T ", ")
        (map (fun kv => match kv with
                        | (k, x) => repr_str k ++ T ": " ++ repr x
                        end) d)
      ++ T "}"
  end.

(** [str(v)] *)
Definition str (v : pyval) : text :=
  match v with
  | VStr s => s
  | _ => repr v
  end.

(** [html.escape(s)], with [quote=True] *)
Definition escape_char (c : ascii) : text :=
  if Ascii.eqb c "&"%char then T "&amp;"
  else if Ascii.eqb c "<"%char then T "&lt;"
  else if Ascii.eqb c ">"%char then T "&gt;"
  else if Ascii.eqb c dquote then T "&quot;"
  else if Ascii.eqb c squote then T "&#x27;"
  else [c].

Definition html_escape (s : text) : text := flat_map escape_char s.

(** [list(set(names))]: the names without repetition. The order Python
    gives them depends on the hashes; only membership is relied upon. *)
Definition list_set (names : list text) : list text :=
  nodup (list_eq_dec ascii_dec) names.

(** [l[start:stop] = v] on a list of characters, for
    [start <= stop <= len(l)]. *)
Definition slice_assign (l : text) (start stop : nat) (v : text) : text :=
  firstn start l ++ v ++ skipn stop l.

End Py.

(* ================================================================== *)
(** ** models.py: the Template table *)

Module Models.

(** [Template.STATUS_CHOICES] *)
Inductive STATUS_CHOICES : Type := draft | active | archived.

Definition status_eqb (a b : STATUS_CHOICES) : bool :=
  match a, b with
  | draft, draft | active, active | archived, archived => true
  | _, _ => false
  end.

(** A row of the [templates] table, and equally a [Template] instance held
    by the caller. Times are ticks of the clock; [organization] is the id
    of the organization the foreign key points to, [None] for NULL. Fields
    that no operation below reads (name, description, tags, ...) are left
    out. [updated_by] is the user id that every caller in the repository
    passes to [activate] and [archive]. *)
Record Template : Type := mkTemplate {
  id : nat;
  code : text;
  template_type : text;
  subject : text;
  content : text;
  html_content : text;
  organization : option text;
  language : text;
  version : Z;
  is_default : bool;
  status : STATUS_CHOICES;
  published_at : option Z;
  deactivated_at : option Z;
  updated_by : text;
  usage_count : Z
}.

Definition table := list Template.

Inductive exn : Type :=
| ValidationError (msg : text)
| ValueError (msg : text)
| IntegrityError.

(** Equality of two foreign keys inside a UNIQUE constraint: NULL is
    distinct from everything, also from NULL. *)
Definition fk_eqb (a b : option text) : bool :=
  match a, b with
  | Some x, Some y => text_eqb x y
  | _, _ => false
  end.

(** [Meta.unique_together], first entry:
    [['code', 'version', 'language', 'organization']] *)
Definition same_code_version (a b : Template) : bool :=
  text_eqb (code a) (code b) && Z.eqb (version a) (version b) &&
  text_eqb (language a) (language b) &&
  fk_eqb (organization a) (organization b).

(** [Meta.unique_together], second entry:
    [['code', 'language', 'is_default', 'organization']]; [is_default] is a
    plain column of the key, for both of its values. *)
Definition same_code_default (a b : Template) : bool :=
  text_eqb (code a) (code b) && text_eqb (language a) (language b) &&
  Bool.eqb (is_default a) (is_default b) &&
  fk_eqb (organization a) (organization b).

(** Two rows that cannot both be in the table: same primary key, or same
    value of one of the two unique keys. *)
Definition conflict (a b : Template) : bool :=
  Nat.eqb (id a) (id b) || same_code_version a b || same_code_default a b.

Fixpoint constraints_ok (rows : table) : bool :=
  match rows with
  | [] => true
  | r :: rows' =>
      forallb (fun r' => negb (conflict r r')) rows' && constraints_ok rows'
  end.

(** A statement that leaves the table in breach of a constraint raises
    [IntegrityError] and changes nothing. *)
Definition checked (rows' : table) : result exn table :=
  if constraints_ok rows' then Ok rows' else Err IntegrityError.

(** [QuerySet.update]: the rows selected by [sel] become [f row]. *)
Definition update (rows : table) (sel : Template -> bool)
           (f : Template -> Template) : result exn table :=
  checked (map (fun r => if sel r then f r else r) rows).

(** [self.save()]: UPDATE of the row with this primary key, INSERT when
    there is none. *)
Definition save (rows : table) (self : Template) : result exn table :=
  if existsb (fun r => Nat.eqb (id r) (id self)) rows
  then checked (map (fun r => if Nat.eqb (id r) (id self) then self else r)
                    rows)
  else checked (rows ++ [self]).

(** [ordering = ['-version']]: the rows by decreasing version (insertion
    sort; rows of equal version keep their order). *)
Fixpoint insert_by_version (r : Template) (sorted : table) : table :=
  match sorted with
  | [] => [r]
  | r' :: sorted' =>
      if Z.ltb (version r) (version r')
      then r' :: insert_by_version r sorted'
      else r :: sorted
  end.

Definition order_by_version_desc (rows : table) : table :=
  fold_right insert_by_version [] rows.

(** [QuerySet.first()] of a query set ordered by [-version] *)
Definition first (rows : table) : option Template :=
  hd_error (order_by_version_desc rows).

(** The versions of one (code, language, organization) *)
Definition same_group (self r : Template) : bool :=
  text_eqb (code r) (code self) && text_eqb (language r) (language self) &&
  match organization r, organization self with
  | Some x, Some y => text_eqb x y
  | None, None => true
  | _, _ => false
  end.

(** [Template.activate]. The result is what the call returns or raises,
    the table afterwards and the instance afterwards; an exception inside
    [transaction.atomic()] rolls the table back. *)
Definition activate (rows : table) (self : Template) (now : Z)
           (by_ : text)
  : result exn bool * table * Template :=
  if status_eqb (status self) active then (Ok false, rows, self)
  else
    match organization self with
    | None =>
        (Err (ValidationError
                (T "Template must be associated with an organization to activate.")),
         rows, self)
    | Some _ =>
        match update rows
                (fun r => same_group self r && is_default r &&
                          negb (Nat.eqb (id r) (id self)))
                (fun r => mkTemplate (id r) (code r) (template_type r)
                            (subject r) (content r) (html_content r)
                            (organization r) (language r) (version r)
                            false (status r) (published_at r)
                            (deactivated_at r) by_ (usage_count r))
        with
        | Err e => (Err e, rows, self)
        | Ok rows1 =>
            let self' :=
              mkTemplate (id self) (code self) (template_type self)
                (subject self) (content self) (html_content self)
                (organization self) (language self) (version self)
                true active (Some now) (deactivated_at self) by_
                (usage_count self) in
            match save rows1 self' with
            | Err e => (Err e, rows, self')
            | Ok rows2 => (Ok true, rows2, self')
            end
        end
    end.

(** [Template.archive] *)
Definition archive (rows : table) (self : Template) (now : Z)
           (by_ : text)
  : result exn bool * table * Template :=
  if status_eqb (status self) archived then (Ok false, rows, self)
  else
    match organization self with
    | None =>
        (Err (ValidationError
                (T "Template must be associated with an organization to archive.")),
         rows, self)
    | Some _ =>
        let other_active :=
          existsb (fun r => same_group self r &&
                            status_eqb (status r) active &&
                            negb (Nat.eqb (id r) (id self))) rows in
        if is_default self && negb other_active then
          (Err (ValidationError
                  (T "Cannot archive the default template version. Activate another version first.")),
           rows, self)
        else
          let self' :=
            mkTemplate (id self) (code self) (template_type self)
              (subject self) (content self) (html_content self)
              (organization self) (language self) (version self)
              false archived (published_at self) (Some now) by_
              (usage_count self) in
          match save rows self' with
          | Err e => (Err e, rows, self')
          | Ok rows' => (Ok true, rows', self')
          end
    end.

(** [organization_id=...] in a filter *)
Definition of_org (organization_id : text) (r : Template) : bool :=
  match organization r with
  | Some o => text_eqb o organization_id
  | None => false
  end.

(** [filter(code, language, status=active, is_default=True,
    organization_id).first()] *)
Definition active_default (rows : table) (code_ language_ org : text)
  : option Template :=
  first (filter (fun r => text_eqb (code r) code_ &&
                          text_eqb (language r) language_ &&
                          status_eqb (status r) active &&
                          is_default r && of_org org r) rows).

(** [Template.get_active_template] *)
Definition get_active_template (rows : table) (code_ language_ : text)
           (organization_id : option text)
  : result exn (option Template) :=
  match organization_id with
  | None | Some [] =>
      Err (ValueError (T "Organization ID is required to fetch a template."))
  | Some org =>
      match active_default rows code_ language_ org with
      | Some template => Ok (Some template)
      | None =>
          match
            (if negb (text_eqb language_ (T "en"))
             then active_default rows code_ (T "en") org
             else None)
          with
          | Some template => Ok (Some template)
          | None =>
              Ok (first (filter (fun r => text_eqb (code r) code_ &&
                                          status_eqb (status r) active &&
                                          of_org org r) rows))
          end
      end
  end.

End Models.

(* ================================================================== *)
(** ** renderer.py: TemplateRenderer *)

Module TemplateRenderer.
Import Py.

Inductive exn : Type :=
| TypeError (msg : text)
| AttributeError (msg : text)
| TimeoutError (msg : text)
(** [VariableMissingError(f"{prefix}{', '.join(missing_vars)}")] *)
| VariableMissingError (prefix : text) (missing_vars : list text)
(** [RenderError(msg) from cause] *)
| RenderError (msg : text) (cause : exn)
(** tenacity's [RetryError], holding the last attempt's exception *)
| RetryError (last : exn).

(** [str(e)] *)
Definition exn_str (e : exn) : text :=
  match e with
  | TypeError msg | AttributeError msg | TimeoutError msg => msg
  | VariableMissingError prefix missing_vars =>
      prefix ++ join (T ", ") missing_vars
  | RenderError msg _ => msg
  | RetryError _ => T "RetryError"
  end.

Definition span := (nat * nat)%type.

(** Order of the tuples [((start, end), value)] that
    [sorted(replacements, reverse=True)] sorts; the spans of two matches
    differ, so the values are never compared. *)
Definition span_ltb (a b : span) : bool :=
  (fst a <? fst b) || ((fst a =? fst b) && (snd a <? snd b)).

Fixpoint insert_desc (r : span * text) (sorted : list (span * text))
  : list (span * text) :=
  match sorted with
  | [] => [r]
  | r' :: sorted' =>
      if span_ltb (fst r) (fst r') then r' :: insert_desc r sorted'
      else r :: sorted
  end.

Definition sorted_reverse (rs : list (span * text)) : list (span * text) :=
  fold_right insert_desc [] rs.

(** The [for match in matches] loop of [_process_variables]: the
    replacements of the bound names and the unbound names, both in the
    order of the matches. *)
Fixpoint collect (variables : dict) (escape_html : bool)
         (matches : list (span * Re.rmatch))
  : list (span * text) * list text :=
  match matches with
  | [] => ([], [])
  | (sp, m) :: matches' =>
      let (replacements, missing_vars) :=
        collect variables escape_html matches' in
      let var_name := Re.group1 m in
      match dict_get variables var_name with
      | Some value =>
          let value := match value with VNone => [] | _ => str value end in
          let value := if escape_html then html_escape value else value in
          ((sp, value) :: replacements, missing_vars)
      | None => (replacements, var_name :: missing_vars)
      end
  end.

(** [TemplateRenderer._process_variables(content, variables, escape_html)] *)
Definition _process_variables (content : text) (variables : dict)
           (escape_html : bool) : text * list text :=
  let matches := Re.finditer Re.VARIABLE_PATTERN content in
  let (replacements, missing_vars) :=
    collect variables escape_html matches in
  let result :=
    fold_left
      (fun (result : text) (r : span * text) =>
         slice_assign result (fst (fst r)) (snd (fst r)) (snd r))
      (sorted_reverse replacements) content in
  (result, missing_vars).

(** A call of [_process_variables] with [content], [variables] and the
    further positional arguments [more]. The function has three required
    positional parameters and no defaults, so a call that does not supply
    exactly one further argument raises [TypeError]. *)
Definition call__process_variables (content : text) (variables : dict)
           (more : list bool) : result exn (text * list text) :=
  match more with
  | [escape_html] => Ok (_process_variables content variables escape_html)
  | [] =>
      Err (TypeError
             (T "_process_variables() missing 1 required positional argument: 'escape_html'"))
  | _ :: _ :: _ =>
      Err (TypeError (T "_process_variables() takes 3 positional arguments"))
  end.

(** The test [var_value and var_value not in ['false', '0', '']] *)
Definition cond_truthy (var_value : pyval) : bool :=
  truthy var_value && negb (in_strs var_value [T "false"; T "0"; T ""]).

(** [replace_conditional] of [_process_conditionals]: the replacement and
    the names it appends to [missing_vars]. *)
Definition replace_conditional (variables : dict) (m : Re.rmatch)
  : text * list text :=
  let var_name := Re.group1 m in
  let block_content := Re.group2 m in
  match dict_get variables var_name with
  | Some var_value =>
      if cond_truthy var_value then (block_content, []) else ([], [])
  | None => ([], [var_name])
  end.

(** [PATTERN.sub(repl, content)] for a callback that also appends to
    [missing_vars] *)
Fixpoint sub_tokens (repl : Re.rmatch -> text * list text)
         (ts : list Re.token) : text * list text :=
  match ts with
  | [] => ([], [])
  | Re.Lit c :: ts' =>
      let (out, missing) := sub_tokens repl ts' in (c :: out, missing)
  | Re.Match m :: ts' =>
      let (r, mv) := repl m in
      let (out, missing) := sub_tokens repl ts' in
      (r ++ out, mv ++ missing)
  end.

(** [TemplateRenderer._process_conditionals(content, variables)] *)
Definition _process_conditionals (content : text) (variables : dict)
  : text * list text :=
  sub_tokens (replace_conditional variables)
             (Re.scan Re.CONDITIONAL_PATTERN content).

(** The [for item in items] loop of [replace_loop], from the value of
    [result] so far. *)
Fixpoint loop_items (variables : dict) (block_content : text)
         (items : list pyval) (result_ : text) : result exn text :=
  match items with
  | [] => Ok result_
  | item :: items' =>
      let item_context := dict_set variables (T "item") item in
      let item_context :=
        match item with
        | VDict d => dict_update item_context d
        | _ => item_context
        end in
      match call__process_variables block_content item_context [] with
      | Err e => Err e
      | Ok (rendered_block, _) =>
          loop_items variables block_content items'
                     (result_ ++ rendered_block)
      end
  end.

(** [replace_loop] of [_process_loops] *)
Definition replace_loop (variables : dict) (m : Re.rmatch)
  : result exn (text * list text) :=
  let var_name := Re.group1 m in
  let block_content := Re.group2 m in
  match dict_get variables var_name with
  | Some items =>
      match items with
      | VList l =>
          match loop_items variables block_content l [] with
          | Ok r => Ok (r, [])
          | Err e => Err e
          end
      | _ => Ok ([], [])
      end
  | None => Ok ([], [var_name])
  end.

(** [PATTERN.sub(repl, content)] for a callback that can raise: the
    matches are replaced from left to right and the first exception ends
    the call. *)
Fixpoint sub_tokens_exn (repl : Re.rmatch -> result exn (text * list text))
         (ts : list Re.token) : result exn (text * list text) :=
  match ts with
  | [] => Ok ([], [])
  | Re.Lit c :: ts' =>
      match sub_tokens_exn repl ts' with
      | Ok (out, missing) => Ok (c :: out, missing)
      | Err e => Err e
      end
  | Re.Match m :: ts' =>
      match repl m with
      | Err e => Err e
      | Ok (r, mv) =>
          match sub_tokens_exn repl ts' with
          | Ok (out, missing) => Ok (r ++ out, mv ++ missing)
          | Err e => Err e
          end
      end
  end.

(** [TemplateRenderer._process_loops(content, variables)] *)
Definition _process_loops (content : text) (variables : dict)
  : result exn (text * list text) :=
  sub_tokens_exn (replace_loop variables) (Re.scan Re.LOOP_PATTERN content).

(** The part of [render] after the conditionals: loops, then variables,
    then the union of the missing names. *)
Definition render_after_conditionals (rendered : text)
           (cond_missing : list text) (variables : dict)
           (escape_html : bool) : result exn (text * list text) :=
  match _process_loops rendered variables with
  | Err e => Err e
  | Ok (rendered, loop_missing) =>
      match call__process_variables rendered variables [escape_html] with
      | Err e => Err e
      | Ok (rendered, var_missing) =>
          Ok (rendered,
              list_set (cond_missing ++ loop_missing ++ var_missing))
      end
  end.

(** [TemplateRenderer.render(template_content, variables, escape_html=True)] *)
Definition render (template_content : text) (variables : dict)
           (escape_html : bool) : result exn (text * list text) :=
  match template_content with
  | [] => Ok ([], [])
  | _ :: _ =>
      let (rendered, cond_missing) :=
        _process_conditionals template_content variables in
      render_after_conditionals rendered cond_missing variables escape_html
  end.

(** *** render_template *)

(** [TemplateUsageLog.RESULT_CHOICES] *)
Inductive RESULT_CHOICES : Type :=
| success | variable_missing | render_error
| template_not_found | timeout | rate_limited.

(** A row of [template_usage_logs], as [_log_render] creates it. *)
Record TemplateUsageLog : Type := mkLog {
  log_template_code : text;
  log_template_version : option Z;
  log_notification_id : text;
  log_organization_id : text;
  log_render_time : Z;
  log_result : RESULT_CHOICES;
  log_error_message : text;
  log_variables_missing : list text
}.

(** What a call can observe and change: how often [time.time()] has been
    read, the usage log, the calls of [Template.increment_usage], how often
    the body of [render_template] has been entered, and how often tenacity
    has slept between two attempts. *)
Record world : Type := mkWorld {
  reads : nat;
  usage_logs : list TemplateUsageLog;
  usage_increments : list (nat * Z);
  attempts : nat;
  sleeps : nat
}.

Definition tick (w : world) : world :=
  mkWorld (S (reads w)) (usage_logs w) (usage_increments w) (attempts w)
          (sleeps w).

Definition enter (w : world) : world :=
  mkWorld (reads w) (usage_logs w) (usage_increments w) (S (attempts w))
          (sleeps w).

Definition sleep (w : world) : world :=
  mkWorld (reads w) (usage_logs w) (usage_increments w) (attempts w)
          (S (sleeps w)).

(** [TemplateUsageLog.Meta.constraints], as migration 0002 wrote them
    into the table: [render_time >= 0], and [rendered_at] not after the
    moment the migration was generated, 2025-11-12 23:29:31 UTC, which
    [timezone.now()] was evaluated to. Times are seconds since the epoch. *)
Definition RENDERED_AT_LIMIT : Z := 1762990171.

Definition usage_log_checks (render_time rendered_at : Z) : bool :=
  Z.leb 0 render_time && Z.leb rendered_at RENDERED_AT_LIMIT.

(** [TemplateRenderer._log_render]. [rendered_at] is what [auto_now_add]
    stores, the time of the INSERT. An INSERT that breaks a CHECK raises
    [IntegrityError] inside the [try]: the handler logs it, nothing is
    written and [increment_usage] is not reached. *)
Definition _log_render (template : option Models.Template)
           (notification_id organization_id : text) (render_time : Z)
           (success_ : bool) (result_ : RESULT_CHOICES)
           (variables_missing : list text) (error_message : text)
           (rendered_at : Z) (w : world) : world :=
  let written := usage_log_checks render_time rendered_at in
  let entry :=
    mkLog (match template with
           | Some t => Models.code t
           | None => T "unknown"
           end)
          (match template with
           | Some t => Some (Models.version t)
           | None => None
           end)
          notification_id organization_id render_time result_
          (firstn 500 error_message) variables_missing in
  mkWorld (reads w)
          (if written then usage_logs w ++ [entry] else usage_logs w)
          (match template with
           | Some t =>
               if written && success_
               then usage_increments w ++ [(Models.id t, render_time)]
               else usage_increments w
           | None => usage_increments w
           end)
          (attempts w) (sleeps w).

(** The dictionary [render_template] returns *)
Record rendered : Type := mkRendered {
  r_subject : text;
  r_content : text;
  r_html_content : text
}.

(** One field of the [try] block: [cls.render] when the field is not
    empty, and [VariableMissingError] with the given prefix when names are
    missing. An empty field is not rendered and stays empty. *)
Definition render_field (field : text) (variables : dict) (prefix : text)
  : result exn text :=
  match field with
  | [] => Ok []
  | _ :: _ =>
      match render field variables true with
      | Err e => Err e
      | Ok (rendered_, missing_vars) =>
          match missing_vars with
          | [] => Ok rendered_
          | _ :: _ => Err (VariableMissingError prefix missing_vars)
          end
      end
  end.

(** The rendering steps of the [try] block, after the timeout check. *)
Definition render_fields (template : option Models.Template)
           (variables : dict) : result exn rendered :=
  match template with
  | None =>
      Err (AttributeError (T "'NoneType' object has no attribute 'content'"))
  | Some t =>
      match render_field (Models.content t) variables
              (T "Missing variables: ") with
      | Err e => Err e
      | Ok rendered_content =>
          match render_field (Models.html_content t) variables
                  (T "Missing variables in HTML content: ") with
          | Err e => Err e
          | Ok rendered_html =>
              match render_field (Models.subject t) variables
                      (T "Missing variables in subject: ") with
              | Err e => Err e
              | Ok rendered_subject =>
                  Ok (mkRendered rendered_subject rendered_content
                                 rendered_html)
              end
          end
      end
  end.

Section RenderTemplate.

(** [settings.TEMPLATE_RENDER_TIMEOUT], and the clock: [clock k] is what
    the k-th call of [time.time()] returns, in seconds since the epoch.
    The row of the usage log is stamped by the same clock: with what its
    next reading shows. *)
Variable TEMPLATE_RENDER_TIMEOUT : Z.
Variable clock : nat -> Z.

(** The body of [render_template], without its decorator. *)
Definition render_template_body (template : option Models.Template)
           (variables : dict) (notification_id organization_id : text)
           (w : world) : result exn (rendered * Z * bool) * world :=
  let w := enter w in
  let start_time := clock (reads w) in
  let w := tick w in
  let now1 := clock (reads w) in
  let w := tick w in
  let tried :=
    if Z.ltb TEMPLATE_RENDER_TIMEOUT (now1 - start_time)%Z
    then Err (TimeoutError (T "Template rendering timeout"))
    else render_fields template variables in
  let render_time := (clock (reads w) - start_time)%Z in
  let w := tick w in
  match tried with
  | Ok fields =>
      (Ok (fields, render_time, true),
       _log_render template notification_id organization_id render_time
                   true success [] [] (clock (reads w)) w)
  | Err e =>
      let error_message := exn_str e in
      let result_ :=
        match e with
        | VariableMissingError _ _ => variable_missing
        | TimeoutError _ => timeout
        | _ => render_error
        end in
      (Err (RenderError (T "Template rendering failed: " ++ error_message)
                        e),
       _log_render template notification_id organization_id render_time
                   false result_ [] error_message (clock (reads w)) w)
  end.

(** [retry_if_exception(lambda e: isinstance(e, TimeoutError))] *)
Definition is_TimeoutError (e : exn) : bool :=
  match e with TimeoutError _ => true | _ => false end.

(** tenacity's [@retry]: call the function; an exception that the retry
    predicate rejects is raised as it is; one that it accepts is retried
    after a sleep unless [stop_after_attempt] is reached, in which case
    [RetryError] is raised. [left] is the number of attempts still
    allowed after the one being made. *)
Fixpoint retrying (A : Type) (retry_if : exn -> bool)
         (f : world -> result exn A * world) (left : nat) (w : world)
  : result exn A * world :=
  match f w with
  | (Ok a, w') => (Ok a, w')
  | (Err e, w') =>
      if retry_if e then
        match left with
        | 0 => (Err (RetryError e), w')
        | S left' => retrying retry_if f left' (sleep w')
        end
      else (Err e, w')
  end.

(** [TemplateRenderer.render_template], decorated with
    [@retry(stop=stop_after_attempt(2), wait=...,
            retry=retry_if_exception(lambda e: isinstance(e, TimeoutError)))] *)
Definition render_template (template : option Models.Template)
           (variables : dict) (notification_id organization_id : text)
           (w : world) : result exn (rendered * Z * bool) * world :=
  retrying is_TimeoutError
           (render_template_body template variables notification_id
                                 organization_id)
           (2 - 1) w.

End RenderTemplate.

End TemplateRenderer.

(* ================================================================== *)
(** ** redis_client.py: RedisClient *)

Module RedisClient.

Inductive exn : Type :=
(** [redis.ConnectionError], [redis.TimeoutError], [redis.ResponseError] *)
| ConnectionError
| TimeoutError
| ResponseError
(** the module's own [RedisConnectionError] *)
| RedisConnectionError (msg : text)
(** tenacity's [RetryError] *)
| RetryError (last : exn).

(** What the server answers to a [ping()] *)
Inductive ping_outcome : Type :=
| PONG
| Raises (e : exn).

(** The attributes of the singleton, and two counters of what it has done:
    [pings] is the number of [ping()] calls sent so far (each opens or
    reuses a socket), [waits] the number of tenacity sleeps. *)
Record client : Type := mkClient {
  _is_connected : bool;
  _connection_errors : nat;
  has_pool : bool;
  pings : nat;
  waits : nat
}.

Section Server.

(** [server k] is the outcome of the k-th [ping()]. *)
Variable server : nat -> ping_outcome.

(** [RedisClient._initialize]: build the pool and ping through it. The
    message of the [RedisConnectionError] goes on with [": "] and [str(e)]
    in the source; only its fixed beginning is kept here. *)
Definition _initialize (c : client) : result exn unit * client :=
  match server (pings c) with
  | PONG =>
      (Ok tt,
       mkClient true (_connection_errors c) true (S (pings c)) (waits c))
  | Raises e =>
      (Err (RedisConnectionError (T "Redis initialization failed")),
       mkClient false (_connection_errors c) true (S (pings c)) (waits c))
  end.

(** [RedisClient._handle_connection_error] *)
Definition _handle_connection_error (c : client) : client :=
  let errors := S (_connection_errors c) in
  mkClient (if 5 <=? errors then false else _is_connected c)
           errors (has_pool c) (pings c) (waits c).

(** The body of [get_connection], without its decorator. [_initializing]
    only exists while [_initialize] runs, so the first test never fires
    in a sequential call. *)
Definition get_connection_body (c : client) : result exn unit * client :=
  let reinit :=
    if _is_connected c then (Ok tt, c) else _initialize c in
  match reinit with
  | (Err e, c1) => (Err e, c1)
  | (Ok _, c1) =>
      if negb (has_pool c1)
      then (Err (RedisConnectionError (T "Redis pool not initialized")), c1)
      else
        let c2 := mkClient (_is_connected c1) (_connection_errors c1)
                           (has_pool c1) (S (pings c1)) (waits c1) in
        match server (pings c1) with
        | PONG => (Ok tt, c2)
        | Raises ConnectionError =>
            (Err ConnectionError,
             _handle_connection_error
               (mkClient false (_connection_errors c2) (has_pool c2)
                         (pings c2) (waits c2)))
        | Raises TimeoutError =>
            (Err TimeoutError,
             _handle_connection_error
               (mkClient false (_connection_errors c2) (has_pool c2)
                         (pings c2) (waits c2)))
        | Raises e => (Err e, c2)
        end
  end.

(** [retry_if_exception_type((redis.ConnectionError, redis.TimeoutError))] *)
Definition is_transient (e : exn) : bool :=
  match e with
  | ConnectionError | TimeoutError => true
  | _ => false
  end.

Definition wait (c : client) : client :=
  mkClient (_is_connected c) (_connection_errors c) (has_pool c)
           (pings c) (S (waits c)).

Fixpoint retrying (f : client -> result exn unit * client) (left : nat)
         (c : client) : result exn unit * client :=
  match f c with
  | (Ok a, c') => (Ok a, c')
  | (Err e, c') =>
      if is_transient e then
        match left with
        | 0 => (Err (RetryError e), c')
        | S left' => retrying f left' (wait c')
        end
      else (Err e, c')
  end.

(** [RedisClient.get_connection], decorated with
    [@retry(stop=stop_after_attempt(3), ...)]. [Ok tt] stands for the
    connection handed out. *)
Definition get_connection (c : client) : result exn unit * client :=
  retrying get_connection_body (3 - 1) c.

End Server.

End RedisClient.

(* ================================================================== *)
(** ** The two cache managers *)

(** The dictionary a cache holds for a template ([_serialize_template]).
    [json.dumps] followed by [json.loads] gives the dictionary back, so the
    Redis values are kept as dictionaries. The serializer of [views.py] adds
    the key ['organization_id']; the one of [cache_manager.py] has no such
    key, which is [None] here. *)
Record TemplateData : Type := mkData {
  d_id : nat;
  d_code : text;
  d_language : text;
  d_version : Z;
  d_is_default : bool;
  d_status : Models.STATUS_CHOICES;
  d_subject : text;
  d_content : text;
  d_html_content : text;
  d_organization_id : option text
}.

(** [cache[key]] and [cache[key] = v] of a key-value store *)
Fixpoint kv_get (A : Type) (kv : list (text * A)) (key : text) : option A :=
  match kv with
  | [] => None
  | (k, v) :: kv' => if text_eqb k key then Some v else kv_get kv' key
  end.

Fixpoint kv_set (A : Type) (kv : list (text * A)) (key : text) (v : A)
  : list (text * A) :=
  match kv with
  | [] => [(key, v)]
  | (k, v') :: kv' =>
      if text_eqb k key then (k, v) :: kv' else (k, v') :: kv_set kv' key v
  end.

(** views.py: the Redis cache-aside manager *)
Module CacheAside.
Import Models.

(** The shared Redis server as the manager sees it: when [up] is false
    every command raises. Expiry of a key only removes it. *)
Record redis : Type := mkRedis {
  up : bool;
  entries : list (text * TemplateData)
}.

(** [TemplateCacheManager._make_template_cache_key] *)
Definition _make_template_cache_key (code_ language_ organization_id : text)
  : text :=
  T "template:" ++ organization_id ++ T ":" ++ code_ ++ T ":" ++ language_.

(** [TemplateCacheManager._serialize_template]; it reads
    [template.organization.id] and so raises when there is none. *)
Definition _serialize_template (t : Template) : option TemplateData :=
  match organization t with
  | Some o =>
      Some (mkData (id t) (code t) (language t) (version t) (is_default t)
                   (status t) (subject t) (content t) (html_content t)
                   (Some o))
  | None => None
  end.

(** [TemplateCacheManager.get_template] of views.py: the value returned
    ([None] for absent) and the Redis contents afterwards. *)
Definition get_template (r : redis) (rows : table) (code_ language_ : text)
           (organization_id : option text) (use_cache : bool)
  : option TemplateData * redis :=
  match organization_id with
  | None | Some [] => (None, r)
  | Some org =>
      let cache_key := _make_template_cache_key code_ language_ org in
      let cached_data :=
        if use_cache && up r then kv_get (entries r) cache_key else None in
      match cached_data with
      | Some data => (Some data, r)
      | None =>
          match get_active_template rows code_ language_ (Some org) with
          | Err _ => (None, r)
          | Ok None => (None, r)
          | Ok (Some template) =>
              match _serialize_template template with
              | None => (None, r)
              | Some template_data =>
                  (Some template_data,
                   if use_cache && up r
                   then mkRedis (up r)
                                (kv_set (entries r) cache_key template_data)
                   else r)
              end
          end
      end
  end.

End CacheAside.

(** cache_manager.py: the in-process mirror *)
Module MirrorCache.
Import Models.

(** [TemplateCacheManager._serialize_template] of cache_manager.py *)
Definition _serialize_template (t : Template) : TemplateData :=
  mkData (id t) (code t) (language t) (version t) (is_default t)
         (status t) (subject t) (content t) (html_content t) None.

(** What [get_template] hands back: the cached dictionary on a hit, the
    model instance when the row was just loaded. *)
Inductive found : Type :=
| Cached (data : TemplateData)
| Loaded (template : Template).

Definition found_id (f : found) : nat :=
  match f with
  | Cached data => d_id data
  | Loaded template => id template
  end.

(** [self.templates], keyed by ["{code}:{language}"] *)
Definition templates_dict := list (text * TemplateData).

Definition cache_key_of (code_ language_ : text) : text :=
  code_ ++ T ":" ++ language_.

(** [TemplateCacheManager.get_template(code, language='en')] of
    cache_manager.py. The method takes no organization; [depth] bounds the
    recursion of the English fallback, which calls the method once more
    with ['en']. *)
Fixpoint get_template_rec (depth : nat) (templates : templates_dict)
         (rows : table) (code_ language_ : text)
  : option found * templates_dict :=
  let cache_key := cache_key_of code_ language_ in
  let (template, templates1) :=
    match kv_get templates cache_key with
    | Some data => (Some (Cached data), templates)
    | None =>
        match first (filter (fun r => text_eqb (code r) code_ &&
                                      text_eqb (language r) language_ &&
                                      status_eqb (status r) active &&
                                      is_default r) rows) with
        | Some t =>
            (Some (Loaded t),
             kv_set templates cache_key (_serialize_template t))
        | None => (None, templates)
        end
    end in
  match template with
  | Some f => (Some f, templates1)
  | None =>
      if negb (text_eqb language_ (T "en")) then
        match depth with
        | S depth' => get_template_rec depth' templates1 rows code_ (T "en")
        | 0 => (None, templates1)
        end
      else (None, templates1)
  end.

Definition get_template (templates : templates_dict) (rows : table)
           (code_ language_ : text) : option found * templates_dict :=
  get_template_rec 1 templates rows code_ language_.

End MirrorCache.

(* ================================================================== *)
(** ** Statements of the specification that the code is compared with *)

Module Spec.
Import Py TemplateRenderer.

(** "Any non-empty missing set on any of the three raises a
    VariableMissing error carrying the union": whenever the three fields
    render and one of them has missing names, the error raised reports a
    set of names equal to the union of the three sets. *)
Definition raises_union_of_missing (TIMEOUT : Z) (clock : nat -> Z)
           (t : Models.Template) (variables : dict)
           (notification_id organization_id : text) (w : world) : Prop :=
  forall rc mc rh mh rs ms,
    render (Models.content t) variables true = Ok (rc, mc) ->
    render (Models.html_content t) variables true = Ok (rh, mh) ->
    render (Models.subject t) variables true = Ok (rs, ms) ->
    mc ++ mh ++ ms <> [] ->
    exists msg prefix reported,
      fst (render_template TIMEOUT clock (Some t) variables notification_id
                           organization_id w)
      = Err (RenderError msg (VariableMissingError prefix reported)) /\
      (forall x, In x reported <-> In x (mc ++ mh ++ ms)).

(** What the code reports instead: the fields are taken in the order
    content, html_content, subject, and the first one that is not empty
    and has missing names gives the prefix and the names of the error. A
    field that fails to render ends the search. *)
Definition field_missing (field : text) (variables : dict)
  : result unit (list text) :=
  match field with
  | [] => Ok []
  | _ :: _ =>
      match render field variables true with
      | Ok (_, missing) => Ok missing
      | Err _ => Err tt
      end
  end.

Definition first_missing (t : Models.Template) (variables : dict)
  : option (text * list text) :=
  match field_missing (Models.content t) variables with
  | Err _ => None
  | Ok (x :: m) => Some (T "Missing variables: ", x :: m)
  | Ok [] =>
      match field_missing (Models.html_content t) variables with
      | Err _ => None
      | Ok (x :: m) => Some (T "Missing variables in HTML content: ", x :: m)
      | Ok [] =>
          match field_missing (Models.subject t) variables with
          | Err _ => None
          | Ok (x :: m) => Some (T "Missing variables in subject: ", x :: m)
          | Ok [] => None
          end
      end
  end.

(** "Once 5 or more connection errors have been recorded and the client
    is marked open, every subsequent call fails fast without attempting a
    new connection": the call raises and sends no ping. *)
Definition fails_fast (server : nat -> RedisClient.ping_outcome)
           (c : RedisClient.client) : Prop :=
  5 <= RedisClient._connection_errors c ->
  RedisClient._is_connected c = false ->
  (exists e, fst (RedisClient.get_connection server c) = Err e) /\
  RedisClient.pings (snd (RedisClient.get_connection server c))
  = RedisClient.pings c.

(** "Archive on the current default fails with a validation error,
    leaving the record unchanged, unless another active version of the
    group exists; when another active version exists, or the version is
    not the default, archive succeeds and sets status, is_default and
    deactivated_at." *)
Definition other_active (rows : Models.table) (self : Models.Template)
  : bool :=
  existsb (fun r => Models.same_group self r &&
                    Models.status_eqb (Models.status r) Models.active &&
                    negb (Nat.eqb (Models.id r) (Models.id self))) rows.

Definition archived_now (self self' : Models.Template) (now : Z) : Prop :=
  Models.status self' = Models.archived /\
  Models.is_default self' = false /\
  Models.deactivated_at self' = Some now.

Definition archive_as_stated (rows : Models.table) (self : Models.Template)
           (now : Z) (by_ : text) : Prop :=
  (Models.is_default self = true -> other_active rows self = false ->
   exists msg,
     Models.archive rows self now by_
     = (Err (Models.ValidationError msg), rows, self)) /\
  (other_active rows self = true \/ Models.is_default self = false ->
   exists rows' self',
     Models.archive rows self now by_ = (Ok true, rows', self') /\
     archived_now self self' now).

(** The rows of the last query of [get_active_template]: active, of the
    given code and organization, in any language, default or not. *)
Definition candidate (code_ org : text) (r : Models.Template) : bool :=
  text_eqb (Models.code r) code_ &&
  Models.status_eqb (Models.status r) Models.active &&
  Models.of_org org r.

(** "When no active default exists for the language nor for English,
    get_active_template does not return absent." *)
Definition never_absent (rows : Models.table) (code_ language_ org : text)
  : Prop :=
  Models.active_default rows code_ language_ org = None ->
  Models.active_default rows code_ (T "en") org = None ->
  exists t,
    Models.get_active_template rows code_ language_ (Some org)
    = Ok (Some t).

(** The plain-variable stage read from left to right: a bound name is
    replaced by the text of its value, an unbound one is left as it stands
    and recorded. *)
Definition value_text (escape_html : bool) (value : pyval) : text :=
  let value := match value with VNone => [] | _ => str value end in
  if escape_html then html_escape value else value.

Definition replace_variable (variables : dict) (escape_html : bool)
           (m : Re.rmatch) : text * list text :=
  match dict_get variables (Re.group1 m) with
  | Some value => (value_text escape_html value, [])
  | None => (Re.group0 m, [Re.group1 m])
  end.

(** The placeholder of a name, and the conditional block of a name and a
    body, as they are written in a template *)
Definition placeholder (name : text) : text := T "{{" ++ name ++ T "}}".

Definition if_block (name body : text) : text :=
  T "{{#if " ++ name ++ T "}}" ++ body ++ T "{{/if}}".

(** A variable name: one or more word characters *)
Definition is_name (name : text) : bool :=
  match name with
  | [] => false
  | _ :: _ => forallb Re.is_word name
  end.

(** Two rows that agree on the columns the constraints look at *)
Definition same_keys (a b : Models.Template) : Prop :=
  Models.id a = Models.id b /\ Models.code a = Models.code b /\
  Models.version a = Models.version b /\
  Models.language a = Models.language b /\
  Models.is_default a = Models.is_default b /\
  Models.organization a = Models.organization b.

(** "For every template text and every variable binding, each plain
    placeholder {{name}} whose name is not bound is left verbatim in
    Render's output and name appears in the returned missing-variable
    set": wherever the text has the placeholder of an unbound name, the
    call returns, its output has the placeholder and its missing set has
    the name. *)
Definition unbound_left_verbatim (content : text) (variables : dict) : Prop :=
  forall pre name post,
    content = pre ++ placeholder name ++ post ->
    is_name name = true ->
    dict_get variables name = None ->
    exists out missing,
      render content variables true = Ok (out, missing) /\
      Re.occurs (placeholder name) out = true /\
      In name missing.

(** The values the conditional stage removes a block for, one by one:
    [None], [False], [0], the empty text, list and dictionary, and the
    texts ["false"] and ["0"] *)
Definition empty_false_or_zero (v : pyval) : Prop :=
  v = VNone \/ v = VBool false \/ v = VInt 0 \/ v = VStr [] \/
  v = VStr (T "false") \/ v = VStr (T "0") \/ v = VList [] \/ v = VDict [].

(** "For every conditional block {{#if name}}body{{/if}}: when name is
    bound and its value is not empty, not "false" and not "0", Render
    keeps body; when name is bound to an empty/"false"/"0" value the block
    is removed and name is not recorded as missing; when name is unbound
    the block is removed and name is added to the missing set": wherever
    the text has such a block. A block that is removed leaves no
    [{{#if name}}] in the output. *)
Definition conditional_blocks_as_stated (content : text) (variables : dict)
  : Prop :=
  forall pre name body post,
    content = pre ++ if_block name body ++ post ->
    is_name name = true ->
    (forall v, dict_get variables name = Some v ->
               ~ empty_false_or_zero v ->
               Re.occurs body (fst (_process_conditionals content variables))
               = true) /\
    (forall v, dict_get variables name = Some v ->
               empty_false_or_zero v ->
               exists out missing,
                 render content variables true = Ok (out, missing) /\
                 Re.occurs (T "{{#if " ++ name ++ T "}}") out = false /\
                 ~ In name missing) /\
    (dict_get variables name = None ->
     exists out missing,
       render content variables true = Ok (out, missing) /\
       Re.occurs (T "{{#if " ++ name ++ T "}}") out = false /\
       In name missing).

End Spec.

(* ================================================================== *)
(** ** Sample data *)

Module Sample.
Import Models.

Definition org_a : text := T "org_a".
Definition org_b : text := T "org_b".

Definition row (id_ : nat) (org : text) (language_ : text) (version_ : Z)
           (is_default_ : bool) (status_ : STATUS_CHOICES) : Template :=
  mkTemplate id_ (T "welcome") (T "email") (T "Welcome") (T "Hi {{name}}")
             [] (Some org) language_ version_ is_default_ status_
             None None (T "system") 0.

(** A template whose content and HTML content miss different names *)
Definition two_gaps : Template :=
  mkTemplate 7 (T "welcome") (T "email") [] (T "Hi {{x}}") (T "<p>{{y}}</p>")
             (Some org_a) (T "en") 1 true active None None (T "system") 0.

Definition world0 : TemplateRenderer.world :=
  TemplateRenderer.mkWorld 0 [] [] 0 0.

(** A clock that advances by one tick at every reading *)
Definition ticking (k : nat) : Z := Z.of_nat k.

(** A clock that stands still *)
Definition frozen (k : nat) : Z := 0%Z.

End Sample.

(* ================================================================== *)
(** ** More of the code: variables of a template, the mock Redis, the
    listings and the invalidation of the two cache managers *)

(** [del d[key]] *)
Fixpoint kv_delete (A : Type) (kv : list (text * A)) (key : text)
  : list (text * A) :=
  match kv with
  | [] => []
  | (k, v) :: kv' =>
      if text_eqb k key then kv_delete kv' key else (k, v) :: kv_delete kv' key
  end.

(** models.py [Template._extract_variables] and views.py
    [TemplateRenderView._validate_variables] *)
Module TemplateVariables.
Import Py.

(** [re.findall(pattern, s)] for a pattern with one group: group 1 of every
    match, in the order of the matches. *)
Definition findall (p : Re.pattern) (s : text) : list text :=
  map (fun sm => Re.group1 (snd sm)) (Re.finditer p s).

(** [var.startswith('_')] *)
Definition startswith_underscore (var : text) : bool :=
  match var with
  | c :: _ => Ascii.eqb c "_"
  | [] => false
  end.

(** [a <= b] on [str]: by code points, a prefix first. *)
Fixpoint text_leb (a b : text) : bool :=
  match a, b with
  | [], _ => true
  | _ :: _, [] => false
  | x :: a', y :: b' =>
      (nat_of_ascii x <? nat_of_ascii y) ||
      ((nat_of_ascii x =? nat_of_ascii y) && text_leb a' b')
  end.

Fixpoint insert_sorted (x : text) (l : list text) : list text :=
  match l with
  | [] => [x]
  | y :: l' => if text_leb x y then x :: l else y :: insert_sorted x l'
  end.

(** [sorted(names)] *)
Definition sorted (names : list text) : list text :=
  fold_right insert_sorted [] names.

(** [Template._extract_variables]: the new values of [self.variables] and
    [self.optional_variables], from the three payload fields. The pattern
    is the one of the renderer, [r'\{\{(\w+)\}\}']. *)
Definition _extract_variables (content html_content subject : text)
  : list text * list text :=
  let content_vars := findall Re.VARIABLE_PATTERN content in
  let content_vars :=
    match html_content with
    | [] => content_vars
    | _ :: _ => content_vars ++ findall Re.VARIABLE_PATTERN html_content
    end in
  let content_vars :=
    match subject with
    | [] => content_vars
    | _ :: _ => content_vars ++ findall Re.VARIABLE_PATTERN subject
    end in
  let content_vars := list_set content_vars in
  let required_vars :=
    filter (fun var => negb (startswith_underscore var)) content_vars in
  let optional_vars := filter startswith_underscore content_vars in
  (sorted required_vars, sorted optional_vars).

(** The dictionary [_validate_variables] returns *)
Record validation : Type := mkValidation {
  valid : bool;
  required : list text;
  missing : list text;
  extra : list text
}.

Definition mem (x : text) (l : list text) : bool := existsb (text_eqb x) l.

(** [_validate_variables(template, provided_variables)], from
    [template.variables] *)
Definition _validate_variables (template_variables : list text)
           (provided_variables : dict) : validation :=
  let required_vars := list_set template_variables in
  let provided_vars := list_set (map fst provided_variables) in
  let missing_ := filter (fun v => negb (mem v provided_vars)) required_vars in
  let extra_ := filter (fun v => negb (mem v required_vars)) provided_vars in
  mkValidation (length missing_ =? 0) (sorted required_vars)
               (sorted missing_) (sorted extra_).

End TemplateVariables.

(** redis_client.py: [MockRedis], the client of a DEBUG deployment *)
Module MockRedis.
Import Py.

Definition data := list (text * pyval).

(** [get(key)]: [self.data.get(key)] *)
Definition get (d : data) (key : text) : option pyval := kv_get d key.

(** [setex(key, expiry, value)]: the expiry is not kept. *)
Definition setex (d : data) (key : text) (expiry : Z) (value : pyval) : data :=
  kv_set d key value.

(** [expire(key, seconds)]: [pass] *)
Definition expire (d : data) (key : text) (seconds : Z) : data := d.

(** [incr(key)]: [self.data.get(key, 0) + 1], stored and returned; adding 1
    to a value that is not a number raises [TypeError]. *)
Definition incr (d : data) (key : text) : option Z * data :=
  let current :=
    match kv_get d key with
    | None => Some 0%Z
    | Some (VInt n) => Some n
    | Some (VBool b) => Some (if b then 1%Z else 0%Z)
    | Some _ => None
    end in
  match current with
  | Some n => (Some (n + 1)%Z, kv_set d key (VInt (n + 1)))
  | None => (None, d)
  end.

End MockRedis.

(** views.py: the rest of the cache-aside manager *)
Module CacheAsideOps.
Import Models CacheAside.

(** [TemplateCacheManager.invalidate_template]: without an organization
    id nothing happens; a failing [delete] is logged and swallowed. *)
Definition invalidate_template (r : redis) (code_ language_ : text)
           (organization_id : option text) : redis :=
  match organization_id with
  | None | Some [] => r
  | Some org =>
      if up r
      then mkRedis (up r)
                   (kv_delete (entries r)
                      (_make_template_cache_key code_ language_ org))
      else r
  end.

(** [[self._serialize_template(t) for t in templates]] inside [try]: one
    template that cannot be serialized makes the method return [[]]. *)
Fixpoint serialize_all (ts : list Template) : option (list TemplateData) :=
  match ts with
  | [] => Some []
  | t :: ts' =>
      match _serialize_template t, serialize_all ts' with
      | Some d, Some ds => Some (d :: ds)
      | _, _ => None
      end
  end.

Section Listing.

(** The column [updated_at], which the record of a row leaves out *)
Variable updated_at : Template -> Z.

Fixpoint insert_by_updated (r : Template) (sorted : table) : table :=
  match sorted with
  | [] => [r]
  | r' :: sorted' =>
      if Z.ltb (updated_at r) (updated_at r')
      then r' :: insert_by_updated r sorted'
      else r :: sorted
  end.

(** [order_by('-updated_at')] *)
Definition order_by_updated_desc (rows : table) : table :=
  fold_right insert_by_updated [] rows.

(** [TemplateCacheManager.get_all_templates] *)
Definition get_all_templates (rows : table) (organization_id : option text)
  : list TemplateData :=
  match organization_id with
  | None | Some [] => []
  | Some org =>
      match serialize_all
              (order_by_updated_desc
                 (filter (fun r => status_eqb (status r) active &&
                                   of_org org r) rows)) with
      | Some ds => ds
      | None => []
      end
  end.

(** [TemplateCacheManager.get_templates_by_type] *)
Definition get_templates_by_type (rows : table) (template_type_ : text)
           (organization_id : option text) : list TemplateData :=
  match organization_id with
  | None | Some [] => []
  | Some org =>
      match serialize_all
              (order_by_updated_desc
                 (filter (fun r => text_eqb (template_type r) template_type_ &&
                                   status_eqb (status r) active &&
                                   of_org org r) rows)) with
      | Some ds => ds
      | None => []
      end
  end.

End Listing.

End CacheAsideOps.

(** cache_manager.py: reload and invalidation of the mirror's [templates]
    index (the indexes by type and by tag are not modelled) *)
Module MirrorOps.
Import Models MirrorCache.

(** [TemplateCacheManager.invalidate_template] of cache_manager.py *)
Definition invalidate_template (templates : templates_dict)
           (template_code language_ : text) : templates_dict :=
  kv_delete templates (cache_key_of template_code language_).

(** The [for template in templates] loop of [_load_templates_from_db] on
    [new_cache] *)
Definition fill (new_cache : templates_dict) (ts : list Template)
  : templates_dict :=
  fold_left
    (fun cache t =>
       kv_set cache (cache_key_of (code t) (language t))
              (_serialize_template t))
    ts new_cache.

(** [TemplateCacheManager._load_templates_from_db]: the new value of
    [self.templates] and the number returned. *)
Definition _load_templates_from_db (rows : table) : templates_dict * nat :=
  let templates :=
    order_by_version_desc
      (filter (fun r => status_eqb (status r) active) rows) in
  let new_cache := fill [] templates in
  (new_cache, length new_cache).

End MirrorOps.

(** Texts used in the statements below *)
Module Shapes.

(** The loop block of a name and a body, as it is written in a template *)
Definition each_block (name body : text) : text :=
  T "{{#each " ++ name ++ T "}}" ++ body ++ T "{{/each}}".

(** A text without the character [":"] *)
Definition colon_free (s : text) : bool :=
  forallb (fun c => negb (Ascii.eqb c ":")) s.

(** A Redis cache in which the entry under the key of an organization, for
    identifiers without [":"], is a record of that organization *)
Definition scoped (r : CacheAside.redis) : Prop :=
  forall org code_ language_ d,
    colon_free org = true -> colon_free code_ = true ->
    kv_get (CacheAside.entries r)
           (CacheAside._make_template_cache_key code_ language_ org)
    = Some d ->
    d_organization_id d = Some org.

(** What [render_template] returns for a field: nothing for an empty
    field, and else the output of [render], which found nothing missing *)
Definition field_rendered (field : text) (variables : Py.dict) (out : text)
  : Prop :=
  (field = [] /\ out = []) \/
  (field <> [] /\ TemplateRenderer.render field variables true = Ok (out, [])).

(** The names that stand in placeholders of a text *)
Definition placeholder_names (s : text) : list text :=
  TemplateVariables.findall Re.VARIABLE_PATTERN s.

(** A bound name *)
Definition bound (variables : Py.dict) (name : text) : bool :=
  match Py.dict_get variables name with Some _ => true | None => false end.

End Shapes.

(* ================================================================== *)
(** * Theorems *)

Import Py.

(** ** Loops *)

Section Loops.
Import TemplateRenderer.

(** The call inside the loop gives two of the three arguments. *)
Lemma loop_items_nonempty_raises :
  forall variables block_content item items acc,
    exists msg,
      loop_items variables block_content (item :: items) acc
      = Err (TypeError msg).
Proof.
  intros. simpl. eexists. reflexivity.
Qed.

Lemma loop_items_empty :
  forall variables block_content acc,
    loop_items variables block_content [] acc = Ok acc.
Proof. reflexivity. Qed.

(** A bound name whose value is not a list expands to the empty text. *)
Lemma replace_loop_not_a_list :
  forall variables m v,
    dict_get variables (Re.group1 m) = Some v ->
    (forall l, v <> VList l) ->
    replace_loop variables m = Ok ([], []).
Proof.
  intros variables m v Hget Hnl. unfold replace_loop. rewrite Hget.
  destruct v; try reflexivity. exfalso. eapply Hnl. reflexivity.
Qed.

(** C3. On ["{{#each items}}{{item}},{{/each}}"] with [items] bound to
    [["a", "b"]] the code does not return ["a,b,"]: [replace_loop] calls
    [_process_variables(block_content, item_context)] without the required
    [escape_html], the call raises [TypeError] for the first element, and
    so does [render]. The same happens for every list that is not empty;
    the empty list and a value that is not a list expand to the empty
    text. *)
Theorem render_each_raises_TypeError :
  (exists msg,
      render (T "{{#each items}}{{item}},{{/each}}")
             [(T "items", VList [VStr (T "a"); VStr (T "b")])] true
      = Err (TypeError msg)) /\
  (forall variables m item items,
      dict_get variables (Re.group1 m) = Some (VList (item :: items)) ->
      exists msg, replace_loop variables m = Err (TypeError msg)) /\
  render (T "{{#each items}}{{item}},{{/each}}")
         [(T "items", VList [])] true = Ok ([], []) /\
  render (T "{{#each items}}{{item}},{{/each}}")
         [(T "items", VStr (T "ab"))] true = Ok ([], []).
Proof.
  split; [|split; [|split]].
  - eexists. vm_compute. reflexivity.
  - intros variables m item items Hget. unfold replace_loop.
    rewrite Hget. simpl. eexists. reflexivity.
  - vm_compute. reflexivity.
  - vm_compute. reflexivity.
Qed.

End Loops.

(** ** render_template *)

Section RenderTemplateFacts.
Import TemplateRenderer.
Variable TIMEOUT : Z.
Variable clock : nat -> Z.

(** The handler of [render_template] turns every exception into a plain
    [RenderError]. *)
Lemma body_raises_RenderError :
  forall template variables nid oid w e,
    fst (render_template_body TIMEOUT clock template variables nid oid w)
    = Err e ->
    exists msg cause, e = RenderError msg cause.
Proof.
  intros template variables nid oid w e. unfold render_template_body.
  destruct (Z.ltb _ _); [|destruct (render_fields _ _)]; simpl;
    intros H; inversion H; eauto.
Qed.

Lemma body_attempts :
  forall template variables nid oid w,
    attempts (snd (render_template_body TIMEOUT clock template variables
                                        nid oid w))
    = S (attempts w) /\
    sleeps (snd (render_template_body TIMEOUT clock template variables
                                      nid oid w))
    = sleeps w.
Proof.
  intros. unfold render_template_body.
  destruct (Z.ltb _ _); [|destruct (render_fields _ _)]; simpl; auto.
Qed.

(** A [RenderError] is not a [TimeoutError], so the decorator never
    retries: the decorated function is its body. *)
Lemma render_template_is_body :
  forall template variables nid oid w,
    render_template TIMEOUT clock template variables nid oid w
    = render_template_body TIMEOUT clock template variables nid oid w.
Proof.
  intros. unfold render_template. simpl.
  pose proof (body_raises_RenderError template variables nid oid w) as Hb.
  destruct (render_template_body TIMEOUT clock template variables nid oid w)
    as [[v|e] w'] eqn:E; [reflexivity|].
  destruct (Hb e eq_refl) as (msg & cause & ->). reflexivity.
Qed.

Lemma render_template_no_timeout :
  forall template variables nid oid w,
    (clock (S (reads w)) - clock (reads w) <= TIMEOUT)%Z ->
    fst (render_template TIMEOUT clock template variables nid oid w)
    = match render_fields template variables with
      | Ok fields =>
          Ok (fields, (clock (S (S (reads w))) - clock (reads w))%Z, true)
      | Err e =>
          Err (RenderError (T "Template rendering failed: " ++ exn_str e) e)
      end.
Proof.
  intros template variables nid oid w Hle.
  rewrite render_template_is_body. unfold render_template_body. simpl.
  replace (Z.ltb TIMEOUT (clock (S (reads w)) - clock (reads w))) with false
    by (symmetry; apply Z.ltb_ge; exact Hle).
  destruct (render_fields template variables); reflexivity.
Qed.

End RenderTemplateFacts.

(** C4. [render_template] never makes a second attempt. The handler at the
    end of the body catches the [TimeoutError] and raises
    [RenderError(...) from e]; the decorator's predicate
    [isinstance(e, TimeoutError)] is false for it. Every call enters the body
    exactly once and never sleeps; with a timeout of 0 and a clock that
    advances between its first two readings the first attempt times out and
    the call ends there with the wrapped error. *)
Theorem render_template_timeout_not_retried :
  (forall TIMEOUT clock template variables nid oid w,
      TemplateRenderer.attempts
        (snd (TemplateRenderer.render_template TIMEOUT clock template
                variables nid oid w))
      = S (TemplateRenderer.attempts w) /\
      TemplateRenderer.sleeps
        (snd (TemplateRenderer.render_template TIMEOUT clock template
                variables nid oid w))
      = TemplateRenderer.sleeps w) /\
  (let r := TemplateRenderer.render_template 0 Sample.ticking
              (Some Sample.two_gaps) [] (T "n1") Sample.org_a Sample.world0 in
   fst r = Err (TemplateRenderer.RenderError
                  (T "Template rendering failed: Template rendering timeout")
                  (TemplateRenderer.TimeoutError
                     (T "Template rendering timeout"))) /\
   TemplateRenderer.attempts (snd r) = 1).
Proof.
  split.
  - intros. rewrite render_template_is_body. apply body_attempts.
  - vm_compute. repeat split; reflexivity.
Qed.

(** The request of [Sample.two_gaps] with no variables: content misses [x],
    the HTML content misses [y], and the error names [x] only. *)
Lemma two_gaps_reports_x_only :
  fst (TemplateRenderer.render_template 30 Sample.frozen
         (Some Sample.two_gaps) [] (T "n1") Sample.org_a Sample.world0)
  = Err (TemplateRenderer.RenderError
           (T "Template rendering failed: Missing variables: x")
           (TemplateRenderer.VariableMissingError
              (T "Missing variables: ") [T "x"])).
Proof. vm_compute. reflexivity. Qed.

(** C2, as stated, fails: the union of the missing sets of
    [Sample.two_gaps] is [{x, y}], the error raised carries [{x}]. *)
Lemma two_gaps_not_the_union :
  ~ Spec.raises_union_of_missing 30 Sample.frozen Sample.two_gaps []
      (T "n1") Sample.org_a Sample.world0.
Proof.
  intros H.
  destruct (H (T "Hi {{x}}") [T "x"] (T "<p>{{y}}</p>") [T "y"] [] [])
    as (msg & prefix & reported & Heq & Hiff);
    try (vm_compute; reflexivity).
  - discriminate.
  - rewrite two_gaps_reports_x_only in Heq. inversion Heq; subst.
    assert (Hy : In (T "y") [T "x"]) by (apply Hiff; simpl; auto).
    simpl in Hy. destruct Hy as [Hy|[]]. discriminate Hy.
Qed.

Lemma render_field_clean :
  forall field variables prefix,
    Spec.field_missing field variables = Ok [] ->
    exists r, TemplateRenderer.render_field field variables prefix = Ok r.
Proof.
  intros field variables prefix.
  unfold TemplateRenderer.render_field, Spec.field_missing.
  destruct field as [|c field]; [eauto|].
  destruct (TemplateRenderer.render (c :: field) variables true)
    as [[r [|x m]]|e]; intros H; try discriminate H; eauto.
Qed.

Lemma render_field_gap :
  forall field variables prefix x m,
    Spec.field_missing field variables = Ok (x :: m) ->
    TemplateRenderer.render_field field variables prefix
    = Err (TemplateRenderer.VariableMissingError prefix (x :: m)).
Proof.
  intros field variables prefix x m.
  unfold TemplateRenderer.render_field, Spec.field_missing.
  destruct field as [|c field]; [discriminate|].
  destruct (TemplateRenderer.render (c :: field) variables true)
    as [[r [|y m']]|e]; intros H; inversion H; subst; reflexivity.
Qed.

(** C2, amended. [render_template] renders content, then html_content, then
    subject, each only when the one before had no missing name; the first
    field with missing names ends the call, and the error raised is a
    [RenderError] whose cause is the [VariableMissingError] of that field
    alone: its prefix and its missing names, not the union. *)
Theorem render_template_reports_first_missing :
  forall TIMEOUT clock t variables nid oid w prefix missing,
    (clock (S (TemplateRenderer.reads w)) - clock (TemplateRenderer.reads w)
     <= TIMEOUT)%Z ->
    Spec.first_missing t variables = Some (prefix, missing) ->
    fst (TemplateRenderer.render_template TIMEOUT clock (Some t) variables
           nid oid w)
    = Err (TemplateRenderer.RenderError
             (T "Template rendering failed: " ++ prefix
                ++ join (T ", ") missing)
             (TemplateRenderer.VariableMissingError prefix missing)).
Proof.
  intros TIMEOUT clock t variables nid oid w prefix missing Hle Hfm.
  rewrite render_template_no_timeout by exact Hle.
  unfold TemplateRenderer.render_fields.
  unfold Spec.first_missing in Hfm.
  destruct (Spec.field_missing (Models.content t) variables)
    as [[|x m]|[]] eqn:Ec; [| |discriminate].
  2: { inversion Hfm; subst.
       rewrite (render_field_gap _ _ _ Ec). reflexivity. }
  destruct (render_field_clean _ _ (T "Missing variables: ") Ec) as (rc & ->).
  destruct (Spec.field_missing (Models.html_content t) variables)
    as [[|x m]|[]] eqn:Eh; [| |discriminate].
  2: { inversion Hfm; subst.
       rewrite (render_field_gap _ _ _ Eh). reflexivity. }
  destruct (render_field_clean _ _ (T "Missing variables in HTML content: ") Eh)
    as (rh & ->).
  destruct (Spec.field_missing (Models.subject t) variables)
    as [[|x m]|[]] eqn:Es; try discriminate.
  inversion Hfm; subst.
  rewrite (render_field_gap _ _ _ Es). reflexivity.
Qed.

Lemma render_template_reports_first_missing_witness :
  fst (TemplateRenderer.render_template 30 Sample.frozen
         (Some Sample.two_gaps) [] (T "n1") Sample.org_a Sample.world0)
  = Err (TemplateRenderer.RenderError
           (T "Template rendering failed: " ++ T "Missing variables: "
              ++ join (T ", ") [T "x"])
           (TemplateRenderer.VariableMissingError
              (T "Missing variables: ") [T "x"])).
Proof.
  apply (@render_template_reports_first_missing 30 Sample.frozen
           Sample.two_gaps [] (T "n1") Sample.org_a Sample.world0).
  - vm_compute. discriminate.
  - vm_compute. reflexivity.
Defined.

(** ** Tenant isolation *)

Section Tenants.
Import Models.

Lemma insert_by_version_In :
  forall r x sorted,
    In x (insert_by_version r sorted) <-> x = r \/ In x sorted.
Proof.
  intros r x sorted. induction sorted as [|r' sorted IH]; simpl.
  - intuition.
  - destruct (Z.ltb (version r) (version r')); simpl; rewrite ?IH; intuition.
Qed.

Lemma order_by_version_desc_In :
  forall rows x, In x (order_by_version_desc rows) <-> In x rows.
Proof.
  intros rows x. induction rows as [|r rows IH]; simpl; [reflexivity|].
  rewrite insert_by_version_In, IH. intuition.
Qed.

(** [first()] returns a row of the query set. *)
Lemma first_In : forall rows t, first rows = Some t -> In t rows.
Proof.
  intros rows t H. unfold first in H.
  apply order_by_version_desc_In.
  destruct (order_by_version_desc rows); simpl in H; [discriminate|].
  inversion H; subst. simpl; auto.
Qed.

(** [first()] returns nothing only for an empty query set. *)
Lemma first_None : forall rows, first rows = None -> rows = [].
Proof.
  intros [|r rows] H; [reflexivity|]. exfalso.
  unfold first in H.
  assert (Hin : In r (order_by_version_desc (r :: rows)))
    by (apply order_by_version_desc_In; simpl; auto).
  destruct (order_by_version_desc (r :: rows)); [destruct Hin|discriminate].
Qed.

(** The model's lookup is scoped: whatever it returns belongs to the
    organization asked for. *)
Lemma get_active_template_scoped :
  forall rows code_ language_ org t,
    get_active_template rows code_ language_ (Some org) = Ok (Some t) ->
    of_org org t = true.
Proof.
  intros rows code_ language_ org t. unfold get_active_template.
  destruct org as [|c org]; [discriminate|].
  unfold active_default.
  repeat match goal with
         | |- context [first (filter ?f rows)] =>
             let E := fresh "E" in
             destruct (first (filter f rows)) eqn:E
         | |- context [if ?b then _ else _] => destruct b
         end;
    intros H; inversion H; subst;
    match goal with
    | E : first (filter _ rows) = Some t |- _ =>
        apply first_In in E; apply filter_In in E; destruct E as [_ E];
        repeat (apply andb_prop in E; destruct E as [E ?]); assumption
    end.
Qed.

(** The cache-aside manager of views.py rejects a lookup without an
    organization id. *)
Lemma cache_aside_requires_organization :
  forall r rows code_ language_ use_cache,
    CacheAside.get_template r rows code_ language_ None use_cache = (None, r)
    /\ CacheAside.get_template r rows code_ language_ (Some []) use_cache
       = (None, r).
Proof. intros; split; reflexivity. Qed.

(** Read from the table, the cache-aside manager returns a record of the
    organization asked for. *)
Lemma cache_aside_scoped_on_miss :
  forall r rows code_ language_ org d r',
    CacheAside.get_template r rows code_ language_ (Some org) false
    = (Some d, r') ->
    d_organization_id d = Some org.
Proof.
  intros r rows code_ language_ org d r' H.
  unfold CacheAside.get_template in H.
  destruct org as [|c org]; [discriminate|].
  cbn [andb] in H.
  match type of H with
  | context [get_active_template ?a ?b ?c ?o] =>
      destruct (get_active_template a b c o) as [[t|]|e] eqn:E;
        try discriminate
  end.
  apply get_active_template_scoped in E.
  unfold CacheAside._serialize_template in H. unfold of_org in E.
  destruct (organization t) as [o|]; [|discriminate].
  inversion H; subst; cbn [d_organization_id].
  unfold text_eqb in E. destruct (list_eq_dec ascii_dec o (c :: org));
    [subst; reflexivity|discriminate].
Qed.

End Tenants.

(** C1. The in-process mirror of cache_manager.py is not scoped by
    organization: its [get_template(code, language)] has no organization
    parameter, its key is ["{code}:{language}"] and its query has no
    organization filter. With a ["welcome"]/["en"] template held by
    [org_a] and one held by [org_b], the lookup, which nothing can scope to
    [org_a], returns the record of [org_b], caches it under the shared key
    and serves it from there afterwards. The cache-aside manager of
    views.py, on the same table, answers [org_a] with the record of
    [org_a]. *)
Theorem mirror_get_template_crosses_tenants :
  let rows := [Sample.row 1 Sample.org_a (T "en") 1 true Models.active;
               Sample.row 2 Sample.org_b (T "en") 2 true Models.active] in
  Models.constraints_ok rows = true /\
  (exists t templates,
      MirrorCache.get_template [] rows (T "welcome") (T "en")
      = (Some (MirrorCache.Loaded t), templates) /\
      Models.organization t = Some Sample.org_b /\
      fst (MirrorCache.get_template templates rows (T "welcome") (T "en"))
      = Some (MirrorCache.Cached (MirrorCache._serialize_template t))) /\
  (exists d r,
      CacheAside.get_template (CacheAside.mkRedis true []) rows
        (T "welcome") (T "en") (Some Sample.org_a) true = (Some d, r) /\
      d_organization_id d = Some Sample.org_a /\ d_id d = 1).
Proof.
  cbv zeta. split; [vm_compute; reflexivity|]. split.
  - eexists. eexists. split; [vm_compute; reflexivity|].
    split; vm_compute; reflexivity.
  - eexists. eexists. split; [vm_compute; reflexivity|].
    split; vm_compute; reflexivity.
Qed.

(** The key of the cache-aside manager joins its parts with [":"], so two
    different (organization, code) pairs can share a key: after
    organization ["o:x"] has looked up its template ["y"], the lookup of
    code ["x:y"] by organization ["o"] is answered from the cache with the
    record of ["o:x"]. *)
Lemma cache_aside_key_collision :
  let rows := [Models.mkTemplate 1 (T "y") (T "email") (T "S") (T "C") []
                 (Some (T "o:x")) (T "en") 1 true Models.active None None
                 (T "system") 0] in
  let r1 := snd (CacheAside.get_template (CacheAside.mkRedis true []) rows
                   (T "y") (T "en") (Some (T "o:x")) true) in
  exists d,
    fst (CacheAside.get_template r1 rows (T "x:y") (T "en") (Some (T "o")) true)
    = Some d /\
    d_organization_id d = Some (T "o:x").
Proof.
  cbv zeta. eexists. split; vm_compute; reflexivity.
Qed.

(** ** Default uniqueness *)

Lemma text_eqb_eq : forall a b, text_eqb a b = true <-> a = b.
Proof.
  intros a b. unfold text_eqb.
  destruct (list_eq_dec ascii_dec a b); split; congruence.
Qed.

Lemma text_eqb_refl : forall a, text_eqb a a = true.
Proof. intros a. apply text_eqb_eq. reflexivity. Qed.

Lemma conflict_sym :
  forall a b, Models.conflict a b = Models.conflict b a.
Proof.
  assert (Ht : forall x y, text_eqb x y = text_eqb y x).
  { intros x y. destruct (text_eqb x y) eqn:E.
    - apply text_eqb_eq in E. subst. symmetry. apply text_eqb_refl.
    - destruct (text_eqb y x) eqn:E'; [|reflexivity].
      apply text_eqb_eq in E'. subst. rewrite text_eqb_refl in E.
      discriminate. }
  assert (Hf : forall x y, Models.fk_eqb x y = Models.fk_eqb y x)
    by (intros [x|] [y|]; simpl; auto).
  intros a b.
  unfold Models.conflict, Models.same_code_version, Models.same_code_default.
  rewrite (Nat.eqb_sym (Models.id a)), (Ht (Models.code a)),
    (Ht (Models.language a)), (Z.eqb_sym (Models.version a)),
    (Hf (Models.organization a)).
  destruct (Models.is_default a), (Models.is_default b); reflexivity.
Qed.

(** Two rows of a table that satisfies the constraints do not conflict,
    unless they are the same row. *)
Lemma constraints_ok_no_conflict :
  forall rows a b,
    Models.constraints_ok rows = true -> In a rows -> In b rows ->
    Models.conflict a b = true -> a = b.
Proof.
  induction rows as [|r rows IH]; intros a b Hok Ha Hb Hc; [destruct Ha|].
  simpl in Hok. apply andb_prop in Hok. destruct Hok as [Hall Hok].
  rewrite forallb_forall in Hall.
  destruct Ha as [<-|Ha], Hb as [<-|Hb]; auto.
  - specialize (Hall b Hb). rewrite Hc in Hall. discriminate.
  - specialize (Hall a Ha). rewrite conflict_sym, Hc in Hall. discriminate.
Qed.

(** What the second key of [unique_together] does: in a group there is at
    most one version with [is_default = True] and at most one with
    [is_default = False]. *)
Lemma unique_together_one_per_flag :
  forall rows a b org,
    Models.constraints_ok rows = true -> In a rows -> In b rows ->
    Models.code a = Models.code b ->
    Models.language a = Models.language b ->
    Models.organization a = Some org -> Models.organization b = Some org ->
    Models.is_default a = Models.is_default b ->
    a = b.
Proof.
  intros rows a b org Hok Ha Hb Hc Hl Hoa Hob Hd.
  apply (constraints_ok_no_conflict rows); auto.
  unfold Models.conflict, Models.same_code_default.
  rewrite Hc, Hl, Hd, Hoa, Hob. simpl.
  rewrite !text_eqb_refl, Bool.eqb_reflx. simpl.
  apply orb_true_r.
Qed.

(** C5. [Meta.unique_together] lists
    [['code', 'language', 'is_default', 'organization']]: the key holds
    [is_default] itself, so it also forbids two versions of a group with
    [is_default = False]. With version 1 active and default and version 2 a
    draft, the table satisfies the constraints; a second draft cannot be
    saved, and [activate] on version 2 fails: its first statement clears
    [is_default] on version 1, which then has the key of version 2, the
    database raises [IntegrityError] and the transaction is rolled back. *)
Theorem unique_together_blocks_activate :
  let v1 := Sample.row 1 Sample.org_a (T "en") 1 true Models.active in
  let v2 := Sample.row 2 Sample.org_a (T "en") 2 false Models.draft in
  let v3 := Sample.row 3 Sample.org_a (T "en") 3 false Models.draft in
  Models.constraints_ok [v1; v2] = true /\
  Models.save [v1; v2] v3 = Err Models.IntegrityError /\
  Models.activate [v1; v2] v2 100 (T "system")
  = (Err Models.IntegrityError, [v1; v2], v2).
Proof.
  cbv zeta. repeat split; vm_compute; reflexivity.
Qed.

(** Where nothing stands in its way, [activate] does move the flag: a
    single draft becomes the active default. *)
Lemma activate_single_draft :
  let v1 := Sample.row 1 Sample.org_a (T "en") 1 false Models.draft in
  exists rows' self',
    Models.activate [v1] v1 100 (T "system") = (Ok true, rows', self') /\
    rows' = [self'] /\ Models.is_default self' = true /\
    Models.status self' = Models.active.
Proof.
  cbv zeta. eexists. eexists. split; [vm_compute; reflexivity|].
  repeat split; reflexivity.
Qed.

(** ** Circuit breaker *)

Section Breaker.
Import RedisClient.

(** C6, as stated, fails: with five errors recorded and the client marked
    disconnected, a call on a server that is still down sends a ping. *)
Lemma open_client_still_pings :
  ~ Spec.fails_fast (fun _ => Raises ConnectionError)
      (mkClient false 5 true 0 0).
Proof.
  intros H. destruct H as [_ H]; simpl; auto.
  vm_compute in H. discriminate H.
Qed.

(** A probe that succeeds does not reset the counter. *)
Lemma probe_keeps_counter :
  get_connection (fun _ => PONG) (mkClient false 5 true 0 0)
  = (Ok tt, mkClient true 5 true 2 0).
Proof. reflexivity. Qed.

Lemma handle_connection_error_counts :
  forall c,
    _connection_errors (_handle_connection_error c)
    = S (_connection_errors c) /\
    (5 <= S (_connection_errors c) ->
     _is_connected (_handle_connection_error c) = false).
Proof.
  intros c. split; [reflexivity|]. intros H. simpl.
  destruct (_connection_errors c) as [|[|[|[|n]]]]; try lia; reflexivity.
Qed.

(** C6, amended. The client counts connection errors:
    [_handle_connection_error] adds one, marks the client disconnected
    from the fifth error on, and leaves the flag as it is below that. A
    disconnected client does not fail fast: every [get_connection] first
    re-initializes, which sends a fresh ping. When that probe fails the
    call raises [RedisConnectionError], is not retried, and the client
    stays disconnected; when the probe and the check-out ping succeed, the
    client is connected again and the call returns a connection. *)
Theorem disconnected_client_probes :
  forall server c,
    _connection_errors (_handle_connection_error c)
    = S (_connection_errors c) /\
    (5 <= S (_connection_errors c) ->
     _is_connected (_handle_connection_error c) = false) /\
    (S (_connection_errors c) < 5 ->
     _is_connected (_handle_connection_error c) = _is_connected c) /\
    (_is_connected c = false ->
     forall e, server (pings c) = Raises e ->
       (exists msg,
           fst (get_connection server c) = Err (RedisConnectionError msg)) /\
       _is_connected (snd (get_connection server c)) = false /\
       pings (snd (get_connection server c)) = S (pings c) /\
       waits (snd (get_connection server c)) = waits c) /\
    (_is_connected c = false ->
     server (pings c) = PONG -> server (S (pings c)) = PONG ->
       fst (get_connection server c) = Ok tt /\
       _is_connected (snd (get_connection server c)) = true /\
       pings (snd (get_connection server c)) = S (S (pings c))).
Proof.
  intros server c.
  destruct (handle_connection_error_counts c) as [H1 H2].
  split; [exact H1|]. split; [exact H2|]. split; [|split].
  - intros Hlt. unfold _handle_connection_error. cbn [_is_connected].
    replace (5 <=? S (_connection_errors c)) with false
      by (symmetry; apply Nat.leb_gt; exact Hlt).
    reflexivity.
  - intros Hd e He. unfold get_connection. simpl.
    unfold get_connection_body. rewrite Hd. unfold _initialize.
    rewrite He. simpl. split; [eexists; reflexivity|auto].
  - intros Hd Hp1 Hp2. unfold get_connection. simpl.
    unfold get_connection_body. rewrite Hd. unfold _initialize.
    rewrite Hp1. simpl. rewrite Hp2. simpl. auto.
Qed.

Lemma disconnected_client_probes_witness :
  (exists msg,
      fst (get_connection (fun _ => Raises TimeoutError)
             (mkClient false 5 true 0 0))
      = Err (RedisConnectionError msg)) /\
  pings (snd (get_connection (fun _ => Raises TimeoutError)
                (mkClient false 5 true 0 0))) = 1.
Proof.
  pose proof (@disconnected_client_probes (fun _ => Raises TimeoutError)
                (mkClient false 5 true 0 0)) as H.
  destruct H as (_ & _ & _ & H & _).
  destruct (H eq_refl TimeoutError eq_refl) as (Ha & _ & Hb & _).
  split; [exact Ha|exact Hb].
Defined.

End Breaker.

(** ** The fallback of get_active_template *)

Section Fallback.
Import Models.

Lemma insert_by_version_head_max :
  forall r sorted,
    (forall h tl, sorted = h :: tl ->
                  forall x, In x sorted -> (version x <= version h)%Z) ->
    forall h tl, insert_by_version r sorted = h :: tl ->
                 forall x, In x (insert_by_version r sorted) ->
                           (version x <= version h)%Z.
Proof.
  intros r [|r' sorted] Hmax h tl Heq x Hin; simpl in *.
  - inversion Heq; subst. destruct Hin as [<-|[]]. lia.
  - specialize (Hmax r' sorted eq_refl).
    destruct (Z.ltb (version r) (version r')) eqn:E.
    + apply Z.ltb_lt in E. inversion Heq; subst.
      destruct Hin as [<-|Hin]; [lia|].
      apply insert_by_version_In in Hin. destruct Hin as [->|Hin]; [lia|].
      apply Hmax. simpl; auto.
    + apply Z.ltb_ge in E. inversion Heq; subst.
      destruct Hin as [<-|Hin]; [lia|].
      specialize (Hmax x Hin). lia.
Qed.

Lemma order_by_version_desc_head_max :
  forall rows h tl,
    order_by_version_desc rows = h :: tl ->
    forall x, In x (order_by_version_desc rows) -> (version x <= version h)%Z.
Proof.
  induction rows as [|r rows IH]; simpl; [discriminate|].
  apply insert_by_version_head_max. exact IH.
Qed.

(** [first()] of a query set ordered by [-version] has the highest
    version of the set. *)
Lemma first_max :
  forall rows t,
    first rows = Some t ->
    forall r, In r rows -> (version r <= version t)%Z.
Proof.
  intros rows t H r Hin. unfold first in H.
  destruct (order_by_version_desc rows) as [|h tl] eqn:E; [discriminate|].
  simpl in H. inversion H; subst.
  eapply order_by_version_desc_head_max; [exact E|].
  rewrite E. rewrite <- E. apply order_by_version_desc_In. exact Hin.
Qed.

(** C10, as stated, fails: an organization with no active template of
    that code gets absent. *)
Lemma no_candidate_is_absent :
  ~ Spec.never_absent
      [Sample.row 1 Sample.org_a (T "de") 1 false draft]
      (T "welcome") (T "fr") Sample.org_a.
Proof.
  intros H. destruct H as (t & Ht); try reflexivity.
  vm_compute in Ht. discriminate Ht.
Qed.

(** C10, amended. When there is no active default for the language asked
    for nor for English, [get_active_template] goes on to a third query:
    if the organization has an active template of that code, in whatever
    language and whether default or not, it returns one of them with the
    highest version; it returns absent only when there is none. *)
Theorem get_active_template_last_resort :
  forall rows code_ language_ org,
    org <> [] ->
    active_default rows code_ language_ org = None ->
    active_default rows code_ (T "en") org = None ->
    (forall r, In r rows -> Spec.candidate code_ org r = true ->
       exists t,
         get_active_template rows code_ language_ (Some org) = Ok (Some t) /\
         In t rows /\ Spec.candidate code_ org t = true /\
         (forall r', In r' rows -> Spec.candidate code_ org r' = true ->
                     (version r' <= version t)%Z)) /\
    ((forall r, In r rows -> Spec.candidate code_ org r = false) ->
     get_active_template rows code_ language_ (Some org) = Ok None).
Proof.
  intros rows code_ language_ org Horg H1 H2.
  assert (Hget : get_active_template rows code_ language_ (Some org)
                 = Ok (first (filter (Spec.candidate code_ org) rows))).
  { unfold get_active_template. destruct org as [|c org]; [congruence|].
    rewrite H1, H2. destruct (negb _); reflexivity. }
  split.
  - intros r Hin Hc.
    destruct (first (filter (Spec.candidate code_ org) rows)) as [t|] eqn:E.
    + exists t. split; [rewrite Hget; reflexivity|].
      pose proof (first_In _ E) as Ht. apply filter_In in Ht.
      destruct Ht as [Ht1 Ht2]. repeat split; auto.
      intros r' Hin' Hc'. eapply first_max; [exact E|].
      apply filter_In. auto.
    + apply first_None in E.
      assert (Hf : In r (filter (Spec.candidate code_ org) rows))
        by (apply filter_In; auto).
      rewrite E in Hf. destruct Hf.
  - intros Hnone. rewrite Hget.
    destruct (first (filter (Spec.candidate code_ org) rows)) as [t|] eqn:E;
      [|reflexivity].
    apply first_In in E. apply filter_In in E. destruct E as [Hin Hc].
    rewrite (Hnone t Hin) in Hc. discriminate.
Qed.

(** A request for French, with no French and no English default: the
    answer is the German version 3, which is not a default. *)
Lemma get_active_template_last_resort_witness :
  let rows := [Sample.row 1 Sample.org_a (T "de") 1 true active;
               Sample.row 2 Sample.org_a (T "it") 3 false active;
               Sample.row 3 Sample.org_b (T "fr") 9 true active] in
  exists t,
    get_active_template rows (T "welcome") (T "fr") (Some Sample.org_a)
    = Ok (Some t) /\
    In t rows /\ Spec.candidate (T "welcome") Sample.org_a t = true /\
    (forall r', In r' rows ->
                Spec.candidate (T "welcome") Sample.org_a r' = true ->
                (version r' <= version t)%Z).
Proof.
  cbv zeta.
  refine (proj1 (@get_active_template_last_resort _ (T "welcome") (T "fr")
                   Sample.org_a _ _ _)
                (Sample.row 2 Sample.org_a (T "it") 3 false active) _ _).
  - discriminate.
  - vm_compute. reflexivity.
  - vm_compute. reflexivity.
  - simpl. auto.
  - vm_compute. reflexivity.
Defined.

Lemma last_resort_example :
  get_active_template
    [Sample.row 1 Sample.org_a (T "de") 1 true active;
     Sample.row 2 Sample.org_a (T "it") 3 false active;
     Sample.row 3 Sample.org_b (T "fr") 9 true active]
    (T "welcome") (T "fr") (Some Sample.org_a)
  = Ok (Some (Sample.row 2 Sample.org_a (T "it") 3 false active)).
Proof. vm_compute. reflexivity. Qed.

End Fallback.

(** ** archive *)

Section Archive.
Import Models.

Lemma conflict_same_keys :
  forall a a' b b',
    Spec.same_keys a a' -> Spec.same_keys b b' -> conflict a b = conflict a' b'.
Proof.
  intros a a' b b' (Ha1 & Ha2 & Ha3 & Ha4 & Ha5 & Ha6)
         (Hb1 & Hb2 & Hb3 & Hb4 & Hb5 & Hb6).
  unfold conflict, same_code_version, same_code_default.
  rewrite Ha1, Ha2, Ha3, Ha4, Ha5, Ha6, Hb1, Hb2, Hb3, Hb4, Hb5, Hb6.
  reflexivity.
Qed.

(** A statement that changes no key column keeps the constraints. *)
Lemma constraints_ok_map :
  forall (g : Template -> Template) rows,
    (forall r, In r rows -> Spec.same_keys r (g r)) ->
    constraints_ok (map g rows) = constraints_ok rows.
Proof.
  intros g rows. induction rows as [|r rows IH]; intros Hk; [reflexivity|].
  simpl. rewrite IH by (intros; apply Hk; simpl; auto). f_equal.
  assert (Hr : Spec.same_keys r (g r)) by (apply Hk; simpl; auto).
  assert (Htl : forall r', In r' rows -> Spec.same_keys r' (g r'))
    by (intros; apply Hk; simpl; auto).
  clear IH Hk. induction rows as [|r' rows IH]; [reflexivity|].
  simpl. rewrite IH by (intros; apply Htl; simpl; auto). f_equal. f_equal.
  symmetry. apply conflict_same_keys; [exact Hr|apply Htl; simpl; auto].
Qed.

Lemma conflict_same_id : forall a b, id a = id b -> conflict a b = true.
Proof.
  intros a b H. unfold conflict. rewrite H, Nat.eqb_refl. reflexivity.
Qed.

(** The primary key identifies the row. *)
Lemma constraints_ok_id_inj :
  forall rows a b,
    constraints_ok rows = true -> In a rows -> In b rows ->
    id a = id b -> a = b.
Proof.
  induction rows as [|r rows IH]; intros a b Hok Ha Hb Hid; [destruct Ha|].
  simpl in Hok. apply andb_prop in Hok. destruct Hok as [Hall Hok].
  rewrite forallb_forall in Hall.
  destruct Ha as [<-|Ha], Hb as [<-|Hb]; auto.
  - specialize (Hall b Hb). rewrite (conflict_same_id _ _ Hid) in Hall.
    discriminate.
  - specialize (Hall a Ha).
    rewrite (conflict_same_id r a (eq_sym Hid)) in Hall. discriminate.
Qed.

(** C9, as stated, fails: a version that is archived already and is not
    the default is left as it is, [deactivated_at] included, and the call
    returns [False]. *)
Lemma archive_twice_is_a_no_op :
  let a := mkTemplate 1 (T "welcome") (T "email") (T "S") (T "C") []
             (Some Sample.org_a) (T "en") 1 false archived None (Some 5%Z)
             (T "system") 0 in
  ~ Spec.archive_as_stated [a] a 100 (T "system").
Proof.
  cbv zeta. intros [_ H].
  destruct H as (rows' & self' & Heq & _); [right; reflexivity|].
  vm_compute in Heq. discriminate Heq.
Qed.

(** The default cannot be archived even when another active version
    exists: the other version has [is_default = False], and so has the
    archived row after the change, which [unique_together] refuses. *)
Lemma archive_default_hits_unique_together :
  let v1 := Sample.row 1 Sample.org_a (T "en") 1 true active in
  let v2 := Sample.row 2 Sample.org_a (T "en") 2 false active in
  constraints_ok [v1; v2] = true /\
  Spec.other_active [v1; v2] v1 = true /\
  fst (fst (archive [v1; v2] v1 100 (T "system"))) = Err IntegrityError /\
  snd (fst (archive [v1; v2] v1 100 (T "system"))) = [v1; v2].
Proof.
  cbv zeta. repeat split; vm_compute; reflexivity.
Qed.

(** C9, amended. A version that is archived already is left untouched
    and [archive] returns [False]; a version without organization is
    refused with [ValidationError]. For a version that is not archived and
    belongs to an organization: if it is the default and the group has no
    other active version, [archive] raises [ValidationError] and leaves the
    table and the record as they are; if it is not the default and is a
    row of the table, [archive] succeeds, sets status to archived,
    is_default to false and deactivated_at to the current time, and writes
    the row. *)
Theorem archive_guarded :
  forall rows self now by_,
    (status self = archived ->
     archive rows self now by_ = (Ok false, rows, self)) /\
    (status self <> archived -> organization self = None ->
     exists msg,
       archive rows self now by_ = (Err (ValidationError msg), rows, self)) /\
    (status self <> archived ->
     forall org, organization self = Some org ->
       is_default self = true -> Spec.other_active rows self = false ->
       exists msg,
         archive rows self now by_
         = (Err (ValidationError msg), rows, self)) /\
    (status self <> archived ->
     forall org, organization self = Some org ->
       is_default self = false ->
       constraints_ok rows = true -> In self rows ->
       exists rows' self',
         archive rows self now by_ = (Ok true, rows', self') /\
         Spec.archived_now self self' now /\
         In self' rows' /\
         rows' = map (fun r => if Nat.eqb (id r) (id self) then self' else r)
                     rows).
Proof.
  intros rows self now by_.
  assert (Hs : status self <> archived ->
               status_eqb (status self) archived = false)
    by (destruct (status self); try reflexivity; congruence).
  split; [|split; [|split]].
  - intros Hst. unfold archive. rewrite Hst. reflexivity.
  - intros Hst Horg. unfold archive. rewrite (Hs Hst), Horg.
    eexists. reflexivity.
  - intros Hst org Horg Hd Hoa. unfold archive. rewrite (Hs Hst), Horg.
    unfold Spec.other_active in Hoa. rewrite Hoa, Hd. simpl.
    eexists. reflexivity.
  - intros Hst org Horg Hd Hok Hin. unfold archive.
    rewrite (Hs Hst), Horg, Hd. simpl.
    set (self' := mkTemplate (id self) (code self) (template_type self)
                    (subject self) (content self) (html_content self)
                    (Some org) (language self) (version self)
                    false archived (published_at self) (Some now) by_
                    (usage_count self)).
    unfold save.
    assert (Hex : existsb (fun r => Nat.eqb (id r) (id self')) rows = true).
    { apply existsb_exists. exists self. split; [exact Hin|].
      apply Nat.eqb_refl. }
    rewrite Hex. unfold checked.
    rewrite constraints_ok_map.
    + rewrite Hok. eexists. eexists. split; [reflexivity|].
      split; [repeat split|]. split; [|reflexivity].
      apply in_map_iff. exists self. split; [|exact Hin].
      simpl. rewrite Nat.eqb_refl. reflexivity.
    + intros r Hr. simpl.
      destruct (Nat.eqb (id r) (id self)) eqn:E.
      * apply Nat.eqb_eq in E.
        assert (r = self) by (eapply constraints_ok_id_inj; eauto).
        subst r. unfold Spec.same_keys. simpl. rewrite Hd, Horg.
        repeat split.
      * unfold Spec.same_keys. repeat split.
Qed.

Lemma archive_guarded_witness :
  let v1 := Sample.row 1 Sample.org_a (T "en") 1 true active in
  let v2 := Sample.row 2 Sample.org_a (T "en") 2 false draft in
  (exists msg,
      archive [v1] v1 100 (T "system")
      = (Err (ValidationError msg), [v1], v1)) /\
  (exists rows' self',
      archive [v1; v2] v2 100 (T "system") = (Ok true, rows', self') /\
      Spec.archived_now v2 self' 100 /\
      In self' rows' /\
      rows' = map (fun r => if Nat.eqb (id r) (id v2) then self' else r)
                  [v1; v2]).
Proof.
  cbv zeta. split.
  - refine (proj1 (proj2 (proj2
              (@archive_guarded
                 [Sample.row 1 Sample.org_a (T "en") 1 true active]
                 (Sample.row 1 Sample.org_a (T "en") 1 true active)
                 100 (T "system")))) _ Sample.org_a _ _ _);
      try reflexivity; discriminate.
  - refine (proj2 (proj2 (proj2
              (@archive_guarded
                 [Sample.row 1 Sample.org_a (T "en") 1 true active;
                  Sample.row 2 Sample.org_a (T "en") 2 false draft]
                 (Sample.row 2 Sample.org_a (T "en") 2 false draft)
                 100 (T "system")))) _ Sample.org_a _ _ _ _);
      try reflexivity; try (simpl; auto; fail); discriminate.
Defined.

End Archive.

(** ** The regular expressions *)

Section RegexFacts.
Import Re.

Lemma starts_with_spec :
  forall p s r, starts_with p s = Some r <-> s = p ++ r.
Proof.
  induction p as [|a p IH]; intros s r; simpl.
  - split; [intros H; inversion H; reflexivity|intros ->; reflexivity].
  - destruct s as [|b s]; [split; discriminate|].
    destruct (Ascii.eqb a b) eqn:E.
    + apply Ascii.eqb_eq in E. subst b. rewrite IH.
      split; [intros ->; reflexivity|intros H; inversion H; reflexivity].
    + apply Ascii.eqb_neq in E.
      split; [discriminate|intros H; inversion H; congruence].
Qed.

Lemma starts_with_app : forall p r, starts_with p (p ++ r) = Some r.
Proof. intros. apply starts_with_spec. reflexivity. Qed.

Lemma starts_with_Some_app :
  forall p s r x, starts_with p s = Some r -> starts_with p (s ++ x) = Some (r ++ x).
Proof.
  intros p s r x H. apply starts_with_spec in H. subst s.
  rewrite <- app_assoc. apply starts_with_app.
Qed.

(** A text at least as long as the literal decides the match. *)
Lemma starts_with_None_long :
  forall p s x,
    starts_with p s = None -> length p <= length s ->
    starts_with p (s ++ x) = None.
Proof.
  induction p as [|a p IH]; intros s x H Hl; simpl in *; [discriminate|].
  destruct s as [|b s]; simpl in *; [lia|].
  destruct (Ascii.eqb a b); [|reflexivity].
  apply IH; [exact H|lia].
Qed.

(** A shorter text leaves the rest of the literal to what follows. *)
Lemma starts_with_short :
  forall p s x,
    length s < length p ->
    starts_with p (s ++ x) = None \/
    starts_with p (s ++ x) = starts_with (skipn (length s) p) x.
Proof.
  induction p as [|a p IH]; intros s x Hl; simpl in *; [lia|].
  destruct s as [|b s]; simpl in *; [right; reflexivity|].
  destruct (Ascii.eqb a b); [|left; reflexivity].
  apply IH. lia.
Qed.

Lemma starts_with_before :
  forall p s r,
    unbordered p -> s <> [] -> starts_with p s = None ->
    starts_with p (s ++ p ++ r) = None.
Proof.
  intros p s r Hu Hs Hn.
  destruct (Nat.le_gt_cases (length p) (length s)) as [Hl|Hl].
  - apply starts_with_None_long; assumption.
  - destruct (starts_with_short p s (p ++ r) Hl) as [H|H]; [exact H|].
    rewrite H. apply starts_with_None_long.
    + apply Hu; [destruct s; [congruence|simpl; lia]|exact Hl].
    + rewrite length_skipn. lia.
Qed.

Lemma find_sub_None_cons :
  forall p c s,
    find_sub p (c :: s) = None ->
    starts_with p (c :: s) = None /\ find_sub p s = None.
Proof.
  intros p c s H. simpl in H.
  destruct p as [|a p].
  - simpl in H. discriminate.
  - simpl in H. simpl. destruct (Ascii.eqb a c).
    + destruct (starts_with p s); [discriminate|].
      destruct (find_sub (a :: p) s) as [[? ?]|]; [discriminate|auto].
    + destruct (find_sub (a :: p) s) as [[? ?]|]; [discriminate|auto].
Qed.

Lemma occurs_false_cons :
  forall p c s,
    occurs p (c :: s) = false ->
    starts_with p (c :: s) = None /\ occurs p s = false.
Proof.
  intros p c s H. unfold occurs in *.
  destruct (find_sub p (c :: s)) eqn:E; [discriminate|].
  apply find_sub_None_cons in E. destruct E as [E1 E2].
  rewrite E2. auto.
Qed.

Lemma find_sub_unfold :
  forall p s,
    find_sub p s
    = match starts_with p s with
      | Some r => Some ([], r)
      | None =>
          match s with
          | [] => None
          | c :: s' =>
              match find_sub p s' with
              | Some (b, r) => Some (c :: b, r)
              | None => None
              end
          end
      end.
Proof. intros p s. destruct s; reflexivity. Qed.

(** The lazy group ends at the first occurrence of the closing literal. *)
Lemma find_sub_first :
  forall p b r,
    unbordered p -> occurs p b = false ->
    find_sub p (b ++ p ++ r) = Some (b, r).
Proof.
  intros p b r Hu. induction b as [|c b IH]; intros Ho.
  - simpl app. rewrite find_sub_unfold, starts_with_app. reflexivity.
  - apply occurs_false_cons in Ho. destruct Ho as [Hs Ho].
    rewrite find_sub_unfold.
    change ((c :: b) ++ p ++ r) with (c :: (b ++ p ++ r)).
    replace (starts_with p (c :: b ++ p ++ r)) with (@None text)
      by (symmetry; apply (@starts_with_before p (c :: b) r Hu);
          [discriminate|exact Hs]).
    rewrite (IH Ho). reflexivity.
Qed.

Lemma span_word_stops :
  forall w r,
    forallb is_word w = true -> stops r = true ->
    span_word (w ++ r) = (w, r).
Proof.
  induction w as [|c w IH]; intros r Hw Hr; simpl in *.
  - destruct r as [|c r]; [reflexivity|]. simpl in Hr |- *.
    destruct (is_word c); [discriminate|reflexivity].
  - apply andb_prop in Hw. destruct Hw as [Hc Hw].
    rewrite Hc, (IH r Hw Hr). reflexivity.
Qed.

Lemma span_word_app_stops :
  forall s x,
    stops x = true ->
    span_word (s ++ x) = (fst (span_word s), snd (span_word s) ++ x).
Proof.
  induction s as [|c s IH]; intros x Hx; simpl.
  - destruct x as [|c x]; [reflexivity|]. simpl in Hx |- *.
    destruct (is_word c); [discriminate|reflexivity].
  - destruct (is_word c); [|reflexivity].
    rewrite (IH x Hx). destruct (span_word s). reflexivity.
Qed.

Lemma span_word_spec :
  forall s w r, span_word s = (w, r) -> s = w ++ r.
Proof.
  induction s as [|c s IH]; intros w r H; simpl in H.
  - inversion H. reflexivity.
  - destruct (is_word c).
    + destruct (span_word s) as [w' r'] eqn:E. inversion H; subst.
      simpl. f_equal. apply IH. reflexivity.
    + inversion H. reflexivity.
Qed.

Lemma find_sub_spec :
  forall p s b r, find_sub p s = Some (b, r) -> s = b ++ p ++ r.
Proof.
  intros p s. induction s as [|c s IH]; intros b r H;
    rewrite find_sub_unfold in H.
  - destruct (starts_with p []) eqn:E; [|discriminate].
    inversion H; subst. apply starts_with_spec in E. exact E.
  - destruct (starts_with p (c :: s)) eqn:E.
    + inversion H; subst. apply starts_with_spec in E. exact E.
    + destruct (find_sub p s) as [[b' r']|] eqn:E'; [|discriminate].
      inversion H; subst. simpl. f_equal. apply IH. reflexivity.
Qed.

(** *** The scan *)

Lemma sound_shorter :
  forall p, sound p ->
  forall s m rest, p s = Some (m, rest) -> length rest < length s.
Proof.
  intros p Hp s m rest H. destruct (Hp s m rest H) as [-> Hne].
  rewrite length_app. destruct (group0 m); [congruence|simpl; lia].
Qed.

Lemma scan_fuel_enough :
  forall p, sound p ->
  forall n n' s, length s <= n -> length s <= n' ->
                 scan_fuel p n s = scan_fuel p n' s.
Proof.
  intros p Hp. induction n as [|n IH]; intros n' s Hn Hn'.
  - destruct s; [|simpl in Hn; lia]. destruct n'; reflexivity.
  - destruct n' as [|n'].
    + destruct s; [reflexivity|simpl in Hn'; lia].
    + simpl. destruct s as [|c s]; [reflexivity|].
      destruct (p (c :: s)) as [[m rest]|] eqn:E.
      * pose proof (sound_shorter Hp _ E) as Hl. simpl in *.
        f_equal. apply IH; lia.
      * simpl in *. f_equal. apply IH; lia.
Qed.

Lemma scan_nil : forall p, scan p [] = [].
Proof. reflexivity. Qed.

(** The scan, one step at a time *)
Lemma scan_cons :
  forall p, sound p ->
  forall c s,
    scan p (c :: s)
    = match p (c :: s) with
      | Some (m, rest) => Match m :: scan p rest
      | None => Lit c :: scan p s
      end.
Proof.
  intros p Hp c s. unfold scan. simpl.
  destruct (p (c :: s)) as [[m rest]|] eqn:E.
  - pose proof (sound_shorter Hp _ E) as Hl. simpl in Hl.
    f_equal. apply scan_fuel_enough; [exact Hp|lia|lia].
  - reflexivity.
Qed.

Lemma block_pattern_sound : forall kw, sound (block_pattern kw).
Proof.
  intros kw s m rest H. unfold block_pattern in H.
  destruct (starts_with (block_open kw) s) as [r1|] eqn:E1; [|discriminate].
  destruct (span_word r1) as [name r2] eqn:E2.
  destruct name as [|c name]; [discriminate|].
  destruct (starts_with rbrace2 r2) as [r3|] eqn:E3; [|discriminate].
  destruct (find_sub (block_close kw) r3) as [[body rest']|] eqn:E4;
    [|discriminate].
  inversion H; subst; clear H. cbn [group0].
  apply starts_with_spec in E1. apply span_word_spec in E2.
  apply starts_with_spec in E3. apply find_sub_spec in E4.
  subst. split.
  - unfold block_open, rbrace2. simpl.
    repeat (rewrite <- app_assoc; simpl). reflexivity.
  - unfold block_open. simpl. discriminate.
Qed.

Lemma VARIABLE_PATTERN_sound : sound VARIABLE_PATTERN.
Proof.
  intros s m rest H. unfold VARIABLE_PATTERN in H.
  destruct (starts_with lbrace2 s) as [r1|] eqn:E1; [|discriminate].
  destruct (span_word r1) as [name r2] eqn:E2.
  destruct name as [|c name]; [discriminate|].
  destruct (starts_with rbrace2 r2) as [r3|] eqn:E3; [|discriminate].
  inversion H; subst; clear H. cbn [group0].
  apply starts_with_spec in E1. apply span_word_spec in E2.
  apply starts_with_spec in E3. subst. split.
  - unfold lbrace2, rbrace2. simpl.
    repeat (rewrite <- app_assoc; simpl). reflexivity.
  - simpl. discriminate.
Qed.

End RegexFacts.

(** ** Conditional blocks *)

Section Conditionals.
Import Re TemplateRenderer.

Lemma unbordered_if_open : unbordered (block_open (T "if")).
Proof.
  intros k Hk Hl. simpl in Hl.
  do 6 (destruct k as [|k]; [try lia; reflexivity|]). lia.
Qed.

Lemma unbordered_if_close : unbordered (block_close (T "if")).
Proof.
  intros k Hk Hl. simpl in Hl.
  do 7 (destruct k as [|k]; [try lia; reflexivity|]). lia.
Qed.

Lemma is_name_word :
  forall name, Spec.is_name name = true ->
               name <> [] /\ forallb is_word name = true.
Proof.
  intros [|c name] H; [discriminate|]. split; [discriminate|exact H].
Qed.

(** The pattern matches a block that stands at the head of the text, and
    its lazy body ends at the first ["{{/if}}"]. *)
Lemma CONDITIONAL_PATTERN_block :
  forall name body rest,
    Spec.is_name name = true ->
    occurs (T "{{/if}}") body = false ->
    CONDITIONAL_PATTERN (Spec.if_block name body ++ rest)
    = Some (mk_rmatch name body (Spec.if_block name body), rest).
Proof.
  intros name body rest Hn Hb.
  destruct (is_name_word _ Hn) as [Hne Hw].
  unfold CONDITIONAL_PATTERN, block_pattern, Spec.if_block.
  change (block_open (T "if")) with (T "{{#if ").
  change (block_close (T "if")) with (T "{{/if}}").
  repeat rewrite <- app_assoc.
  rewrite starts_with_app.
  rewrite (span_word_stops name (T "}}" ++ body ++ T "{{/if}}" ++ rest) Hw)
    by reflexivity.
  destruct name as [|c name]; [congruence|].
  unfold rbrace2. rewrite starts_with_app.
  rewrite (@find_sub_first (T "{{/if}}") body rest unbordered_if_close Hb).
  reflexivity.
Qed.

Lemma block_pattern_no_open :
  forall kw s, starts_with (block_open kw) s = None -> block_pattern kw s = None.
Proof. intros kw s H. unfold block_pattern. rewrite H. reflexivity. Qed.

(** Text without ["{{#if "] is passed through, up to the end of the text or
    to the next block. *)
Lemma scan_conditional_literal :
  forall lit x,
    occurs (T "{{#if ") lit = false ->
    x = [] \/ (exists y, x = T "{{#if " ++ y) ->
    scan CONDITIONAL_PATTERN (lit ++ x)
    = map Lit lit ++ scan CONDITIONAL_PATTERN x.
Proof.
  induction lit as [|c lit IH]; intros x Ho Hx; [reflexivity|].
  apply occurs_false_cons in Ho. destruct Ho as [Hs Ho].
  change ((c :: lit) ++ x) with (c :: (lit ++ x)).
  rewrite (scan_cons (@block_pattern_sound (T "if"))).
  assert (Hnone : CONDITIONAL_PATTERN (c :: lit ++ x) = None).
  { apply block_pattern_no_open.
    change (c :: lit ++ x) with ((c :: lit) ++ x).
    destruct Hx as [->|[y ->]].
    - rewrite app_nil_r. exact Hs.
    - apply (@starts_with_before (T "{{#if ") (c :: lit) y unbordered_if_open);
        [discriminate|exact Hs]. }
  unfold CONDITIONAL_PATTERN in *.
  rewrite Hnone. simpl. f_equal. apply IH; assumption.
Qed.

Lemma sub_tokens_app :
  forall repl ts1 ts2,
    sub_tokens repl (ts1 ++ ts2)
    = (fst (sub_tokens repl ts1) ++ fst (sub_tokens repl ts2),
       snd (sub_tokens repl ts1) ++ snd (sub_tokens repl ts2)).
Proof.
  intros repl ts1 ts2. induction ts1 as [|[c|m] ts1 IH]; simpl.
  - destruct (sub_tokens repl ts2); reflexivity.
  - rewrite IH. destruct (sub_tokens repl ts1), (sub_tokens repl ts2).
    reflexivity.
  - rewrite IH. destruct (repl m), (sub_tokens repl ts1), (sub_tokens repl ts2).
    simpl. rewrite <- !app_assoc. reflexivity.
Qed.

Lemma sub_tokens_literal :
  forall repl lit, sub_tokens repl (map Lit lit) = (lit, []).
Proof.
  intros repl lit. induction lit as [|c lit IH]; simpl; [reflexivity|].
  rewrite IH. reflexivity.
Qed.

(** The conditional stage on a text that begins with plain text and a
    block: the plain text, what the block is replaced by, and the stage on
    the rest. *)
Lemma process_conditionals_block :
  forall lit name body rest variables,
    occurs (T "{{#if ") lit = false ->
    Spec.is_name name = true ->
    occurs (T "{{/if}}") body = false ->
    _process_conditionals (lit ++ Spec.if_block name body ++ rest) variables
    = (lit
         ++ fst (replace_conditional variables
                   (mk_rmatch name body (Spec.if_block name body)))
         ++ fst (_process_conditionals rest variables),
       snd (replace_conditional variables
              (mk_rmatch name body (Spec.if_block name body)))
         ++ snd (_process_conditionals rest variables)).
Proof.
  intros lit name body rest variables Hl Hn Hb.
  unfold _process_conditionals.
  rewrite scan_conditional_literal;
    [|exact Hl
     |right; exists (name ++ T "}}" ++ body ++ T "{{/if}}" ++ rest);
      unfold Spec.if_block; repeat rewrite <- app_assoc; reflexivity].
  assert (Hblock :
            scan CONDITIONAL_PATTERN (Spec.if_block name body ++ rest)
            = Match (mk_rmatch name body (Spec.if_block name body))
                :: scan CONDITIONAL_PATTERN rest).
  { pose proof (CONDITIONAL_PATTERN_block name body rest Hn Hb) as Hp.
    unfold Spec.if_block in *. simpl app in *.
    rewrite (scan_cons (@block_pattern_sound (T "if"))).
    unfold CONDITIONAL_PATTERN in *. rewrite Hp. reflexivity. }
  rewrite Hblock. rewrite sub_tokens_app, sub_tokens_literal. simpl.
  destruct (replace_conditional variables _) as [r mv].
  destruct (sub_tokens (replace_conditional variables)
              (scan CONDITIONAL_PATTERN rest)) as [out missing].
  reflexivity.
Qed.

(** *** Only unbound names are recorded as missing *)

Lemma sub_tokens_conditional_unbound :
  forall variables ts n,
    In n (snd (sub_tokens (replace_conditional variables) ts)) ->
    dict_get variables n = None.
Proof.
  intros variables ts n. induction ts as [|[c|m] ts IH]; simpl.
  - intros [].
  - destruct (sub_tokens _ ts); simpl in *. exact IH.
  - unfold replace_conditional at 1.
    destruct (dict_get variables (group1 m)) as [v|] eqn:E.
    + destruct (cond_truthy v); destruct (sub_tokens _ ts); simpl in *;
        exact IH.
    + destruct (sub_tokens _ ts); simpl in *.
      intros [<-|H]; [exact E|apply IH; exact H].
Qed.

Lemma sub_tokens_loop_unbound :
  forall variables ts out missing n,
    sub_tokens_exn (replace_loop variables) ts = Ok (out, missing) ->
    In n missing -> dict_get variables n = None.
Proof.
  intros variables ts. induction ts as [|[c|m] ts IH];
    intros out missing n H Hin; simpl in H.
  - inversion H; subst. destruct Hin.
  - destruct (sub_tokens_exn _ ts) as [[o ms]|]; [|discriminate].
    inversion H; subst. eapply IH; [reflexivity|exact Hin].
  - destruct (replace_loop variables m) as [[r mv]|] eqn:E; [|discriminate].
    destruct (sub_tokens_exn _ ts) as [[o ms]|]; [|discriminate].
    inversion H; subst. apply in_app_or in Hin. destruct Hin as [Hin|Hin].
    + unfold replace_loop in E.
      destruct (dict_get variables (group1 m)) as [v|] eqn:Eg.
      * destruct v; try (inversion E; subst; destruct Hin).
        destruct (loop_items variables (group2 m) l []); inversion E; subst.
        destruct Hin.
      * inversion E; subst. destruct Hin as [<-|[]]. exact Eg.
    + eapply IH; [reflexivity|exact Hin].
Qed.

Lemma collect_unbound :
  forall variables escape_html matches n,
    In n (snd (collect variables escape_html matches)) ->
    dict_get variables n = None.
Proof.
  intros variables escape_html matches n.
  induction matches as [|[sp m] matches IH]; simpl; [intros []|].
  destruct (collect variables escape_html matches) as [rs ms]. simpl in IH.
  destruct (dict_get variables (group1 m)) eqn:E; simpl; [exact IH|].
  intros [<-|H]; [exact E|apply IH; exact H].
Qed.

Lemma render_missing_unbound :
  forall content variables escape_html out missing n,
    render content variables escape_html = Ok (out, missing) ->
    In n missing -> dict_get variables n = None.
Proof.
  intros content variables escape_html out missing n H Hin.
  unfold render in H. destruct content as [|c content].
  - inversion H; subst. destruct Hin.
  - destruct (_process_conditionals (c :: content) variables)
      as [t1 m1] eqn:E1.
    unfold render_after_conditionals in H.
    destruct (_process_loops t1 variables) as [[t2 m2]|] eqn:E2;
      [|discriminate].
    simpl in H. unfold _process_variables in H.
    destruct (collect variables escape_html (finditer VARIABLE_PATTERN t2))
      as [rs m3] eqn:E3.
    inversion H; subst. unfold list_set in Hin. apply nodup_In in Hin.
    apply in_app_or in Hin. destruct Hin as [Hin|Hin].
    + unfold _process_conditionals in E1.
      apply (sub_tokens_conditional_unbound variables
               (scan CONDITIONAL_PATTERN (c :: content))).
      rewrite E1. exact Hin.
    + apply in_app_or in Hin. destruct Hin as [Hin|Hin].
      * eapply sub_tokens_loop_unbound; [exact E2|exact Hin].
      * apply (collect_unbound variables escape_html
                 (finditer VARIABLE_PATTERN t2)).
        rewrite E3. exact Hin.
Qed.

Lemma render_keeps_conditional_missing :
  forall content variables escape_html out missing n,
    render content variables escape_html = Ok (out, missing) ->
    In n (snd (_process_conditionals content variables)) ->
    In n missing.
Proof.
  intros content variables escape_html out missing n H Hin.
  unfold render in H. destruct content as [|c content].
  - destruct Hin.
  - destruct (_process_conditionals (c :: content) variables) as [t1 m1].
    unfold render_after_conditionals in H.
    destruct (_process_loops t1 variables) as [[t2 m2]|]; [|discriminate].
    simpl in H. destruct (_process_variables t2 variables escape_html).
    inversion H; subst. unfold list_set. apply nodup_In.
    apply in_or_app. left. exact Hin.
Qed.

End Conditionals.

(** ** Plain variables *)

Section Variables.
Import Re TemplateRenderer.

Lemma scan_text :
  forall p, sound p -> forall s, text_of_tokens (scan p s) = s.
Proof.
  intros p Hp s.
  assert (H : forall n s, length s <= n -> text_of_tokens (scan p s) = s).
  { induction n as [|n IH]; intros s0 Hn.
    - destruct s0; [reflexivity|simpl in Hn; lia].
    - destruct s0 as [|c s0]; [reflexivity|].
      rewrite (scan_cons Hp).
      destruct (p (c :: s0)) as [[m rest]|] eqn:E.
      + pose proof (sound_shorter Hp _ E) as Hl.
        destruct (Hp _ _ _ E) as [Heq _]. simpl.
        rewrite IH by (simpl in *; lia). symmetry. exact Heq.
      + simpl. rewrite IH by (simpl in Hn; lia). reflexivity. }
  apply (H (length s)). lia.
Qed.

Lemma scan_matches_nonempty :
  forall p, sound p ->
  forall s m, In (Match m) (scan p s) -> group0 m <> [].
Proof.
  intros p Hp s.
  assert (H : forall n s, length s <= n ->
                forall m, In (Match m) (scan p s) -> group0 m <> []).
  { induction n as [|n IH]; intros s0 Hn m Hin.
    - destruct s0; [destruct Hin|simpl in Hn; lia].
    - destruct s0 as [|c s0]; [destruct Hin|].
      rewrite (scan_cons Hp) in Hin.
      destruct (p (c :: s0)) as [[m' rest]|] eqn:E.
      + pose proof (sound_shorter Hp _ E) as Hl.
        destruct Hin as [Hin|Hin].
        * inversion Hin; subst. destruct (Hp _ _ _ E) as [_ Hne]. exact Hne.
        * apply (IH rest); [simpl in *; lia|exact Hin].
      + destruct Hin as [Hin|Hin]; [discriminate|].
        apply (IH s0); [simpl in Hn; lia|exact Hin]. }
  apply (H (length s)). lia.
Qed.

Lemma spans_from_ge :
  forall ts pos x, In x (spans_from pos ts) -> pos <= fst (fst x).
Proof.
  induction ts as [|[c|m] ts IH]; intros pos x Hin; simpl in Hin.
  - destruct Hin.
  - apply IH in Hin. lia.
  - destruct Hin as [<-|Hin]; [simpl; lia|].
    apply IH in Hin. lia.
Qed.

Lemma collect_spans :
  forall variables escape_html matches r,
    In r (fst (collect variables escape_html matches)) ->
    exists m, In (fst r, m) matches.
Proof.
  intros variables escape_html matches r.
  induction matches as [|[sp m] matches IH]; simpl; [intros []|].
  destruct (collect variables escape_html matches) as [rs ms]. simpl in IH.
  destruct (dict_get variables (group1 m)); simpl.
  - intros [<-|H]; [exists m; simpl; auto|].
    destruct (IH H) as [m' Hm']. exists m'. auto.
  - intros H. destruct (IH H) as [m' Hm']. exists m'. auto.
Qed.

Lemma insert_desc_In :
  forall r x l, In x (insert_desc r l) <-> x = r \/ In x l.
Proof.
  intros r x l. induction l as [|r' l IH]; simpl; [intuition|].
  destruct (span_ltb (fst r) (fst r')); simpl; rewrite ?IH; intuition.
Qed.

Lemma sorted_reverse_In :
  forall l x, In x (sorted_reverse l) <-> In x l.
Proof.
  induction l as [|r l IH]; intros x; simpl; [reflexivity|].
  rewrite insert_desc_In, IH. intuition.
Qed.

(** A replacement that starts before all the others is applied last. *)
Lemma insert_desc_last :
  forall r l,
    (forall r', In r' l -> span_ltb (fst r) (fst r') = true) ->
    insert_desc r l = l ++ [r].
Proof.
  intros r l. induction l as [|r' l IH]; intros H; simpl; [reflexivity|].
  rewrite (H r') by (simpl; auto). f_equal. apply IH.
  intros x Hx. apply H. simpl; auto.
Qed.

Lemma slice_assign_middle :
  forall pre old tl v,
    slice_assign (pre ++ old ++ tl) (length pre) (length pre + length old) v
    = pre ++ v ++ tl.
Proof.
  intros pre old tl v. unfold slice_assign.
  rewrite firstn_app, firstn_all, Nat.sub_diag. simpl. rewrite app_nil_r.
  f_equal. f_equal.
  rewrite app_assoc, skipn_app.
  rewrite length_app, Nat.sub_diag. simpl.
  rewrite skipn_all2 by (rewrite length_app; lia). reflexivity.
Qed.

(** The replacements applied from the last to the first give the text
    rewritten from left to right. *)
Lemma apply_replacements :
  forall variables escape_html ts pre,
    (forall m, In (Match m) ts -> group0 m <> []) ->
    fold_left
      (fun (result : text) (r : span * text) =>
         slice_assign result (fst (fst r)) (snd (fst r)) (snd r))
      (sorted_reverse
         (fst (collect variables escape_html (spans_from (length pre) ts))))
      (pre ++ text_of_tokens ts)
    = pre ++ fst (sub_tokens (Spec.replace_variable variables escape_html) ts)
    /\
    snd (collect variables escape_html (spans_from (length pre) ts))
    = snd (sub_tokens (Spec.replace_variable variables escape_html) ts).
Proof.
  intros variables escape_html ts.
  induction ts as [|[c|m] ts IH]; intros pre Hne.
  - simpl. rewrite app_nil_r. auto.
  - assert (Hne' : forall m, In (Match m) ts -> group0 m <> [])
      by (intros; apply Hne; simpl; auto).
    destruct (IH (pre ++ [c]) Hne') as [IH1 IH2].
    rewrite length_app in IH1, IH2. simpl in IH1, IH2.
    rewrite Nat.add_1_r in IH1, IH2.
    rewrite <- app_assoc in IH1. simpl in IH1 |- *.
    destruct (sub_tokens (Spec.replace_variable variables escape_html) ts)
      as [out missing].
    simpl in *. rewrite <- app_assoc in IH1. simpl in IH1. auto.
  - assert (Hne' : forall m, In (Match m) ts -> group0 m <> [])
      by (intros; apply Hne; simpl; auto).
    assert (Hm : group0 m <> []) by (apply Hne; simpl; auto).
    destruct (IH (pre ++ group0 m) Hne') as [IH1 IH2].
    rewrite length_app in IH1, IH2.
    rewrite <- app_assoc in IH1.
    simpl spans_from. simpl collect. simpl text_of_tokens. simpl sub_tokens.
    unfold Spec.replace_variable at 1 3.
    remember (collect variables escape_html
                (spans_from (length pre + length (group0 m)) ts)) as cl.
    destruct cl as [repls missing_vars].
    destruct (sub_tokens (Spec.replace_variable variables escape_html) ts)
      as [out missing] eqn:Est.
    simpl in IH1, IH2.
    destruct (dict_get variables (group1 m)) as [value|].
    + simpl. split; [|exact IH2].
      rewrite insert_desc_last.
      * rewrite fold_left_app, IH1. cbn [fold_left fst snd].
        rewrite <- app_assoc. apply slice_assign_middle.
      * intros r' Hr'. apply (proj1 (sorted_reverse_In _ _)) in Hr'.
        assert (Hc : In r' (fst (collect variables escape_html
                     (spans_from (length pre + length (group0 m)) ts))))
          by (rewrite <- Heqcl; exact Hr').
        apply collect_spans in Hc. destruct Hc as [m' Hm'].
        apply spans_from_ge in Hm'. simpl in Hm'.
        unfold span_ltb. simpl.
        assert (0 < length (group0 m))
          by (destruct (group0 m); [congruence|simpl; lia]).
        replace (length pre <? fst (fst r')) with true
          by (symmetry; apply Nat.ltb_lt; lia).
        reflexivity.
    + simpl. split; [|f_equal; exact IH2].
      etransitivity; [exact IH1|]. symmetry. apply app_assoc.
Qed.

(** [_process_variables] is the rewriting from left to right of the
    matches of the variable pattern. *)
Lemma process_variables_left_to_right :
  forall content variables escape_html,
    _process_variables content variables escape_html
    = sub_tokens (Spec.replace_variable variables escape_html)
                 (scan VARIABLE_PATTERN content).
Proof.
  intros content variables escape_html. unfold _process_variables, finditer.
  pose proof (@apply_replacements variables escape_html
                (scan VARIABLE_PATTERN content) []
                (scan_matches_nonempty VARIABLE_PATTERN_sound content))
    as [H1 H2].
  simpl in H1, H2. rewrite (scan_text VARIABLE_PATTERN_sound) in H1.
  destruct (collect variables escape_html
              (spans_from 0 (scan VARIABLE_PATTERN content)))
    as [repls missing_vars].
  simpl in H1, H2. rewrite H1, H2.
  destruct (sub_tokens _ _). reflexivity.
Qed.

End Variables.

(** ** Placeholders of unbound names *)

Section Placeholders.
Import Re TemplateRenderer.

(** The pattern matches a placeholder that stands at the head of the text. *)
Lemma VARIABLE_PATTERN_placeholder :
  forall name post,
    Spec.is_name name = true ->
    VARIABLE_PATTERN (Spec.placeholder name ++ post)
    = Some (mk_rmatch name [] (Spec.placeholder name), post).
Proof.
  intros name post Hn. destruct (is_name_word _ Hn) as [Hne Hw].
  unfold VARIABLE_PATTERN, Spec.placeholder, lbrace2, rbrace2.
  repeat rewrite <- app_assoc. rewrite starts_with_app.
  rewrite (span_word_stops name (T "}}" ++ post) Hw) by reflexivity.
  destruct name as [|c name]; [congruence|].
  rewrite starts_with_app. reflexivity.
Qed.

(** In front of a ["{{"] a match is a match of the text before it: no match
    reaches into the braces that follow. *)
Lemma VARIABLE_PATTERN_app :
  forall s y,
    s <> [] ->
    VARIABLE_PATTERN (s ++ T "{{" ++ y)
    = match VARIABLE_PATTERN s with
      | Some (m, r) => Some (m, r ++ T "{{" ++ y)
      | None => None
      end.
Proof.
  intros s y Hs. unfold VARIABLE_PATTERN, lbrace2, rbrace2.
  destruct (starts_with (T "{{") s) as [r1|] eqn:E1.
  - rewrite (starts_with_Some_app _ _ (T "{{" ++ y) E1).
    rewrite (span_word_app_stops r1 (T "{{" ++ y)) by reflexivity.
    destruct (span_word r1) as [name r2]. simpl fst. simpl snd.
    destruct name as [|c name]; [reflexivity|].
    destruct (starts_with (T "}}") r2) as [r3|] eqn:E3.
    + rewrite (starts_with_Some_app _ _ (T "{{" ++ y) E3). reflexivity.
    + destruct r2 as [|a [|b r2]].
      * reflexivity.
      * destruct (starts_with_short (T "}}") [a] (T "{{" ++ y)) as [H|H];
          [simpl; lia|rewrite H; reflexivity|rewrite H; reflexivity].
      * rewrite starts_with_None_long; [reflexivity|exact E3|simpl; lia].
  - destruct s as [|a [|b s]]; [congruence| |].
    + destruct (starts_with_short (T "{{") [a] (T "{{" ++ y)) as [H|H];
        [simpl; lia|rewrite H; reflexivity|rewrite H; reflexivity].
    + rewrite starts_with_None_long; [reflexivity|exact E1|simpl; lia].
Qed.

Lemma scan_variable_app :
  forall pre y,
    scan VARIABLE_PATTERN (pre ++ T "{{" ++ y)
    = scan VARIABLE_PATTERN pre ++ scan VARIABLE_PATTERN (T "{{" ++ y).
Proof.
  intros pre y.
  assert (H : forall n pre, length pre <= n ->
                scan VARIABLE_PATTERN (pre ++ T "{{" ++ y)
                = scan VARIABLE_PATTERN pre
                    ++ scan VARIABLE_PATTERN (T "{{" ++ y)).
  { induction n as [|n IH]; intros s Hn.
    - destruct s; [reflexivity|simpl in Hn; lia].
    - destruct s as [|c s]; [reflexivity|].
      change ((c :: s) ++ T "{{" ++ y) with (c :: (s ++ T "{{" ++ y)).
      rewrite !(scan_cons VARIABLE_PATTERN_sound).
      change (c :: (s ++ T "{{" ++ y)) with ((c :: s) ++ T "{{" ++ y).
      rewrite VARIABLE_PATTERN_app by discriminate.
      destruct (VARIABLE_PATTERN (c :: s)) as [[m rest]|] eqn:E.
      + pose proof (sound_shorter VARIABLE_PATTERN_sound _ E) as Hl.
        simpl. f_equal. apply IH. simpl in *. lia.
      + simpl. f_equal. apply IH. simpl in Hn. lia. }
  apply (H (length pre)). lia.
Qed.

(** The variable stage around a placeholder of an unbound name *)
Lemma process_variables_placeholder :
  forall pre name post variables escape_html,
    Spec.is_name name = true ->
    dict_get variables name = None ->
    _process_variables (pre ++ Spec.placeholder name ++ post) variables
                       escape_html
    = (fst (_process_variables pre variables escape_html)
         ++ Spec.placeholder name
         ++ fst (_process_variables post variables escape_html),
       snd (_process_variables pre variables escape_html)
         ++ name :: snd (_process_variables post variables escape_html)).
Proof.
  intros pre name post variables escape_html Hn Hv.
  rewrite !process_variables_left_to_right.
  assert (Hsplit :
            scan VARIABLE_PATTERN (pre ++ Spec.placeholder name ++ post)
            = scan VARIABLE_PATTERN pre
                ++ Match (mk_rmatch name [] (Spec.placeholder name))
                :: scan VARIABLE_PATTERN post).
  { pose proof (VARIABLE_PATTERN_placeholder name post Hn) as Hp.
    unfold Spec.placeholder in *. repeat rewrite <- app_assoc in *.
    rewrite scan_variable_app. f_equal.
    simpl app in *. rewrite (scan_cons VARIABLE_PATTERN_sound).
    rewrite Hp. reflexivity. }
  assert (Hrv : Spec.replace_variable variables escape_html
                  (mk_rmatch name [] (Spec.placeholder name))
                = (Spec.placeholder name, [name])).
  { unfold Spec.replace_variable. cbn [group1 group0]. rewrite Hv.
    reflexivity. }
  rewrite Hsplit, sub_tokens_app. cbn [sub_tokens]. rewrite Hrv.
  destruct (sub_tokens (Spec.replace_variable variables escape_html)
              (scan VARIABLE_PATTERN post)) as [o ms].
  cbn [fst snd]. reflexivity.
Qed.

(** *** Texts without block syntax *)

Lemma starts_with_longer :
  forall a b s, starts_with a s = None -> starts_with (a ++ b) s = None.
Proof.
  induction a as [|x a IH]; intros b s H; simpl in *; [discriminate|].
  destruct s as [|y s]; [reflexivity|].
  destruct (Ascii.eqb x y); [apply IH; exact H|reflexivity].
Qed.

Lemma occurs_longer :
  forall a b s, occurs a s = false -> occurs (a ++ b) s = false.
Proof.
  intros a b s. unfold occurs.
  induction s as [|c s IH]; rewrite (find_sub_unfold a), (find_sub_unfold (a ++ b)).
  - destruct (starts_with a []) eqn:E; [discriminate|].
    rewrite (starts_with_longer _ b _ E). reflexivity.
  - destruct (starts_with a (c :: s)) eqn:E; [discriminate|].
    rewrite (starts_with_longer _ b _ E).
    destruct (find_sub a s) as [[? ?]|]; [discriminate|].
    intros _. specialize (IH eq_refl).
    destruct (find_sub (a ++ b) s) as [[? ?]|]; [discriminate|reflexivity].
Qed.

Lemma scan_block_free :
  forall kw s,
    occurs (block_open kw) s = false ->
    scan (block_pattern kw) s = map Lit s.
Proof.
  intros kw s. induction s as [|c s IH]; intros Ho; [reflexivity|].
  apply occurs_false_cons in Ho. destruct Ho as [Hs Ho].
  rewrite (scan_cons (@block_pattern_sound kw)).
  rewrite (block_pattern_no_open _ _ Hs). simpl. f_equal. apply IH. exact Ho.
Qed.

Lemma sub_tokens_exn_literal :
  forall repl lit, sub_tokens_exn repl (map Lit lit) = Ok (lit, []).
Proof.
  intros repl lit. induction lit as [|c lit IH]; simpl; [reflexivity|].
  rewrite IH. reflexivity.
Qed.

(** A text without ["{{#"] passes the conditional and the loop stage
    unchanged. *)
Lemma block_free_stages :
  forall s variables,
    occurs (T "{{#") s = false ->
    _process_conditionals s variables = (s, []) /\
    _process_loops s variables = Ok (s, []).
Proof.
  intros s variables Ho. split.
  - unfold _process_conditionals, CONDITIONAL_PATTERN.
    rewrite scan_block_free; [apply sub_tokens_literal|].
    apply (occurs_longer (T "{{#") (T "if ") s Ho).
  - unfold _process_loops, LOOP_PATTERN.
    rewrite scan_block_free; [apply sub_tokens_exn_literal|].
    apply (occurs_longer (T "{{#") (T "each ") s Ho).
Qed.

(** C7, as stated, fails: a placeholder inside a conditional block that
    is removed goes with the block. [render("{{#if f}}{{name}}{{/if}}",
    {"f": "0"})] is [""] with nothing missing. *)
Lemma placeholder_in_removed_block_is_dropped :
  ~ Spec.unbound_left_verbatim (T "{{#if f}}{{name}}{{/if}}")
      [(T "f", VStr (T "0"))].
Proof.
  intros H.
  destruct (H (T "{{#if f}}") (T "name") (T "{{/if}}")
              eq_refl eq_refl eq_refl) as (out & missing & Hr & _ & Hin).
  vm_compute in Hr. inversion Hr; subst. destruct Hin.
Qed.

(** C7, amended. A placeholder [{{name}}] of a name that is not bound,
    wherever it stands in the text that reaches the plain-variable stage,
    is left as it is: the output is the rendering of what precedes it, the placeholder
    itself, and the rendering of what follows it, and [name] is recorded as
    missing. [render] returns this output, with [name] in its missing set,
    for every template whose conditional and loop stages leave the
    placeholder in the text, and so for every template without block
    syntax. [render("Hi {{name}}", {})] is ["Hi {{name}}"] with missing set
    [{"name"}]. *)
Theorem unbound_placeholder_left_verbatim :
  forall pre name post variables escape_html,
    Spec.is_name name = true ->
    dict_get variables name = None ->
    let before := _process_variables pre variables escape_html in
    let after := _process_variables post variables escape_html in
    let output := fst before ++ Spec.placeholder name ++ fst after in
    _process_variables (pre ++ Spec.placeholder name ++ post) variables
                       escape_html
    = (output, snd before ++ name :: snd after) /\
    (forall content t1 m1 m2,
       _process_conditionals content variables = (t1, m1) ->
       _process_loops t1 variables
       = Ok (pre ++ Spec.placeholder name ++ post, m2) ->
       exists missing,
         render content variables escape_html = Ok (output, missing) /\
         In name missing) /\
    (occurs (T "{{#") (pre ++ Spec.placeholder name ++ post) = false ->
     exists missing,
       render (pre ++ Spec.placeholder name ++ post) variables escape_html
       = Ok (output, missing) /\
       In name missing) /\
    render (T "Hi {{name}}") [] true = Ok (T "Hi {{name}}", [T "name"]).
Proof.
  intros pre name post variables escape_html Hn Hv before after output.
  pose proof (process_variables_placeholder pre name post variables
                escape_html Hn Hv) as Hpv.
  fold before in Hpv. fold after in Hpv. fold output in Hpv.
  assert (Hstaged :
            forall content t1 m1 m2,
              _process_conditionals content variables = (t1, m1) ->
              _process_loops t1 variables
              = Ok (pre ++ Spec.placeholder name ++ post, m2) ->
              exists missing,
                render content variables escape_html = Ok (output, missing) /\
                In name missing).
  { intros content t1 m1 m2 H1 H2.
    destruct content as [|c content].
    - vm_compute in H1. inversion H1; subst. vm_compute in H2.
      inversion H2 as [[H3 H4]]. unfold Spec.placeholder in H3.
      destruct pre; discriminate H3.
    - unfold render. rewrite H1. unfold render_after_conditionals.
      rewrite H2. unfold call__process_variables. rewrite Hpv.
      eexists. split; [reflexivity|].
      unfold list_set. apply nodup_In.
      apply in_or_app. right. apply in_or_app. right.
      apply in_or_app. right. simpl. auto. }
  split; [exact Hpv|]. split; [exact Hstaged|]. split.
  - intros Ho.
    destruct (block_free_stages _ variables Ho) as [H1 H2].
    exact (Hstaged _ _ _ _ H1 H2).
  - vm_compute. reflexivity.
Qed.

Lemma unbound_placeholder_left_verbatim_witness :
  _process_variables (T "Hi " ++ Spec.placeholder (T "name") ++ T "!")
                     [(T "city", VStr (T "Oslo"))] true
  = (T "Hi " ++ Spec.placeholder (T "name") ++ T "!", [T "name"]).
Proof.
  pose proof (@unbound_placeholder_left_verbatim (T "Hi ") (T "name") (T "!")
                [(T "city", VStr (T "Oslo"))] true eq_refl eq_refl) as H.
  cbv zeta in H. destruct H as (H & _). exact H.
Defined.

End Placeholders.

(** ** Conditional blocks *)

Section ConditionalBlocks.
Import Re TemplateRenderer.

(** C8, as stated, fails: blocks do not nest. The pattern ends the outer
    block at the first ["{{/if}}"], so the inner block of
    [{{#if a}}{{#if b}}X{{/if}}Y{{/if}}] is never matched: with [a] bound
    to ["yes"] and [b] unbound the output is [{{#if b}}XY{{/if}}] and [b]
    is not reported. *)
Lemma nested_block_is_not_processed :
  ~ Spec.conditional_blocks_as_stated
      (T "{{#if a}}{{#if b}}X{{/if}}Y{{/if}}") [(T "a", VStr (T "yes"))].
Proof.
  intros H.
  destruct (H (T "{{#if a}}") (T "b") (T "X") (T "Y{{/if}}")
              eq_refl eq_refl) as (_ & _ & Hu).
  destruct (Hu eq_refl) as (out & missing & Hr & _ & Hin).
  vm_compute in Hr. inversion Hr; subst. destruct Hin.
Qed.

(** The test of the conditional stage, value by value *)
Lemma cond_truthy_false :
  forall v, cond_truthy v = false <-> Spec.empty_false_or_zero v.
Proof.
  intros v. unfold Spec.empty_false_or_zero. split.
  - intros H. destruct v as [|b|z|s|l|d].
    + auto.
    + destruct b; [discriminate H|auto].
    + unfold cond_truthy, truthy, in_strs in H.
      change (negb false) with true in H. rewrite andb_true_r in H.
      apply negb_false_iff, Z.eqb_eq in H. subst z. auto.
    + destruct s as [|c s]; [auto 6|].
      unfold cond_truthy, truthy, in_strs in H.
      cbn [existsb andb orb] in H. rewrite orb_false_r in H.
      apply negb_false_iff in H.
      destruct (text_eqb (c :: s) (T "false")) eqn:E1.
      { apply text_eqb_eq in E1. rewrite E1. auto 8. }
      destruct (text_eqb (c :: s) (T "0")) eqn:E2.
      { apply text_eqb_eq in E2. rewrite E2. auto 8. }
      destruct (text_eqb (c :: s) (T "")) eqn:E3.
      { apply text_eqb_eq in E3. discriminate E3. }
      discriminate H.
    + destruct l; [auto 10|discriminate H].
    + destruct d; [auto 10|discriminate H].
  - intros H.
    repeat (destruct H as [H|H]; [subst v; reflexivity|]).
    subst v. reflexivity.
Qed.

(** After the conditional stage, a text without ["{{#"] goes through the
    loop stage unchanged and the variable stage does the rest. *)
Lemma render_after_conditionals_block_free :
  forall t m variables escape_html,
    occurs (T "{{#") t = false ->
    render_after_conditionals t m variables escape_html
    = Ok (fst (_process_variables t variables escape_html),
          list_set (m ++ snd (_process_variables t variables escape_html))).
Proof.
  intros t m variables escape_html Ho.
  destruct (@block_free_stages t variables Ho) as [_ Hl].
  unfold render_after_conditionals. rewrite Hl.
  cbn [call__process_variables].
  destruct (_process_variables t variables escape_html) as [o vm].
  reflexivity.
Qed.

(** C8, amended. Blocks do not nest: the statement is for a conditional
    block [{{#if name}}body{{/if}}] that follows text without ["{{#if "],
    whose [body] has no ["{{/if}}"], and that is followed by any text.
    When [name] is bound to a value other than [None], [False], [0], the
    empty text, list or dictionary, ["false"] and ["0"], the conditional
    stage keeps [body]; when it is bound to one of these, the block is
    removed and no name is recorded; when it is unbound, the block is
    removed and [name] is recorded. The text after the block is treated
    the same way. When no ["{{#"] is left, [render] returns what the
    variable stage makes of the remaining text. In the missing set
    [render] returns, [name] is present when it is unbound and absent when
    it is bound. [render("{{#if flag}}X{{/if}}", {"flag": "0"})] is [""]
    with nothing missing, and with [{"flag": "yes"}] it is ["X"]. *)
Theorem conditional_block_by_truthiness :
  forall lit name body rest variables escape_html,
    occurs (T "{{#if ") lit = false ->
    Spec.is_name name = true ->
    occurs (T "{{/if}}") body = false ->
    let content := lit ++ Spec.if_block name body ++ rest in
    let after := _process_conditionals rest variables in
    let rendered t m :=
      Ok (fst (_process_variables t variables escape_html),
          list_set (m ++ snd (_process_variables t variables escape_html)))
      : result exn (text * list text) in
    (forall v, dict_get variables name = Some v ->
       ~ Spec.empty_false_or_zero v ->
       _process_conditionals content variables
       = (lit ++ body ++ fst after, snd after) /\
       (occurs (T "{{#") (lit ++ body ++ fst after) = false ->
        render content variables escape_html
        = rendered (lit ++ body ++ fst after) (snd after))) /\
    (forall v, dict_get variables name = Some v ->
       Spec.empty_false_or_zero v ->
       _process_conditionals content variables
       = (lit ++ fst after, snd after) /\
       (occurs (T "{{#") (lit ++ fst after) = false ->
        render content variables escape_html
        = rendered (lit ++ fst after) (snd after))) /\
    (dict_get variables name = None ->
       _process_conditionals content variables
       = (lit ++ fst after, name :: snd after) /\
       (occurs (T "{{#") (lit ++ fst after) = false ->
        render content variables escape_html
        = rendered (lit ++ fst after) (name :: snd after))) /\
    (forall out missing,
       render content variables escape_html = Ok (out, missing) ->
       (dict_get variables name = None -> In name missing) /\
       (forall v, dict_get variables name = Some v -> ~ In name missing)) /\
    render (T "{{#if flag}}X{{/if}}") [(T "flag", VStr (T "0"))] true
    = Ok ([], []) /\
    render (T "{{#if flag}}X{{/if}}") [(T "flag", VStr (T "yes"))] true
    = Ok (T "X", []).
Proof.
  intros lit name body rest variables escape_html Hl Hn Hb content after
         rendered.
  pose proof (process_conditionals_block lit name body rest variables Hl Hn Hb)
    as Hpc.
  fold content in Hpc. fold after in Hpc.
  unfold replace_conditional in Hpc. cbn [group1 group2] in Hpc.
  assert (Hrender :
            forall t m,
              _process_conditionals content variables = (t, m) ->
              occurs (T "{{#") t = false ->
              render content variables escape_html = rendered t m).
  { intros t m Hc Ho. unfold render.
    assert (Hne : content <> []).
    { unfold content, Spec.if_block. destruct lit; discriminate. }
    destruct content as [|c content']; [congruence|].
    rewrite Hc. apply render_after_conditionals_block_free. exact Ho. }
  split; [|split; [|split; [|split; [|split]]]].
  - intros v Hv Hk.
    assert (Ht : cond_truthy v = true).
    { destruct (cond_truthy v) eqn:E; [reflexivity|].
      exfalso. apply Hk. apply cond_truthy_false. exact E. }
    assert (Hc : _process_conditionals content variables
                 = (lit ++ body ++ fst after, snd after))
      by (rewrite Hpc, Hv, Ht; reflexivity).
    split; [exact Hc|]. intros Ho. exact (Hrender _ _ Hc Ho).
  - intros v Hv Hk. apply cond_truthy_false in Hk.
    assert (Hc : _process_conditionals content variables
                 = (lit ++ fst after, snd after))
      by (rewrite Hpc, Hv, Hk; reflexivity).
    split; [exact Hc|]. intros Ho. exact (Hrender _ _ Hc Ho).
  - intros Hv.
    assert (Hc : _process_conditionals content variables
                 = (lit ++ fst after, name :: snd after))
      by (rewrite Hpc, Hv; reflexivity).
    split; [exact Hc|]. intros Ho. exact (Hrender _ _ Hc Ho).
  - intros out missing Hr. split.
    + intros Hv. eapply render_keeps_conditional_missing; [exact Hr|].
      rewrite Hpc, Hv. simpl. auto.
    + intros v Hv Hin.
      pose proof (@render_missing_unbound _ _ _ _ _ _ Hr Hin) as Hnone.
      congruence.
  - vm_compute. reflexivity.
  - vm_compute. reflexivity.
Qed.

Lemma conditional_block_by_truthiness_witness :
  render (T "Dear " ++ Spec.if_block (T "vip") (T "valued ") ++ T "customer")
         [(T "vip", VInt 1)] true
  = Ok (T "Dear valued customer", []).
Proof.
  pose proof (@conditional_block_by_truthiness (T "Dear ") (T "vip")
                (T "valued ") (T "customer") [(T "vip", VInt 1)] true
                eq_refl eq_refl eq_refl) as H.
  cbv zeta in H. destruct H as (H & _).
  destruct (H (VInt 1) eq_refl) as [_ Hr].
  - unfold Spec.empty_false_or_zero.
    intros [E|[E|[E|[E|[E|[E|[E|E]]]]]]]; discriminate E.
  - exact (Hr eq_refl).
Defined.

End ConditionalBlocks.

(* ================================================================== *)
(** * Further properties of the code *)

(** ** Key-value stores *)

Section KeyValue.
Variable A : Type.

Lemma kv_get_set_same :
  forall (kv : list (text * A)) k v, kv_get (kv_set kv k v) k = Some v.
Proof.
  induction kv as [|[k' v'] kv IH]; intros k v; simpl.
  - rewrite text_eqb_refl. reflexivity.
  - destruct (text_eqb k' k) eqn:E; simpl; rewrite E; [reflexivity|apply IH].
Qed.

Lemma kv_get_set_other :
  forall (kv : list (text * A)) k k' v,
    k' <> k -> kv_get (kv_set kv k v) k' = kv_get kv k'.
Proof.
  induction kv as [|[k0 v0] kv IH]; intros k k' v Hne; simpl.
  - destruct (text_eqb k k') eqn:E; [|reflexivity].
    apply text_eqb_eq in E. congruence.
  - destruct (text_eqb k0 k) eqn:E; simpl.
    + apply text_eqb_eq in E. subst k0.
      destruct (text_eqb k k') eqn:E'; [|reflexivity].
      apply text_eqb_eq in E'. congruence.
    + destruct (text_eqb k0 k'); [reflexivity|apply IH; exact Hne].
Qed.

Lemma kv_get_delete_same :
  forall (kv : list (text * A)) k, kv_get (kv_delete kv k) k = None.
Proof.
  induction kv as [|[k' v'] kv IH]; intros k; simpl; [reflexivity|].
  destruct (text_eqb k' k) eqn:E; [apply IH|].
  simpl. rewrite E. apply IH.
Qed.

Lemma kv_get_delete_other :
  forall (kv : list (text * A)) k k',
    k' <> k -> kv_get (kv_delete kv k) k' = kv_get kv k'.
Proof.
  induction kv as [|[k0 v0] kv IH]; intros k k' Hne; simpl; [reflexivity|].
  destruct (text_eqb k0 k) eqn:E.
  - apply text_eqb_eq in E. subst k0.
    destruct (text_eqb k k') eqn:E'; [|apply IH; exact Hne].
    apply text_eqb_eq in E'. congruence.
  - simpl. destruct (text_eqb k0 k'); [reflexivity|apply IH; exact Hne].
Qed.

End KeyValue.

(** ** The cache-aside manager of views.py *)

Section CacheAsideFacts.
Import Models CacheAside CacheAsideOps.

(** Case analysis on the table lookup that a goal or a hypothesis holds *)
Ltac case_lookup :=
  unfold text in *;
  match goal with
  | |- context [get_active_template ?a ?b ?c ?o] =>
      destruct (get_active_template a b c o) as [[?t|]|?e] eqn:?Elookup
  end.

Ltac case_lookup_in H :=
  unfold text in *;
  match type of H with
  | context [get_active_template ?a ?b ?c ?o] =>
      destruct (get_active_template a b c o) as [[?t|]|?e] eqn:?Elookup
  end.

Ltac case_cached :=
  match goal with
  | |- context [kv_get ?kv ?k] => destruct (kv_get kv k) eqn:?Ecached
  end.

Lemma get_template_with_org :
  forall r rows code_ language_ org use_cache,
    org <> [] ->
    get_template r rows code_ language_ (Some org) use_cache
    = match (if use_cache && up r
             then kv_get (entries r)
                         (_make_template_cache_key code_ language_ org)
             else None) with
      | Some data => (Some data, r)
      | None =>
          match get_active_template rows code_ language_ (Some org) with
          | Ok (Some template) =>
              match _serialize_template template with
              | None => (None, r)
              | Some template_data =>
                  (Some template_data,
                   if use_cache && up r
                   then mkRedis (up r)
                          (kv_set (entries r)
                             (_make_template_cache_key code_ language_ org)
                             template_data)
                   else r)
              end
          | _ => (None, r)
          end
      end.
Proof.
  intros r rows code_ language_ org use_cache Hne.
  destruct org as [|c org]; [congruence|].
  reflexivity.
Qed.

(** Read-through: once a lookup has answered with a record while Redis is
    up, the same lookup is answered with the same record from the cache,
    whatever the table holds by then, and leaves the cache as it is. *)
Theorem cache_aside_hit_after_answer :
  forall r rows code_ language_ org d r',
    up r = true ->
    get_template r rows code_ language_ (Some org) true = (Some d, r') ->
    forall rows2,
      get_template r' rows2 code_ language_ (Some org) true = (Some d, r').
Proof.
  intros r rows code_ language_ org d r' Hup H rows2.
  assert (Hne : org <> [])
    by (intros ->; unfold get_template in H; inversion H).
  rewrite get_template_with_org in H by exact Hne.
  rewrite get_template_with_org by exact Hne.
  rewrite Hup in H. cbn [andb] in H.
  destruct (kv_get (entries r) (_make_template_cache_key code_ language_ org))
    as [data|] eqn:E.
  - inversion H; subst. rewrite Hup. cbn [andb]. rewrite E. reflexivity.
  - case_lookup_in H; try discriminate H.
    destruct (_serialize_template t) as [td|]; [|discriminate H].
    inversion H; subst. cbn [up entries andb].
    rewrite kv_get_set_same. reflexivity.
Qed.

Lemma cache_aside_hit_after_answer_witness :
  let rows := [Sample.row 1 Sample.org_a (T "en") 1 true active] in
  let first_call :=
    get_template (mkRedis true []) rows (T "welcome") (T "en")
                 (Some Sample.org_a) true in
  exists d r',
    first_call = (Some d, r') /\
    get_template r' [] (T "welcome") (T "en") (Some Sample.org_a) true
    = (Some d, r').
Proof.
  cbv zeta. eexists. eexists. split; [vm_compute; reflexivity|].
  apply (@cache_aside_hit_after_answer (mkRedis true [])
           [Sample.row 1 Sample.org_a (T "en") 1 true active]
           (T "welcome") (T "en") Sample.org_a).
  - reflexivity.
  - vm_compute. reflexivity.
Defined.

(** Absence is never cached: a lookup that answers absent, for whatever
    reason (no organization id, no template, a failing query), leaves Redis
    as it was. *)
Theorem cache_aside_absent_leaves_cache :
  forall r rows code_ language_ organization_id use_cache,
    fst (get_template r rows code_ language_ organization_id use_cache) = None ->
    snd (get_template r rows code_ language_ organization_id use_cache) = r.
Proof.
  intros r rows code_ language_ organization_id use_cache.
  destruct organization_id as [[|c org]|]; try reflexivity.
  rewrite get_template_with_org by discriminate.
  destruct (if use_cache && up r then _ else None); [discriminate|].
  case_lookup; try reflexivity.
  destruct (_serialize_template t); [discriminate|reflexivity].
Qed.

Lemma cache_aside_absent_leaves_cache_witness :
  snd (get_template (mkRedis true []) [] (T "welcome") (T "en")
                    (Some Sample.org_a) true)
  = mkRedis true [].
Proof.
  apply (@cache_aside_absent_leaves_cache (mkRedis true []) [] (T "welcome")
           (T "en") (Some Sample.org_a) true).
  reflexivity.
Defined.

(** With the cache switched off, or with Redis down, the answer is the one
    of the table and Redis is not written. *)
Theorem cache_aside_degrades_to_table :
  forall r rows code_ language_ organization_id use_cache,
    use_cache = false \/ up r = false ->
    get_template r rows code_ language_ organization_id use_cache
    = (match get_active_template rows code_ language_ organization_id with
       | Ok (Some template) => _serialize_template template
       | _ => None
       end, r).
Proof.
  intros r rows code_ language_ organization_id use_cache Hoff.
  assert (Hb : use_cache && up r = false)
    by (destruct Hoff as [-> | ->]; [reflexivity|apply andb_false_r]).
  destruct organization_id as [[|c org]|]; try reflexivity.
  rewrite get_template_with_org by discriminate. rewrite Hb.
  case_lookup; try reflexivity.
  destruct (_serialize_template t); reflexivity.
Qed.

Lemma cache_aside_degrades_to_table_witness :
  let rows := [Sample.row 1 Sample.org_a (T "en") 1 true active] in
  let stale := mkData 9 (T "welcome") (T "en") 0 true active [] [] []
                      (Some Sample.org_a) in
  let r := mkRedis false
             [(_make_template_cache_key (T "welcome") (T "en") Sample.org_a,
               stale)] in
  get_template r rows (T "welcome") (T "en") (Some Sample.org_a) true
  = (match get_active_template rows (T "welcome") (T "en")
             (Some Sample.org_a) with
     | Ok (Some template) => _serialize_template template
     | _ => None
     end, r).
Proof.
  cbv zeta.
  apply cache_aside_degrades_to_table. right. reflexivity.
Defined.

(** Invalidation: after [invalidate_template] on a Redis that is up, the
    lookup of that key is answered from the table, not from an older
    entry; entries under other keys stay. *)
Theorem cache_aside_invalidate_then_fresh :
  forall r rows code_ language_ org,
    up r = true -> org <> [] ->
    fst (get_template (invalidate_template r code_ language_ (Some org))
                      rows code_ language_ (Some org) true)
    = match get_active_template rows code_ language_ (Some org) with
      | Ok (Some template) => _serialize_template template
      | _ => None
      end /\
    (forall key,
        key <> _make_template_cache_key code_ language_ org ->
        kv_get (entries (invalidate_template r code_ language_ (Some org))) key
        = kv_get (entries r) key).
Proof.
  intros r rows code_ language_ org Hup Hne.
  assert (Hinv : invalidate_template r code_ language_ (Some org)
                 = mkRedis (up r)
                     (kv_delete (entries r)
                        (_make_template_cache_key code_ language_ org))).
  { unfold invalidate_template. destruct org; [congruence|].
    rewrite Hup. reflexivity. }
  rewrite Hinv. split.
  - rewrite get_template_with_org by exact Hne. cbn [up entries].
    rewrite Hup. cbn [andb]. rewrite kv_get_delete_same.
    case_lookup; try reflexivity.
    destruct (_serialize_template t); reflexivity.
  - intros key Hk. cbn [entries]. apply kv_get_delete_other. exact Hk.
Qed.

Lemma cache_aside_invalidate_then_fresh_witness :
  let old := mkData 9 (T "welcome") (T "en") 0 true active [] [] []
                    (Some Sample.org_a) in
  let r := mkRedis true
             [(_make_template_cache_key (T "welcome") (T "en") Sample.org_a,
               old)] in
  let rows := [Sample.row 1 Sample.org_a (T "en") 1 true active] in
  fst (get_template (invalidate_template r (T "welcome") (T "en")
                       (Some Sample.org_a))
                    rows (T "welcome") (T "en") (Some Sample.org_a) true)
  = match get_active_template rows (T "welcome") (T "en")
            (Some Sample.org_a) with
    | Ok (Some template) => _serialize_template template
    | _ => None
    end.
Proof.
  cbv zeta.
  refine (proj1 (@cache_aside_invalidate_then_fresh _ _ (T "welcome") (T "en")
                   Sample.org_a _ _)).
  - reflexivity.
  - discriminate.
Defined.

End CacheAsideFacts.

(** ** Keys and tenants in the cache-aside manager *)

Section CacheKeys.
Import Models CacheAside CacheAsideOps Shapes.

Lemma split_at_colon :
  forall a a' b b',
    colon_free a = true -> colon_free a' = true ->
    a ++ ":"%char :: b = a' ++ ":"%char :: b' ->
    a = a' /\ b = b'.
Proof.
  induction a as [|x a IH]; intros [|y a'] b b' Ha Ha' H; simpl in *.
  - inversion H. auto.
  - inversion H; subst. rewrite Ascii.eqb_refl in Ha'. discriminate.
  - inversion H; subst. rewrite Ascii.eqb_refl in Ha. discriminate.
  - inversion H; subst.
    apply andb_prop in Ha. apply andb_prop in Ha'.
    destruct Ha as [_ Ha], Ha' as [_ Ha'].
    destruct (IH a' b b' Ha Ha' H2) as [-> ->]. auto.
Qed.

Lemma cache_key_organization :
  forall org code_ language_ org' code' language',
    colon_free org = true -> colon_free org' = true ->
    _make_template_cache_key code_ language_ org
    = _make_template_cache_key code' language' org' ->
    org = org' /\
    code_ ++ ":"%char :: language_ = code' ++ ":"%char :: language'.
Proof.
  intros org code_ language_ org' code' language' Ho Ho' H.
  unfold _make_template_cache_key in H.
  apply app_inv_head in H.
  change (T ":" ++ code_ ++ T ":" ++ language_)
    with (":"%char :: (code_ ++ ":"%char :: language_)) in H.
  change (T ":" ++ code' ++ T ":" ++ language')
    with (":"%char :: (code' ++ ":"%char :: language')) in H.
  exact (split_at_colon _ _ _ _ Ho Ho' H).
Qed.

(** Distinct (organization, code, language) triples have distinct keys,
    provided the organization ids and the codes hold no [":"]. *)
Theorem cache_key_injective :
  forall org code_ language_ org' code' language',
    colon_free org = true -> colon_free code_ = true ->
    colon_free org' = true -> colon_free code' = true ->
    _make_template_cache_key code_ language_ org
    = _make_template_cache_key code' language' org' ->
    org = org' /\ code_ = code' /\ language_ = language'.
Proof.
  intros org code_ language_ org' code' language' Ho Hc Ho' Hc' H.
  destruct (@cache_key_organization _ _ _ _ _ _ Ho Ho' H) as [-> H1].
  destruct (split_at_colon _ _ _ _ Hc Hc' H1) as [-> ->]. auto.
Qed.

Lemma cache_key_injective_witness :
  Sample.org_a = Sample.org_a /\ T "welcome" = T "welcome" /\ T "en" = T "en".
Proof.
  apply (@cache_key_injective Sample.org_a (T "welcome") (T "en")
           Sample.org_a (T "welcome") (T "en"));
    reflexivity.
Defined.

Lemma empty_cache_scoped : forall up_, scoped (mkRedis up_ []).
Proof. intros up_ org code_ language_ d _ _ H. discriminate H. Qed.

Lemma serialize_organization :
  forall t d org,
    _serialize_template t = Some d -> of_org org t = true ->
    d_organization_id d = Some org.
Proof.
  intros t d org Hs Ho. unfold _serialize_template in Hs. unfold of_org in Ho.
  destruct (organization t) as [o|]; [|discriminate].
  apply text_eqb_eq in Ho. subst o. inversion Hs. reflexivity.
Qed.

(** Tenant isolation of the Redis tier, for identifiers without [":"]: a
    cache whose entries are the records of the organization of their key
    stays so under every lookup, and what a lookup for an organization
    answers is a record of that organization. The empty cache is such a
    cache. *)
Theorem cache_aside_keeps_tenants_apart :
  forall r rows code_ language_ org use_cache answer r',
    scoped r ->
    colon_free org = true -> colon_free code_ = true ->
    get_template r rows code_ language_ (Some org) use_cache = (answer, r') ->
    scoped r' /\
    (forall d, answer = Some d -> d_organization_id d = Some org).
Proof.
  intros r rows code_ language_ org use_cache answer r' Hsc Ho Hc H.
  destruct org as [|c0 org0] eqn:Eorg.
  { unfold get_template in H. inversion H; subst. split; [exact Hsc|].
    intros d Hd. discriminate Hd. }
  rewrite <- Eorg in *. assert (Hne : org <> []) by (rewrite Eorg; discriminate).
  clear Eorg.
  rewrite get_template_with_org in H by exact Hne.
  destruct (use_cache && up r) eqn:Euse.
  - destruct (kv_get (entries r)
                (_make_template_cache_key code_ language_ org)) as [data|]
      eqn:Eget.
    + inversion H; subst. split; [exact Hsc|].
      intros d Hd. inversion Hd; subst. eapply Hsc; eauto.
    + unfold text in *.
      match type of H with
      | context [get_active_template ?a ?b ?c ?o] =>
          destruct (get_active_template a b c o) as [[t|]|e] eqn:El
      end; try (inversion H; subst; split;
                [exact Hsc|intros d Hd; discriminate Hd]).
      destruct (_serialize_template t) as [td|] eqn:Es;
        [|inversion H; subst; split;
          [exact Hsc|intros d Hd; discriminate Hd]].
      apply get_active_template_scoped in El.
      pose proof (@serialize_organization _ _ _ Es El) as Htd.
      inversion H; subst. split.
      * intros org2 code2 lang2 d2 Ho2 Hc2 Hget. cbn [entries] in Hget.
        destruct (list_eq_dec ascii_dec
                    (_make_template_cache_key code2 lang2 org2)
                    (_make_template_cache_key code_ language_ org)) as [Hk|Hk].
        -- rewrite Hk, kv_get_set_same in Hget. inversion Hget; subst.
           destruct (@cache_key_organization _ _ _ _ _ _ Ho2 Ho Hk)
             as [-> _]. exact Htd.
        -- rewrite kv_get_set_other in Hget by exact Hk.
           eapply Hsc; eauto.
      * intros d Hd. inversion Hd; subst. exact Htd.
  - unfold text in *.
    match type of H with
    | context [get_active_template ?a ?b ?c ?o] =>
        destruct (get_active_template a b c o) as [[t|]|e] eqn:El
    end; try (inversion H; subst; split;
              [exact Hsc|intros d Hd; discriminate Hd]).
    destruct (_serialize_template t) as [td|] eqn:Es;
      [|inversion H; subst; split;
        [exact Hsc|intros d Hd; discriminate Hd]].
    apply get_active_template_scoped in El.
    pose proof (@serialize_organization _ _ _ Es El) as Htd.
    inversion H; subst. split; [exact Hsc|].
    intros d Hd. inversion Hd; subst. exact Htd.
Qed.

Lemma cache_aside_keeps_tenants_apart_witness :
  let rows := [Sample.row 1 Sample.org_a (T "en") 1 true active;
               Sample.row 2 Sample.org_b (T "en") 2 true active] in
  let call := get_template (mkRedis true []) rows (T "welcome") (T "en")
                           (Some Sample.org_b) true in
  scoped (snd call) /\
  (forall d, fst call = Some d -> d_organization_id d = Some Sample.org_b).
Proof.
  cbv zeta.
  apply (@cache_aside_keeps_tenants_apart (mkRedis true [])
           [Sample.row 1 Sample.org_a (T "en") 1 true active;
            Sample.row 2 Sample.org_b (T "en") 2 true active]
           (T "welcome") (T "en") Sample.org_b true).
  - apply empty_cache_scoped.
  - reflexivity.
  - reflexivity.
  - apply surjective_pairing.
Defined.

End CacheKeys.

(** ** Listings of the cache-aside manager *)

Section Listings.
Import Models CacheAside CacheAsideOps.
Variable updated_at : Template -> Z.

Lemma insert_by_updated_In :
  forall r x sorted,
    In x (insert_by_updated updated_at r sorted) <-> x = r \/ In x sorted.
Proof.
  intros r x sorted. induction sorted as [|r' sorted IH]; simpl.
  - intuition.
  - destruct (Z.ltb (updated_at r) (updated_at r')); simpl; rewrite ?IH;
      intuition.
Qed.

Lemma order_by_updated_desc_In :
  forall rows x, In x (order_by_updated_desc updated_at rows) <-> In x rows.
Proof.
  intros rows x. induction rows as [|r rows IH]; simpl; [reflexivity|].
  rewrite insert_by_updated_In, IH. intuition.
Qed.

Lemma serialize_all_of_org :
  forall org ts,
    (forall t, In t ts -> of_org org t = true) ->
    exists ds,
      serialize_all ts = Some ds /\
      (forall d, In d ds <->
                 exists t, In t ts /\ _serialize_template t = Some d).
Proof.
  intros org ts. induction ts as [|t ts IH]; intros Hall.
  - exists []. split; [reflexivity|]. intros d. split; [intros []|].
    intros (t & [] & _).
  - destruct IH as (ds & Hds & Hiff); [intros; apply Hall; simpl; auto|].
    assert (Ht : of_org org t = true) by (apply Hall; simpl; auto).
    unfold of_org in Ht. simpl. unfold _serialize_template at 1.
    destruct (organization t) as [o|] eqn:Eo; [|discriminate].
    rewrite Hds. eexists. split; [reflexivity|].
    intros d. simpl. rewrite Hiff. split.
    + intros [<-|(t' & Hin & Hs)].
      * exists t. split; [auto|]. unfold _serialize_template. rewrite Eo.
        reflexivity.
      * exists t'. auto.
    + intros (t' & [<-|Hin] & Hs).
      * left. unfold _serialize_template in Hs. rewrite Eo in Hs.
        inversion Hs. reflexivity.
      * right. exists t'. auto.
Qed.

(** The listings are scoped and complete: [get_all_templates] for an
    organization returns exactly the serialized active rows of that
    organization, and [get_templates_by_type] those of the given type;
    without an organization id both return the empty list. *)
Theorem listings_are_the_active_rows_of_the_organization :
  forall rows org ty d,
    org <> [] ->
    (In d (get_all_templates updated_at rows (Some org)) <->
     exists t, In t rows /\ status t = active /\
               organization t = Some org /\
               _serialize_template t = Some d) /\
    (In d (get_templates_by_type updated_at rows ty (Some org)) <->
     exists t, In t rows /\ template_type t = ty /\ status t = active /\
               organization t = Some org /\
               _serialize_template t = Some d) /\
    get_all_templates updated_at rows None = [] /\
    get_all_templates updated_at rows (Some []) = [] /\
    get_templates_by_type updated_at rows ty None = [] /\
    get_templates_by_type updated_at rows ty (Some []) = [].
Proof.
  intros rows org ty d Hne.
  assert (Hst : forall t, status_eqb (status t) active = true
                          <-> status t = active)
    by (intros t; destruct (status t); simpl; split; congruence).
  assert (Horg : forall t, of_org org t = true <-> organization t = Some org).
  { intros t. unfold of_org. destruct (organization t) as [o|].
    - rewrite text_eqb_eq.
      split; [intros ->; reflexivity|intros H; inversion H; reflexivity].
    - split; discriminate. }
  split; [|split; [|repeat split; reflexivity]].
  - unfold get_all_templates. destruct org as [|c org]; [congruence|].
    match goal with
    | |- context [serialize_all ?l] =>
        destruct (@serialize_all_of_org (c :: org) l) as (ds & -> & Hiff)
    end.
    { intros t Ht. apply (proj1 (order_by_updated_desc_In _ _)) in Ht.
      apply filter_In in Ht. destruct Ht as [_ Ht].
      apply andb_prop in Ht. apply Ht. }
    rewrite Hiff. split.
    + intros (t & Hin & Hs). apply (proj1 (order_by_updated_desc_In _ _)) in Hin.
      apply filter_In in Hin. destruct Hin as [Hin Hf].
      apply andb_prop in Hf. destruct Hf as [H1 H2].
      exists t. rewrite <- Hst, <- Horg. auto.
    + intros (t & Hin & H1 & H2 & Hs). exists t. split; [|exact Hs].
      apply order_by_updated_desc_In. apply filter_In. split; [exact Hin|].
      apply andb_true_intro. rewrite Hst, Horg. auto.
  - unfold get_templates_by_type. destruct org as [|c org]; [congruence|].
    match goal with
    | |- context [serialize_all ?l] =>
        destruct (@serialize_all_of_org (c :: org) l) as (ds & -> & Hiff)
    end.
    { intros t Ht. apply (proj1 (order_by_updated_desc_In _ _)) in Ht.
      apply filter_In in Ht. destruct Ht as [_ Ht].
      apply andb_prop in Ht. apply Ht. }
    rewrite Hiff. split.
    + intros (t & Hin & Hs). apply (proj1 (order_by_updated_desc_In _ _)) in Hin.
      apply filter_In in Hin. destruct Hin as [Hin Hf].
      apply andb_prop in Hf. destruct Hf as [Hf H2].
      apply andb_prop in Hf. destruct Hf as [H0 H1].
      apply text_eqb_eq in H0.
      exists t. rewrite <- Hst, <- Horg. auto.
    + intros (t & Hin & H0 & H1 & H2 & Hs). exists t. split; [|exact Hs].
      apply order_by_updated_desc_In. apply filter_In. split; [exact Hin|].
      apply andb_true_intro. split; [apply andb_true_intro; split|].
      * apply text_eqb_eq. exact H0.
      * apply Hst. exact H1.
      * apply Horg. exact H2.
Qed.

End Listings.

Lemma listings_are_the_active_rows_of_the_organization_witness :
  let rows := [Sample.row 1 Sample.org_a (T "en") 1 true Models.active;
               Sample.row 2 Sample.org_b (T "en") 2 true Models.active] in
  let d := mkData 1 (T "welcome") (T "en") 1 true Models.active
                  (T "Welcome") (T "Hi {{name}}") [] (Some Sample.org_a) in
  In d (CacheAsideOps.get_all_templates (fun _ => 0%Z) rows
          (Some Sample.org_a)) <->
  exists t, In t rows /\ Models.status t = Models.active /\
            Models.organization t = Some Sample.org_a /\
            CacheAside._serialize_template t = Some d.
Proof.
  cbv zeta.
  refine (proj1 (@listings_are_the_active_rows_of_the_organization
                   (fun _ => 0%Z) _ Sample.org_a (T "email") _ _)).
  discriminate.
Defined.

(** ** The mirror of cache_manager.py *)

Section MirrorFacts.
Import Models MirrorCache MirrorOps.

(** Self-healing: when the mirror has no entry for a key and the table has
    an active default row for it, the lookup loads a row, stores its
    dictionary under the key, and from then on the same lookup is a hit
    that returns this dictionary, whatever the table holds. *)
Theorem mirror_miss_then_hit :
  forall templates rows code_ language_ r,
    kv_get templates (cache_key_of code_ language_) = None ->
    In r rows -> code r = code_ -> language r = language_ ->
    status r = active -> is_default r = true ->
    exists t templates',
      get_template templates rows code_ language_
      = (Some (Loaded t), templates') /\
      In t rows /\ code t = code_ /\ language t = language_ /\
      status t = active /\ is_default t = true /\
      (forall rows2,
          get_template templates' rows2 code_ language_
          = (Some (Cached (_serialize_template t)), templates')).
Proof.
  intros templates rows code_ language_ r Hmiss Hin Hc Hl Hs Hd.
  unfold get_template.
  set (matching := filter (fun r0 => text_eqb (code r0) code_ &&
                                     text_eqb (language r0) language_ &&
                                     status_eqb (status r0) active &&
                                     is_default r0) rows).
  assert (Hr : In r matching).
  { apply filter_In. split; [exact Hin|].
    rewrite Hc, Hl, Hs, Hd, !text_eqb_refl. reflexivity. }
  destruct (first matching) as [t|] eqn:Ef.
  - exists t, (kv_set templates (cache_key_of code_ language_)
                      (_serialize_template t)).
    pose proof (first_In _ Ef) as Ht. apply filter_In in Ht.
    destruct Ht as [Ht Hp].
    repeat (apply andb_prop in Hp; destruct Hp as [Hp ?]).
    apply text_eqb_eq in Hp.
    match goal with H : text_eqb (language t) _ = true |- _ =>
      apply text_eqb_eq in H; rename H into Hlt end.
    assert (Hst : status t = active).
    { match goal with H : status_eqb (status t) _ = true |- _ =>
        destruct (status t); [discriminate H|reflexivity|discriminate H]
      end. }
    match goal with H : is_default t = true |- _ => rename H into Hdt end.
    split.
    + simpl. rewrite Hmiss. fold matching. rewrite Ef. reflexivity.
    + split; [exact Ht|]. split; [exact Hp|]. split; [exact Hlt|].
      split; [exact Hst|]. split; [exact Hdt|].
      intros rows2. simpl. rewrite kv_get_set_same. reflexivity.
  - apply first_None in Ef. rewrite Ef in Hr. destruct Hr.
Qed.

Lemma mirror_miss_then_hit_witness :
  exists t templates',
    get_template [] [Sample.row 1 Sample.org_a (T "en") 1 true active]
                 (T "welcome") (T "en")
    = (Some (Loaded t), templates') /\
    In t [Sample.row 1 Sample.org_a (T "en") 1 true active] /\
    code t = T "welcome" /\ language t = T "en" /\
    status t = active /\ is_default t = true /\
    (forall rows2,
        get_template templates' rows2 (T "welcome") (T "en")
        = (Some (Cached (_serialize_template t)), templates')).
Proof.
  apply (@mirror_miss_then_hit [] _ (T "welcome") (T "en")
           (Sample.row 1 Sample.org_a (T "en") 1 true active));
    try reflexivity.
  simpl. auto.
Defined.

(** [invalidate_template] removes the entry of its key and no other. *)
Theorem mirror_invalidate_removes_one_key :
  forall templates code_ language_,
    kv_get (invalidate_template templates code_ language_)
           (cache_key_of code_ language_) = None /\
    (forall key, key <> cache_key_of code_ language_ ->
                 kv_get (invalidate_template templates code_ language_) key
                 = kv_get templates key).
Proof.
  intros templates code_ language_. unfold invalidate_template. split.
  - apply kv_get_delete_same.
  - intros key Hk. apply kv_get_delete_other. exact Hk.
Qed.

Lemma mirror_invalidate_removes_one_key_witness :
  let d := _serialize_template
             (Sample.row 1 Sample.org_a (T "en") 1 true active) in
  kv_get (invalidate_template [(T "welcome:en", d); (T "welcome:fr", d)]
                              (T "welcome") (T "en"))
         (T "welcome:fr")
  = Some d.
Proof.
  cbv zeta.
  refine (proj2 (@mirror_invalidate_removes_one_key _ (T "welcome") (T "en"))
                (T "welcome:fr") _).
  discriminate.
Defined.

(** *** The reload *)

Lemma insert_by_version_sorted :
  forall r sorted,
    StronglySorted (fun a b => (version b <= version a)%Z) sorted ->
    StronglySorted (fun a b => (version b <= version a)%Z)
                   (insert_by_version r sorted).
Proof.
  intros r sorted Hs. induction Hs as [|r' sorted Hs IH Hall]; simpl.
  - constructor; constructor.
  - destruct (Z.ltb (version r) (version r')) eqn:E.
    + apply Z.ltb_lt in E. constructor; [exact IH|].
      apply Forall_forall. intros x Hx.
      apply insert_by_version_In in Hx. destruct Hx as [->|Hx]; [lia|].
      rewrite Forall_forall in Hall. apply Hall. exact Hx.
    + apply Z.ltb_ge in E. constructor; [constructor; assumption|].
      constructor; [exact E|].
      rewrite Forall_forall in Hall |- *. intros x Hx.
      specialize (Hall x Hx). lia.
Qed.

Lemma order_by_version_desc_sorted :
  forall rows,
    StronglySorted (fun a b => (version b <= version a)%Z)
                   (order_by_version_desc rows).
Proof.
  induction rows as [|r rows IH]; simpl; [constructor|].
  apply insert_by_version_sorted. exact IH.
Qed.

Lemma sorted_before :
  forall (l1 : table) x l2,
    StronglySorted (fun a b => (version b <= version a)%Z) (l1 ++ x :: l2) ->
    forall y, In y l1 -> (version x <= version y)%Z.
Proof.
  induction l1 as [|a l1 IH]; intros x l2 Hs y Hy; [destruct Hy|].
  simpl in Hs. inversion Hs as [|? ? Hs' Hall]; subst.
  destruct Hy as [<-|Hy].
  - rewrite Forall_forall in Hall. apply Hall.
    apply in_or_app. right. simpl. auto.
  - eapply IH; eauto.
Qed.

Lemma fill_get :
  forall ts cache key d,
    kv_get (fill cache ts) key = Some d ->
    (kv_get cache key = Some d /\
     forall t, In t ts -> cache_key_of (code t) (language t) <> key) \/
    (exists ts1 t ts2,
        ts = ts1 ++ t :: ts2 /\
        cache_key_of (code t) (language t) = key /\
        d = _serialize_template t /\
        forall t', In t' ts2 -> cache_key_of (code t') (language t') <> key).
Proof.
  induction ts as [|t0 ts IH]; intros cache key d H.
  - left. split; [exact H|]. intros t [].
  - unfold fill in H. simpl in H. fold (fill (kv_set cache
        (cache_key_of (code t0) (language t0)) (_serialize_template t0)) ts)
      in H.
    destruct (IH _ _ _ H) as [[Hget Hno]|(ts1 & t & ts2 & -> & Hk & Hd & Hno)].
    + destruct (list_eq_dec ascii_dec
                  (cache_key_of (code t0) (language t0)) key) as [Hk|Hk].
      * right. exists [], t0, ts. rewrite Hk, kv_get_set_same in Hget.
        inversion Hget. auto.
      * left. rewrite kv_get_set_other in Hget by congruence.
        split; [exact Hget|]. intros t [<-|Ht]; [exact Hk|apply Hno; exact Ht].
    + right. exists (t0 :: ts1), t, ts2. auto.
Qed.

Lemma fill_keeps_key :
  forall ts cache key,
    kv_get cache key <> None -> kv_get (fill cache ts) key <> None.
Proof.
  induction ts as [|t0 ts IH]; intros cache key H; [exact H|].
  unfold fill. simpl. apply IH.
  destruct (list_eq_dec ascii_dec (cache_key_of (code t0) (language t0)) key)
    as [Hk|Hk].
  - rewrite Hk, kv_get_set_same. discriminate.
  - rewrite kv_get_set_other by congruence. exact H.
Qed.

Lemma fill_has_key :
  forall ts cache t,
    In t ts ->
    kv_get (fill cache ts) (cache_key_of (code t) (language t)) <> None.
Proof.
  induction ts as [|t0 ts IH]; intros cache t Hin; [destruct Hin|].
  unfold fill. simpl. destruct Hin as [<-|Hin].
  - apply fill_keeps_key. rewrite kv_get_set_same. discriminate.
  - apply IH. exact Hin.
Qed.

(** After [_load_templates_from_db] every active row has an entry under
    its key ["{code}:{language}"], and the entry of a key is the dictionary
    of an active row with that key which has the lowest version among them:
    the rows are visited by decreasing version and each one overwrites the
    entry of its key. *)
Theorem mirror_reload_keeps_lowest_version :
  forall rows,
    (forall key d,
        kv_get (fst (_load_templates_from_db rows)) key = Some d ->
        exists t,
          In t rows /\ status t = active /\
          cache_key_of (code t) (language t) = key /\
          d = _serialize_template t /\
          (forall r, In r rows -> status r = active ->
                     cache_key_of (code r) (language r) = key ->
                     (version t <= version r)%Z)) /\
    (forall t, In t rows -> status t = active ->
               kv_get (fst (_load_templates_from_db rows))
                      (cache_key_of (code t) (language t)) <> None).
Proof.
  intros rows. unfold _load_templates_from_db. cbn [fst].
  set (ts := order_by_version_desc
               (filter (fun r => status_eqb (status r) active) rows)).
  assert (Hts : forall t, In t ts <-> In t rows /\ status t = active).
  { intros t. unfold ts. rewrite order_by_version_desc_In, filter_In.
    destruct (status t); simpl; intuition congruence. }
  split.
  - intros key d H.
    destruct (fill_get _ _ _ H)
      as [[Hget _]|(ts1 & t & ts2 & Heq & Hk & Hd & Hno)];
      [discriminate Hget|].
    assert (Ht : In t ts)
      by (rewrite Heq; apply in_or_app; right; simpl; auto).
    apply Hts in Ht. destruct Ht as [Ht1 Ht2].
    exists t. repeat split; auto.
    intros r Hr1 Hr2 Hrk.
    assert (Hr : In r ts) by (apply Hts; auto).
    rewrite Heq in Hr. apply in_app_or in Hr. destruct Hr as [Hr|[<-|Hr]].
    + eapply sorted_before; [|exact Hr].
      rewrite <- Heq. apply order_by_version_desc_sorted.
    + lia.
    + exfalso. exact (Hno r Hr Hrk).
  - intros t Ht1 Ht2. apply fill_has_key. apply Hts. auto.
Qed.

Lemma mirror_reload_keeps_lowest_version_witness :
  let rows := [Sample.row 1 Sample.org_a (T "en") 1 true active;
               Sample.row 2 Sample.org_b (T "en") 2 true active] in
  kv_get (fst (_load_templates_from_db rows))
         (cache_key_of (T "welcome") (T "en")) <> None.
Proof.
  cbv zeta.
  refine (proj2 (@mirror_reload_keeps_lowest_version _)
                (Sample.row 2 Sample.org_b (T "en") 2 true active) _ _).
  - simpl. auto.
  - reflexivity.
Defined.

End MirrorFacts.

(** ** The table: save, activate, archive and the lookup *)

Section TableFacts.
Import Models.

Lemma status_eqb_eq : forall a b, status_eqb a b = true <-> a = b.
Proof. intros [] []; simpl; split; congruence. Qed.

Lemma of_org_eq :
  forall org t, of_org org t = true <-> organization t = Some org.
Proof.
  intros org t. unfold of_org. destruct (organization t) as [o|].
  - rewrite text_eqb_eq.
    split; [intros ->; reflexivity|intros H; inversion H; reflexivity].
  - split; discriminate.
Qed.

Lemma checked_ok :
  forall rows rows', checked rows = Ok rows' ->
                     rows' = rows /\ constraints_ok rows' = true.
Proof.
  intros rows rows' H. unfold checked in H.
  destruct (constraints_ok rows) eqn:E; [|discriminate].
  inversion H; subst. auto.
Qed.

(** [save] writes the instance and nothing else: after a successful
    [save] the instance is a row of the table, it is the only row with its
    primary key, the rows with other keys are the ones that were there, and
    the constraints hold. *)
Lemma save_writes_one_row :
  forall rows self rows',
    save rows self = Ok rows' ->
    constraints_ok rows' = true /\
    In self rows' /\
    (forall r, In r rows' -> id r = id self -> r = self) /\
    (forall r, id r <> id self -> (In r rows' <-> In r rows)).
Proof.
  intros rows self rows' H. unfold save in H.
  destruct (existsb (fun r => Nat.eqb (id r) (id self)) rows) eqn:Ex.
  - apply checked_ok in H. destruct H as [-> Hok].
    split; [exact Hok|]. split; [|split].
    + apply existsb_exists in Ex. destruct Ex as (r0 & Hr0 & E).
      apply in_map_iff. exists r0. rewrite E. auto.
    + intros r Hr Hid. apply in_map_iff in Hr.
      destruct Hr as (r0 & Hg & Hr0).
      destruct (Nat.eqb (id r0) (id self)) eqn:E; [congruence|].
      apply Nat.eqb_neq in E. congruence.
    + intros r Hid. rewrite in_map_iff. split.
      * intros (r0 & Hg & Hr0).
        destruct (Nat.eqb (id r0) (id self)); congruence.
      * intros Hr. exists r. split; [|exact Hr].
        apply Nat.eqb_neq in Hid. rewrite Hid. reflexivity.
  - apply checked_ok in H. destruct H as [-> Hok].
    split; [exact Hok|]. split; [|split].
    + apply in_or_app. right. simpl. auto.
    + intros r Hr Hid. apply in_app_or in Hr. destruct Hr as [Hr|[<-|[]]].
      * exfalso.
        assert (Ht : existsb (fun r => Nat.eqb (id r) (id self)) rows = true)
          by (apply existsb_exists; exists r; split;
              [exact Hr|apply Nat.eqb_eq; exact Hid]).
        congruence.
      * reflexivity.
    + intros r Hid. rewrite in_app_iff. simpl. intuition congruence.
Qed.

(** What [activate] leaves behind when it returns [True] *)
Lemma activate_success :
  forall rows self now by_ rows' self',
    activate rows self now by_ = (Ok true, rows', self') ->
    self' = mkTemplate (id self) (code self) (template_type self)
              (subject self) (content self) (html_content self)
              (organization self) (language self) (version self)
              true active (Some now) (deactivated_at self) by_
              (usage_count self) /\
    (exists org, organization self = Some org) /\
    exists rows1, save rows1 self' = Ok rows'.
Proof.
  intros rows self now by_ rows' self' H. unfold activate in H.
  destruct (status_eqb (status self) active); [discriminate|].
  destruct (organization self) as [org|] eqn:Eo; [|discriminate].
  destruct (update rows _ _) as [rows1|e]; [|discriminate].
  match type of H with
  | context [save rows1 ?s] => destruct (save rows1 s) eqn:Es
  end; [|discriminate].
  inversion H; subst. split; [reflexivity|]. split; [eauto|].
  exists rows1. exact Es.
Qed.

Lemma activate_saved :
  forall rows self now by_ rows' self',
    activate rows self now by_ = (Ok true, rows', self') ->
    constraints_ok rows' = true /\ In self' rows'.
Proof.
  intros rows self now by_ rows' self' H.
  destruct (activate_success _ _ _ _ H) as (_ & _ & rows1 & Hsave).
  destruct (save_writes_one_row _ _ Hsave) as (Hok & Hin & _ & _).
  split; assumption.
Qed.

(** After a successful [activate] the version is active, default and
    published now, it is a row of the table, the constraints hold, and it
    is the only default of its (code, language, organization). *)
Theorem activate_leaves_one_default :
  forall rows self now by_ rows' self',
    activate rows self now by_ = (Ok true, rows', self') ->
    constraints_ok rows' = true /\
    In self' rows' /\
    id self' = id self /\ status self' = active /\
    is_default self' = true /\ published_at self' = Some now /\
    (forall r, In r rows' -> code r = code self ->
               language r = language self ->
               organization r = organization self ->
               is_default r = true -> r = self').
Proof.
  intros rows self now by_ rows' self' H.
  destruct (activate_success _ _ _ _ H) as (Hs & (org & Ho) & _).
  destruct (activate_saved _ _ _ _ H) as (Hok & Hin).
  split; [exact Hok|]. split; [exact Hin|].
  rewrite Hs. cbn [id status is_default published_at].
  repeat split.
  rewrite <- Hs. intros r Hr Hc Hl Horg Hd.
  apply (@unique_together_one_per_flag rows' r self' org); auto.
  - rewrite Hs. simpl. exact Hc.
  - rewrite Hs. simpl. exact Hl.
  - congruence.
  - rewrite Hs. simpl. exact Ho.
  - rewrite Hs. simpl. exact Hd.
Qed.

Lemma activate_leaves_one_default_witness :
  let v1 := Sample.row 1 Sample.org_a (T "en") 1 false draft in
  exists rows' self',
    activate [v1] v1 100 (T "system") = (Ok true, rows', self') /\
    constraints_ok rows' = true /\ In self' rows' /\ is_default self' = true.
Proof.
  cbv zeta. eexists. eexists. split; [vm_compute; reflexivity|].
  pose proof (@activate_leaves_one_default
                [Sample.row 1 Sample.org_a (T "en") 1 false draft]
                (Sample.row 1 Sample.org_a (T "en") 1 false draft)
                100 (T "system") _ _ eq_refl) as H.
  destruct H as (H1 & H2 & _ & _ & H3 & _). auto.
Defined.

(** Publish, then fetch: after a successful [activate] the lookup of the
    version's code and language for its organization returns the version
    just activated. *)
Theorem activate_then_lookup_returns_it :
  forall rows self now by_ rows' self' org,
    activate rows self now by_ = (Ok true, rows', self') ->
    organization self = Some org -> org <> [] ->
    get_active_template rows' (code self) (language self) (Some org)
    = Ok (Some self').
Proof.
  intros rows self now by_ rows' self' org H Ho Hne.
  destruct (activate_saved _ _ _ _ H) as (Hok & Hin).
  destruct (activate_success _ _ _ _ H) as (Hs & _ & _).
  assert (Hst : status self' = active) by (rewrite Hs; reflexivity).
  assert (Hd : is_default self' = true) by (rewrite Hs; reflexivity).
  assert (Hc : code self' = code self) by (rewrite Hs; reflexivity).
  assert (Hl : language self' = language self) by (rewrite Hs; reflexivity).
  assert (Horg : organization self' = Some org)
    by (rewrite Hs; simpl; exact Ho).
  unfold get_active_template. destruct org as [|c org]; [congruence|].
  unfold active_default at 1.
  match goal with
  | |- context [first (filter ?f rows')] =>
      set (matching := filter f rows')
  end.
  assert (Hm : In self' matching).
  { apply filter_In. split; [exact Hin|].
    rewrite Hc, Hl, Hst, Hd, !text_eqb_refl. simpl.
    apply of_org_eq. exact Horg. }
  destruct (first matching) as [t|] eqn:Ef.
  - pose proof (first_In _ Ef) as Ht. apply filter_In in Ht.
    destruct Ht as [Ht Hp'].
    repeat (apply andb_prop in Hp'; destruct Hp' as [Hp' ?]).
    apply text_eqb_eq in Hp'.
    repeat match goal with
           | E : text_eqb _ _ = true |- _ => apply text_eqb_eq in E
           | E : of_org _ _ = true |- _ => apply of_org_eq in E
           end.
    assert (Heq : t = self').
    { apply (@unique_together_one_per_flag rows' t self' (c :: org));
        auto; congruence. }
    rewrite Heq. reflexivity.
  - apply first_None in Ef. rewrite Ef in Hm. destruct Hm.
Qed.

Lemma activate_then_lookup_returns_it_witness :
  let v1 := Sample.row 1 Sample.org_a (T "en") 1 false draft in
  exists rows' self',
    activate [v1] v1 100 (T "system") = (Ok true, rows', self') /\
    get_active_template rows' (T "welcome") (T "en") (Some Sample.org_a)
    = Ok (Some self').
Proof.
  cbv zeta. eexists. eexists. split; [vm_compute; reflexivity|].
  apply (@activate_then_lookup_returns_it
           [Sample.row 1 Sample.org_a (T "en") 1 false draft]
           (Sample.row 1 Sample.org_a (T "en") 1 false draft)
           100 (T "system") _ _ Sample.org_a eq_refl eq_refl).
  discriminate.
Defined.

End TableFacts.

Section LookupFacts.
Import Models.

Lemma active_default_spec :
  forall rows code_ language_ org t,
    active_default rows code_ language_ org = Some t ->
    In t rows /\ code t = code_ /\ language t = language_ /\
    status t = active /\ is_default t = true /\ organization t = Some org.
Proof.
  intros rows code_ language_ org t H. unfold active_default in H.
  apply first_In in H. apply filter_In in H. destruct H as [Hin Hp].
  repeat (apply andb_prop in Hp; destruct Hp as [Hp ?]).
  apply text_eqb_eq in Hp.
  repeat match goal with
         | E : text_eqb _ _ = true |- _ => apply text_eqb_eq in E
         | E : of_org _ _ = true |- _ => apply of_org_eq in E
         | E : status_eqb _ _ = true |- _ => apply status_eqb_eq in E
         end.
  repeat split; assumption.
Qed.

Lemma active_default_found :
  forall rows code_ language_ org r,
    In r rows -> code r = code_ -> language r = language_ ->
    status r = active -> is_default r = true -> organization r = Some org ->
    exists t, active_default rows code_ language_ org = Some t.
Proof.
  intros rows code_ language_ org r Hin Hc Hl Hs Hd Ho.
  unfold active_default.
  match goal with
  | |- context [first ?l] => destruct (first l) as [t|] eqn:Ef
  end; [eauto|].
  apply first_None in Ef.
  assert (Hf : In r (filter (fun r0 => text_eqb (code r0) code_ &&
                                       text_eqb (language r0) language_ &&
                                       status_eqb (status r0) active &&
                                       is_default r0 && of_org org r0) rows)).
  { apply filter_In. split; [exact Hin|].
    rewrite Hc, Hl, Hs, Hd, !text_eqb_refl. simpl.
    apply of_org_eq. exact Ho. }
  rewrite Ef in Hf. destruct Hf.
Qed.

Lemma get_active_template_candidate :
  forall rows code_ language_ organization_id t,
    get_active_template rows code_ language_ organization_id = Ok (Some t) ->
    exists org,
      organization_id = Some org /\ org <> [] /\
      In t rows /\ Spec.candidate code_ org t = true.
Proof.
  intros rows code_ language_ organization_id t H.
  unfold get_active_template in H.
  destruct organization_id as [[|c org]|]; try discriminate.
  exists (c :: org). split; [reflexivity|]. split; [discriminate|].
  unfold Spec.candidate.
  destruct (active_default rows code_ language_ (c :: org)) as [t1|] eqn:E1.
  { inversion H; subst. apply active_default_spec in E1.
    destruct E1 as (Hin & Hc & _ & Hs & _ & Ho).
    split; [exact Hin|].
    rewrite Hc, Hs, text_eqb_refl. simpl. apply of_org_eq. exact Ho. }
  destruct (if negb (text_eqb language_ (T "en"))
            then active_default rows code_ (T "en") (c :: org)
            else None) as [t2|] eqn:E2.
  { inversion H; subst.
    destruct (negb (text_eqb language_ (T "en"))); [|discriminate].
    apply active_default_spec in E2.
    destruct E2 as (Hin & Hc & _ & Hs & _ & Ho).
    split; [exact Hin|].
    rewrite Hc, Hs, text_eqb_refl. simpl. apply of_org_eq. exact Ho. }
  inversion H as [Hf]. apply first_In in Hf. apply filter_In in Hf.
  exact Hf.
Qed.

(** Whatever [get_active_template] returns is a row of the table that is
    active, has the code asked for and belongs to the organization asked
    for; the call needs an organization id. *)
Theorem get_active_template_returns_active_row_of_organization :
  forall rows code_ language_ organization_id t,
    get_active_template rows code_ language_ organization_id = Ok (Some t) ->
    exists org,
      organization_id = Some org /\ org <> [] /\
      In t rows /\ code t = code_ /\ status t = active /\
      organization t = Some org.
Proof.
  intros rows code_ language_ organization_id t H.
  destruct (get_active_template_candidate _ _ _ _ H)
    as (org & Ho & Hne & Hin & Hp).
  exists org. split; [exact Ho|]. split; [exact Hne|]. split; [exact Hin|].
  unfold Spec.candidate in Hp.
  apply andb_prop in Hp. destruct Hp as [Hp Horg].
  apply andb_prop in Hp. destruct Hp as [Hc Hs].
  apply text_eqb_eq in Hc. apply status_eqb_eq in Hs.
  apply of_org_eq in Horg. repeat split; assumption.
Qed.

Lemma get_active_template_returns_active_row_of_organization_witness :
  exists org,
    Some Sample.org_a = Some org /\ org <> [] /\
    In (Sample.row 2 Sample.org_a (T "it") 3 false active)
       [Sample.row 1 Sample.org_a (T "de") 1 true active;
        Sample.row 2 Sample.org_a (T "it") 3 false active;
        Sample.row 3 Sample.org_b (T "fr") 9 true active] /\
    code (Sample.row 2 Sample.org_a (T "it") 3 false active) = T "welcome" /\
    status (Sample.row 2 Sample.org_a (T "it") 3 false active) = active /\
    organization (Sample.row 2 Sample.org_a (T "it") 3 false active) = Some org.
Proof.
  apply (@get_active_template_returns_active_row_of_organization
           _ (T "welcome") (T "fr") (Some Sample.org_a)).
  vm_compute. reflexivity.
Defined.

(** The order of preference: an active default in the language asked for
    is returned if the organization has one; if it has none, and the
    language is not English, an active default in English is returned if
    there is one. *)
Theorem get_active_template_prefers_language_then_english :
  forall rows code_ language_ org,
    org <> [] ->
    (forall r, In r rows -> code r = code_ -> language r = language_ ->
               status r = active -> is_default r = true ->
               organization r = Some org ->
       exists t,
         get_active_template rows code_ language_ (Some org) = Ok (Some t) /\
         language t = language_ /\ is_default t = true) /\
    (active_default rows code_ language_ org = None ->
     forall r, In r rows -> code r = code_ -> language r = T "en" ->
               status r = active -> is_default r = true ->
               organization r = Some org ->
       exists t,
         get_active_template rows code_ language_ (Some org) = Ok (Some t) /\
         language t = T "en" /\ is_default t = true).
Proof.
  intros rows code_ language_ org Hne. split.
  - intros r Hin Hc Hl Hs Hd Ho.
    destruct (@active_default_found rows _ _ _ _ Hin Hc Hl Hs Hd Ho) as [t Ht].
    exists t. unfold get_active_template.
    destruct org as [|c org]; [congruence|]. rewrite Ht.
    apply active_default_spec in Ht. tauto.
  - intros Hnone r Hin Hc Hl Hs Hd Ho.
    destruct (@active_default_found rows _ _ _ _ Hin Hc Hl Hs Hd Ho) as [t Ht].
    exists t. unfold get_active_template.
    destruct org as [|c org]; [congruence|]. rewrite Hnone.
    destruct (text_eqb language_ (T "en")) eqn:El.
    + apply text_eqb_eq in El. subst language_. congruence.
    + cbn [negb]. rewrite Ht. apply active_default_spec in Ht. tauto.
Qed.

Lemma get_active_template_prefers_language_then_english_witness :
  let rows := [Sample.row 1 Sample.org_a (T "en") 1 true active;
               Sample.row 2 Sample.org_a (T "fr") 2 true active] in
  exists t,
    get_active_template rows (T "welcome") (T "fr") (Some Sample.org_a)
    = Ok (Some t) /\
    language t = T "fr" /\ is_default t = true.
Proof.
  cbv zeta.
  refine (proj1 (@get_active_template_prefers_language_then_english
                   _ (T "welcome") (T "fr") Sample.org_a _)
                (Sample.row 2 Sample.org_a (T "fr") 2 true active)
                _ _ _ _ _ _);
    try reflexivity; try discriminate.
  simpl. auto.
Defined.

(** What [archive] leaves behind when it returns [True] *)
Lemma archive_success :
  forall rows self now by_ rows' self',
    archive rows self now by_ = (Ok true, rows', self') ->
    id self' = id self /\ status self' = archived /\
    save rows self' = Ok rows'.
Proof.
  intros rows self now by_ rows' self' H. unfold archive in H.
  destruct (status_eqb (status self) archived); [discriminate|].
  destruct (organization self) as [org|]; [|discriminate].
  destruct (is_default self && negb _); [discriminate|].
  match type of H with
  | context [save rows ?s] => destruct (save rows s) eqn:Es
  end; [|discriminate].
  inversion H; subst. cbn [id status]. auto.
Qed.

(** Archive, then fetch: after a successful [archive] no lookup, for any
    code, language or organization, returns the archived version. *)
Theorem archived_version_is_not_served :
  forall rows self now by_ rows' self',
    archive rows self now by_ = (Ok true, rows', self') ->
    forall code_ language_ organization_id t,
      get_active_template rows' code_ language_ organization_id
      = Ok (Some t) ->
      id t <> id self.
Proof.
  intros rows self now by_ rows' self' H code_ language_ organization_id t Ht.
  destruct (archive_success _ _ _ _ H) as (Hid & Hst & Hsave).
  destruct (save_writes_one_row _ _ Hsave) as (_ & _ & Honly & _).
  destruct (get_active_template_candidate _ _ _ _ Ht)
    as (org & _ & _ & Hin & Hcand).
  assert (Hact : status t = active).
  { unfold Spec.candidate in Hcand.
    apply andb_prop in Hcand. destruct Hcand as [Hcand _].
    apply andb_prop in Hcand. destruct Hcand as [_ Hcand].
    apply status_eqb_eq. exact Hcand. }
  intros Heq.
  assert (t = self') by (apply Honly; [exact Hin|congruence]).
  subst t. congruence.
Qed.

Lemma archived_version_is_not_served_witness :
  let v1 := Sample.row 1 Sample.org_a (T "en") 1 true active in
  let v2 := Sample.row 2 Sample.org_a (T "en") 2 false active in
  id v1 <> id v2.
Proof.
  cbv zeta.
  apply (@archived_version_is_not_served
           [Sample.row 1 Sample.org_a (T "en") 1 true active;
            Sample.row 2 Sample.org_a (T "en") 2 false active]
           (Sample.row 2 Sample.org_a (T "en") 2 false active)
           100%Z (T "system")
           (snd (fst (archive
                        [Sample.row 1 Sample.org_a (T "en") 1 true active;
                         Sample.row 2 Sample.org_a (T "en") 2 false active]
                        (Sample.row 2 Sample.org_a (T "en") 2 false active)
                        100%Z (T "system"))))
           (snd (archive
                   [Sample.row 1 Sample.org_a (T "en") 1 true active;
                    Sample.row 2 Sample.org_a (T "en") 2 false active]
                   (Sample.row 2 Sample.org_a (T "en") 2 false active)
                   100%Z (T "system")))
           ltac:(vm_compute; reflexivity)
           (T "welcome") (T "en") (Some Sample.org_a)
           (Sample.row 1 Sample.org_a (T "en") 1 true active)).
  vm_compute. reflexivity.
Defined.

(** The two transitions are atomic: unless the call returns [True] the
    table is what it was, and a table that satisfies the constraints
    satisfies them afterwards in every case. *)
Theorem transitions_are_atomic :
  forall rows self now by_,
    (fst (fst (activate rows self now by_)) <> Ok true ->
     snd (fst (activate rows self now by_)) = rows) /\
    (fst (fst (archive rows self now by_)) <> Ok true ->
     snd (fst (archive rows self now by_)) = rows) /\
    (constraints_ok rows = true ->
     constraints_ok (snd (fst (activate rows self now by_))) = true /\
     constraints_ok (snd (fst (archive rows self now by_))) = true).
Proof.
  intros rows self now by_. split; [|split].
  - unfold activate.
    destruct (status_eqb (status self) active); [reflexivity|].
    destruct (organization self); [|reflexivity].
    destruct (update rows _ _) as [rows1|e]; [|reflexivity].
    match goal with
    | |- context [save rows1 ?s] => destruct (save rows1 s)
    end; [|reflexivity].
    simpl. congruence.
  - unfold archive.
    destruct (status_eqb (status self) archived); [reflexivity|].
    destruct (organization self); [|reflexivity].
    destruct (is_default self && negb _); [reflexivity|].
    match goal with
    | |- context [save rows ?s] => destruct (save rows s)
    end; [|reflexivity].
    simpl. congruence.
  - intros Hok. split.
    + destruct (activate rows self now by_) as [[res rows'] self'] eqn:E.
      simpl. destruct res as [[|]|e].
      * destruct (activate_saved _ _ _ _ E) as [H _]. exact H.
      * unfold activate in E.
        destruct (status_eqb (status self) active);
          [inversion E; subst; exact Hok|].
        destruct (organization self); [|discriminate].
        destruct (update rows _ _) as [rows1|e]; [|discriminate].
        match type of E with
        | context [save rows1 ?s] => destruct (save rows1 s)
        end; discriminate.
      * unfold activate in E.
        destruct (status_eqb (status self) active); [discriminate|].
        destruct (organization self); [|inversion E; subst; exact Hok].
        destruct (update rows _ _) as [rows1|e'];
          [|inversion E; subst; exact Hok].
        match type of E with
        | context [save rows1 ?s] => destruct (save rows1 s)
        end; [discriminate|inversion E; subst; exact Hok].
    + destruct (archive rows self now by_) as [[res rows'] self'] eqn:E.
      simpl. destruct res as [[|]|e].
      * destruct (archive_success _ _ _ _ E) as (_ & _ & Hs).
        destruct (save_writes_one_row _ _ Hs) as [H _]. exact H.
      * unfold archive in E.
        destruct (status_eqb (status self) archived);
          [inversion E; subst; exact Hok|].
        destruct (organization self); [|discriminate].
        destruct (is_default self && negb _); [discriminate|].
        match type of E with
        | context [save rows ?s] => destruct (save rows s)
        end; discriminate.
      * unfold archive in E.
        destruct (status_eqb (status self) archived); [discriminate|].
        destruct (organization self); [|inversion E; subst; exact Hok].
        destruct (is_default self && negb _);
          [inversion E; subst; exact Hok|].
        match type of E with
        | context [save rows ?s] => destruct (save rows s)
        end; [discriminate|inversion E; subst; exact Hok].
Qed.

Lemma transitions_are_atomic_witness :
  let v1 := Sample.row 1 Sample.org_a (T "en") 1 true active in
  let v2 := Sample.row 2 Sample.org_a (T "en") 2 false draft in
  snd (fst (activate [v1; v2] v2 100 (T "system"))) = [v1; v2].
Proof.
  cbv zeta.
  refine (proj1 (@transitions_are_atomic _ _ 100 (T "system")) _).
  vm_compute. discriminate.
Defined.

End LookupFacts.

(** ** The Redis client *)

Section ClientFacts.
Import RedisClient.
Variable server : nat -> ping_outcome.

Ltac client_case :=
  cbn; unfold _handle_connection_error; cbn;
  repeat match goal with
         | |- context [if ?b then _ else _] => destruct b
         end;
  cbn; repeat split; try lia; try discriminate; try reflexivity;
  try match goal with
      | H : Err _ = Err ?e, H0 : is_transient ?e = true |- _ =>
          inversion H; subst; discriminate H0
      end.

(** One attempt of [get_connection] *)
Lemma get_connection_body_facts :
  forall c,
    let r := get_connection_body server c in
    pings c <= pings (snd r) /\ pings (snd r) <= pings c + 2 /\
    waits (snd r) = waits c /\
    _connection_errors c <= _connection_errors (snd r) /\
    _connection_errors (snd r) <= _connection_errors c + 1 /\
    (fst r = Ok tt -> _is_connected (snd r) = true) /\
    (forall e, fst r = Err e -> is_transient e = true ->
               _connection_errors (snd r) = S (_connection_errors c) /\
               _is_connected (snd r) = false).
Proof.
  intros c. cbn zeta. unfold get_connection_body, _initialize.
  destruct c as [conn errs pool p w]. cbn [_is_connected pings].
  destruct conn.
  - cbn [fst snd has_pool pings negb]. destruct pool; cbn [negb].
    + destruct (server p) as [|e] eqn:Es.
      * client_case.
      * destruct e; client_case.
    + client_case.
  - destruct (server p) as [|e0] eqn:Es0.
    + cbn [fst snd has_pool pings negb].
      destruct (server (S p)) as [|e] eqn:Es.
      * client_case.
      * destruct e; client_case.
    + client_case.
Qed.

(** The body passes a [RetryError] on only if the server raised one. *)
Lemma get_connection_body_RetryError :
  forall c e,
    fst (get_connection_body server c) = Err (RetryError e) ->
    exists k, server k = Raises (RetryError e).
Proof.
  intros c e. unfold get_connection_body, _initialize.
  destruct c as [conn errs pool p w]. cbn [_is_connected pings].
  destruct conn.
  - cbn [fst snd has_pool pings negb]. destruct pool; cbn [negb].
    + destruct (server p) as [|e0] eqn:Es; [discriminate|].
      destruct e0; cbn; try discriminate.
      intros H. inversion H; subst. eauto.
    + discriminate.
  - destruct (server p) as [|e0] eqn:Es0; [|discriminate].
    cbn [fst snd has_pool pings negb].
    destruct (server (S p)) as [|e1] eqn:Es; [discriminate|].
    destruct e1; cbn; try discriminate.
    intros H. inversion H; subst. eauto.
Qed.

Ltac retry_fin Hre :=
  repeat split; try lia; try discriminate; auto; intros;
  try match goal with
      | H : Err _ = Err ?x |- is_transient ?x = false =>
          inversion H; subst; (assumption || reflexivity)
      end;
  try match goal with
      | H : Err _ = Err (RetryError ?x),
        Hs : forall k e', server k = Raises e' -> _ |- _ =>
          exfalso; destruct (Hre x H) as [k Hk];
          destruct (Hs k _ Hk) as [Hx|[Hx|Hx]]; discriminate Hx
      end.

Lemma retrying_facts :
  forall left c,
    let r := retrying (get_connection_body server) left c in
    pings c <= pings (snd r) /\ pings (snd r) <= pings c + 2 * S left /\
    waits c <= waits (snd r) /\ waits (snd r) <= waits c + left /\
    _connection_errors c <= _connection_errors (snd r) /\
    _connection_errors (snd r) <= _connection_errors c + S left /\
    (fst r = Ok tt -> _is_connected (snd r) = true) /\
    (forall e, fst r = Err e -> is_transient e = false) /\
    (forall e, fst r = Err (RetryError e) ->
               (forall k e', server k = Raises e' ->
                             e' = ConnectionError \/ e' = TimeoutError \/
                             e' = ResponseError) ->
               _connection_errors (snd r) = _connection_errors c + S left /\
               waits (snd r) = waits c + left /\
               _is_connected (snd r) = false).
Proof.
  induction left as [|left IH]; intros c; cbn zeta;
    pose proof (get_connection_body_facts c) as Hb; cbn zeta in Hb;
    destruct Hb as (Hp1 & Hp2 & Hw & He1 & He2 & Hok & Htr);
    pose proof (get_connection_body_RetryError c) as Hre;
    cbn [retrying];
    destruct (get_connection_body server c) as [[[]|e] c'] eqn:Eb;
    cbn [fst snd] in *.
  - retry_fin Hre.
  - destruct (is_transient e) eqn:Et; cbn [fst snd].
    + destruct (Htr e eq_refl Et) as [Hc Hd]. retry_fin Hre.
    + retry_fin Hre.
  - retry_fin Hre.
  - destruct (is_transient e) eqn:Et; cbn [fst snd].
    + destruct (Htr e eq_refl Et) as [Hc Hd].
      specialize (IH (wait c')). cbn zeta in IH.
      destruct IH as (I1 & I2 & I3 & I4 & I5 & I6 & I7 & I8 & I9).
      cbn [wait pings waits _connection_errors] in *.
      repeat split; try lia; eauto;
        match goal with
        | H : fst _ = Err (RetryError ?x),
          Hs : forall k e', server k = Raises e' -> _ |- _ =>
            destruct (I9 x H Hs) as (J1 & J2 & J3); try lia; auto
        end.
    + retry_fin Hre.
Qed.

(** A connection is only handed out by a client that is marked connected. *)
Theorem get_connection_success_means_connected :
  forall c,
    fst (get_connection server c) = Ok tt ->
    _is_connected (snd (get_connection server c)) = true.
Proof.
  intros c H. unfold get_connection in *.
  pose proof (retrying_facts (3 - 1) c) as F. cbn zeta in F.
  destruct F as (_ & _ & _ & _ & _ & _ & F & _). apply F. exact H.
Qed.

(** One call of [get_connection] is bounded: at most three attempts, so at
    most six pings, two sleeps and three more recorded errors; the error
    counter never goes down; and the call never raises a bare
    [redis.ConnectionError] or [redis.TimeoutError], which are either
    retried or, at the last attempt, wrapped in [RetryError]. *)
Theorem get_connection_is_bounded :
  forall c,
    let r := get_connection server c in
    pings (snd r) <= pings c + 6 /\
    waits (snd r) <= waits c + 2 /\
    _connection_errors c <= _connection_errors (snd r) /\
    _connection_errors (snd r) <= _connection_errors c + 3 /\
    fst r <> Err ConnectionError /\ fst r <> Err TimeoutError.
Proof.
  intros c. cbn zeta. unfold get_connection.
  pose proof (retrying_facts (3 - 1) c) as F. cbn zeta in F.
  destruct F as (_ & F2 & _ & F4 & F5 & F6 & _ & F8 & _).
  cbn [Nat.sub] in *.
  repeat split; try lia.
  - intros H. specialize (F8 _ H). discriminate F8.
  - intros H. specialize (F8 _ H). discriminate F8.
Qed.

(** When the server raises nothing but redis errors, a [RetryError] out of
    [get_connection] means that all three attempts failed on a connection
    or timeout error: three errors were counted, the call slept twice, and
    the client is left marked as disconnected. *)
Theorem get_connection_RetryError_after_three_failures :
  forall c e,
    (forall k e', server k = Raises e' ->
                  e' = ConnectionError \/ e' = TimeoutError \/
                  e' = ResponseError) ->
    fst (get_connection server c) = Err (RetryError e) ->
    _connection_errors (snd (get_connection server c))
      = _connection_errors c + 3 /\
    waits (snd (get_connection server c)) = waits c + 2 /\
    _is_connected (snd (get_connection server c)) = false.
Proof.
  intros c e Hs H. unfold get_connection in *.
  pose proof (retrying_facts (3 - 1) c) as F. cbn zeta in F.
  destruct F as (_ & _ & _ & _ & _ & _ & _ & _ & F9).
  cbn [Nat.sub] in *. exact (F9 e H Hs).
Qed.

Lemma get_connection_body_disconnected_failing :
  forall errs pool p w e,
    server p = Raises e ->
    get_connection_body server (mkClient false errs pool p w)
    = (Err (RedisConnectionError (T "Redis initialization failed")),
       mkClient false errs true (S p) w).
Proof.
  intros errs pool p w e E. unfold get_connection_body, _initialize.
  cbn [_is_connected pings]. rewrite E. reflexivity.
Qed.

Lemma get_connection_body_connected_failing :
  forall errs p w e,
    server p = Raises e -> is_transient e = true ->
    get_connection_body server (mkClient true errs true p w)
    = (Err e, mkClient false (S errs) true (S p) w).
Proof.
  intros errs p w e E Ht. unfold get_connection_body.
  cbn [_is_connected has_pool negb pings]. rewrite E.
  destruct e; try discriminate Ht;
    unfold _handle_connection_error;
    cbn [_is_connected _connection_errors has_pool pings waits];
    destruct (5 <=? S errs); reflexivity.
Qed.

(** A server that fails every ping with a connection or timeout error
    defeats the retry: the first failure marks the client as disconnected,
    the next attempt re-initialises, and the failure of that is raised as
    [RedisConnectionError], which is not retried. The call sends at most
    two pings and sleeps at most once. *)
Theorem get_connection_steady_failure_is_not_retried :
  forall c,
    (forall k, server k = Raises ConnectionError \/
               server k = Raises TimeoutError) ->
    has_pool c = true ->
    (exists msg,
        fst (get_connection server c) = Err (RedisConnectionError msg)) /\
    pings (snd (get_connection server c)) <= pings c + 2 /\
    waits (snd (get_connection server c)) <= waits c + 1 /\
    _is_connected (snd (get_connection server c)) = false.
Proof.
  intros c Hs Hp.
  assert (Hs' : forall k, exists e, server k = Raises e /\
                                    is_transient e = true).
  { intros k. destruct (Hs k) as [E|E]; rewrite E; eauto. }
  unfold get_connection. cbn [Nat.sub].
  destruct c as [conn errs pool p w]. cbn [has_pool] in Hp. subst pool.
  destruct conn.
  - destruct (Hs' p) as (e & E & Ht).
    destruct (Hs' (S p)) as (e' & E' & _).
    assert (Heq : retrying (get_connection_body server) 2
                    (mkClient true errs true p w)
                  = (Err (RedisConnectionError
                            (T "Redis initialization failed")),
                     mkClient false (S errs) true (S (S p)) (S w))).
    { cbn [retrying].
      rewrite (get_connection_body_connected_failing errs w E Ht).
      rewrite Ht. unfold wait.
      cbn [_is_connected _connection_errors has_pool pings waits].
      rewrite (get_connection_body_disconnected_failing
                 (S errs) true (S w) E').
      reflexivity. }
    rewrite Heq. cbn [fst snd pings waits _is_connected].
    split; [eexists; reflexivity|]. repeat split; lia.
  - destruct (Hs' p) as (e & E & Ht).
    assert (Heq : retrying (get_connection_body server) 2
                    (mkClient false errs true p w)
                  = (Err (RedisConnectionError
                            (T "Redis initialization failed")),
                     mkClient false errs true (S p) w)).
    { cbn [retrying].
      rewrite (get_connection_body_disconnected_failing errs true w E).
      reflexivity. }
    rewrite Heq. cbn [fst snd pings waits _is_connected].
    split; [eexists; reflexivity|]. repeat split; lia.
Qed.

End ClientFacts.

Lemma get_connection_success_means_connected_witness :
  RedisClient._is_connected
    (snd (RedisClient.get_connection (fun _ => RedisClient.PONG)
            (RedisClient.mkClient false 5 true 0 0)))
  = true.
Proof.
  apply (@get_connection_success_means_connected (fun _ => RedisClient.PONG)
           (RedisClient.mkClient false 5 true 0 0)).
  reflexivity.
Defined.

Lemma get_connection_RetryError_after_three_failures_witness :
  let server := fun k : nat =>
    if Nat.even k then RedisClient.Raises RedisClient.TimeoutError
    else RedisClient.PONG in
  let c := RedisClient.mkClient true 0 true 0 0 in
  RedisClient._connection_errors (snd (RedisClient.get_connection server c))
    = 3 /\
  RedisClient.waits (snd (RedisClient.get_connection server c)) = 2 /\
  RedisClient._is_connected (snd (RedisClient.get_connection server c))
    = false.
Proof.
  intros server c.
  apply (@get_connection_RetryError_after_three_failures server c
           RedisClient.TimeoutError).
  - intros k e' H. unfold server in H.
    destruct (Nat.even k); inversion H. auto.
  - vm_compute. reflexivity.
Defined.

Lemma get_connection_steady_failure_is_not_retried_witness :
  let server := fun _ : nat => RedisClient.Raises RedisClient.TimeoutError in
  let c := RedisClient.mkClient true 0 true 0 0 in
  (exists msg,
      fst (RedisClient.get_connection server c)
      = Err (RedisClient.RedisConnectionError msg)) /\
  RedisClient.pings (snd (RedisClient.get_connection server c)) <= 0 + 2 /\
  RedisClient.waits (snd (RedisClient.get_connection server c)) <= 0 + 1 /\
  RedisClient._is_connected (snd (RedisClient.get_connection server c))
    = false.
Proof.
  intros server c.
  apply (@get_connection_steady_failure_is_not_retried server c).
  - intros k. right. reflexivity.
  - reflexivity.
Defined.

(** ** The renderer *)

Section RendererFacts.
Import Re Py TemplateRenderer.

Lemma collect_missing :
  forall variables escape_html matches,
    snd (collect variables escape_html matches)
    = filter (fun n => negb (Shapes.bound variables n))
             (map (fun sm : span * rmatch => group1 (snd sm)) matches).
Proof.
  intros variables escape_html matches.
  induction matches as [|[sp m] matches IH]; [reflexivity|].
  cbn [collect map filter snd].
  destruct (collect variables escape_html matches) as [rs ms].
  cbn [snd] in IH. unfold Shapes.bound at 1.
  destruct (dict_get variables (group1 m)); cbn [negb snd];
    rewrite IH; reflexivity.
Qed.

(** The names [_process_variables] reports as missing are the names of the
    placeholders of the text that are not bound, one for every occurrence
    and in the order of the text. *)
Theorem process_variables_missing_are_unbound_placeholders :
  forall content variables escape_html,
    snd (_process_variables content variables escape_html)
    = filter (fun n => negb (Shapes.bound variables n))
             (Shapes.placeholder_names content).
Proof.
  intros content variables escape_html.
  unfold _process_variables, Shapes.placeholder_names,
    TemplateVariables.findall.
  pose proof (collect_missing variables escape_html
                (finditer VARIABLE_PATTERN content)) as H.
  destruct (collect variables escape_html (finditer VARIABLE_PATTERN content))
    as [rs ms].
  exact H.
Qed.

Lemma VARIABLE_PATTERN_no_open :
  forall s, starts_with (T "{{") s = None -> VARIABLE_PATTERN s = None.
Proof.
  intros s H. unfold VARIABLE_PATTERN, lbrace2. rewrite H. reflexivity.
Qed.

Lemma scan_variable_free :
  forall s, occurs (T "{{") s = false -> scan VARIABLE_PATTERN s = map Lit s.
Proof.
  induction s as [|c s IH]; intros Ho; [reflexivity|].
  apply occurs_false_cons in Ho. destruct Ho as [Hs Ho].
  rewrite (scan_cons VARIABLE_PATTERN_sound).
  rewrite (VARIABLE_PATTERN_no_open _ Hs). simpl. f_equal. apply IH. exact Ho.
Qed.

(** A text without ["{{"] is rendered to itself, with nothing missing,
    whatever the variables are. *)
Theorem render_plain_text_unchanged :
  forall s variables escape_html,
    occurs (T "{{") s = false ->
    render s variables escape_html = Ok (s, []).
Proof.
  intros s variables escape_html Ho.
  destruct s as [|c s]; [reflexivity|].
  unfold render.
  destruct (@block_free_stages (c :: s) variables
              (occurs_longer (T "{{") (T "#") (c :: s) Ho)) as [Hc Hl].
  rewrite Hc. unfold render_after_conditionals. rewrite Hl.
  cbn [call__process_variables].
  rewrite process_variables_left_to_right.
  rewrite scan_variable_free by exact Ho. rewrite sub_tokens_literal.
  reflexivity.
Qed.

Lemma loop_items_raises :
  forall variables block_content items result_ e,
    loop_items variables block_content items result_ = Err e ->
    e = TypeError
          (T "_process_variables() missing 1 required positional argument: 'escape_html'").
Proof.
  intros variables block_content [|item items] result_ e H.
  - discriminate H.
  - cbn [loop_items call__process_variables] in H. inversion H. reflexivity.
Qed.

Lemma sub_tokens_exn_raises :
  forall variables ts e,
    sub_tokens_exn (replace_loop variables) ts = Err e ->
    e = TypeError
          (T "_process_variables() missing 1 required positional argument: 'escape_html'")
    /\ exists name item items,
         dict_get variables name = Some (VList (item :: items)).
Proof.
  intros variables ts e. induction ts as [|[c|m] ts IH]; cbn [sub_tokens_exn].
  - discriminate.
  - destruct (sub_tokens_exn (replace_loop variables) ts) as [[o ms]|e'];
      [discriminate|].
    intros H. inversion H; subst. apply IH. reflexivity.
  - destruct (replace_loop variables m) as [[r mv]|e'] eqn:E.
    + destruct (sub_tokens_exn (replace_loop variables) ts) as [[o ms]|e''];
        [discriminate|].
      intros H. inversion H; subst. apply IH. reflexivity.
    + intros H. inversion H; subst. clear H.
      unfold replace_loop in E.
      destruct (dict_get variables (group1 m)) as [v|] eqn:Eg;
        [|discriminate].
      destruct v; try discriminate.
      destruct (loop_items variables (group2 m) l []) as [r|e'] eqn:El;
        [discriminate|].
      inversion E; subst. split.
      * exact (loop_items_raises _ _ _ _ El).
      * destruct l as [|item items]; [discriminate El|].
        exists (group1 m), item, items. exact Eg.
Qed.

Lemma render_raises :
  forall content variables escape_html e,
    render content variables escape_html = Err e ->
    e = TypeError
          (T "_process_variables() missing 1 required positional argument: 'escape_html'")
    /\ exists name item items,
         dict_get variables name = Some (VList (item :: items)).
Proof.
  intros content variables escape_html e H.
  unfold render in H. destruct content as [|c content]; [discriminate|].
  destruct (_process_conditionals (c :: content) variables) as [t1 m1].
  unfold render_after_conditionals in H.
  destruct (_process_loops t1 variables) as [[t2 m2]|e'] eqn:El.
  - cbn [call__process_variables] in H.
    destruct (_process_variables t2 variables escape_html). discriminate.
  - inversion H; subst. unfold _process_loops in El.
    exact (sub_tokens_exn_raises _ _ El).
Qed.

(** [render] raises nothing but the [TypeError] of the loop stage, and
    raises it only when some variable is bound to a list that is not
    empty. *)
Theorem render_raises_only_the_loop_TypeError :
  forall content variables escape_html e,
    render content variables escape_html = Err e ->
    (exists msg, e = TypeError msg) /\
    exists name item items,
      dict_get variables name = Some (VList (item :: items)).
Proof.
  intros content variables escape_html e H.
  destruct (render_raises _ _ _ H) as [He Hl].
  split; [eexists; exact He|exact Hl].
Qed.

(** Without a variable bound to a list that is not empty, [render] returns
    for every template text. *)
Theorem render_succeeds_without_list_items :
  forall content variables escape_html,
    (forall name l, dict_get variables name = Some (VList l) -> l = []) ->
    exists out missing,
      render content variables escape_html = Ok (out, missing).
Proof.
  intros content variables escape_html Hl.
  destruct (render content variables escape_html) as [[out missing]|e] eqn:E.
  - eauto.
  - destruct (render_raises _ _ _ E) as (_ & name & item & items & Hg).
    specialize (Hl _ _ Hg). discriminate Hl.
Qed.

(** The missing names [render] returns are distinct, and each of them is
    unbound. *)
Theorem render_missing_distinct_and_unbound :
  forall content variables escape_html out missing,
    render content variables escape_html = Ok (out, missing) ->
    NoDup missing /\
    forall n, In n missing -> dict_get variables n = None.
Proof.
  intros content variables escape_html out missing H. split.
  - unfold render in H. destruct content as [|c content].
    + inversion H. constructor.
    + destruct (_process_conditionals (c :: content) variables) as [t1 m1].
      unfold render_after_conditionals in H.
      destruct (_process_loops t1 variables) as [[t2 m2]|]; [|discriminate].
      cbn [call__process_variables] in H.
      destruct (_process_variables t2 variables escape_html).
      inversion H; subst. unfold list_set. apply NoDup_nodup.
  - intros n Hin. eapply render_missing_unbound; eassumption.
Qed.

End RendererFacts.

Lemma render_plain_text_unchanged_witness :
  TemplateRenderer.render (T "Hello, world") [] true
  = Ok (T "Hello, world", []).
Proof.
  apply (@render_plain_text_unchanged (T "Hello, world") [] true).
  vm_compute. reflexivity.
Defined.

Lemma render_raises_only_the_loop_TypeError_witness :
  exists name item items,
    Py.dict_get [(T "xs", Py.VList [Py.VInt 1])] name
    = Some (Py.VList (item :: items)).
Proof.
  refine (proj2 (@render_raises_only_the_loop_TypeError
                   (T "{{#each xs}}a{{/each}}")
                   [(T "xs", Py.VList [Py.VInt 1])] true
                   (TemplateRenderer.TypeError
                      (T "_process_variables() missing 1 required positional argument: 'escape_html'"))
                   _)).
  vm_compute. reflexivity.
Defined.

Lemma render_succeeds_without_list_items_witness :
  exists out missing,
    TemplateRenderer.render (T "{{#each xs}}a{{/each}} {{name}}")
                            [(T "xs", Py.VList [])] true
    = Ok (out, missing).
Proof.
  apply (@render_succeeds_without_list_items
           (T "{{#each xs}}a{{/each}} {{name}}") [(T "xs", Py.VList [])]
           true).
  intros name l H. cbn [Py.dict_get] in H.
  destruct (text_eqb (T "xs") name); [|discriminate H].
  inversion H. reflexivity.
Defined.

Lemma render_missing_distinct_and_unbound_witness :
  NoDup [T "name"] /\
  forall n, In n [T "name"] -> Py.dict_get [] n = None.
Proof.
  apply (@render_missing_distinct_and_unbound
           (T "{{name}} and {{name}}") [] true (T "{{name}} and {{name}}")
           [T "name"]).
  vm_compute. reflexivity.
Defined.

Section BoundPlaceholders.
Import Re Py TemplateRenderer.

Lemma escape_char_clean :
  forall c x,
    In x (escape_char c) ->
    x <> "<"%char /\ x <> ">"%char /\ x <> dquote /\ x <> squote.
Proof.
  intros c x. unfold escape_char.
  destruct (Ascii.eqb_spec c "&"%char) as [->|Hamp].
  { intros H. vm_compute in H.
    repeat (destruct H as [<-|H]; [repeat split; discriminate|]).
    destruct H. }
  destruct (Ascii.eqb_spec c "<"%char) as [->|Hlt].
  { intros H. vm_compute in H.
    repeat (destruct H as [<-|H]; [repeat split; discriminate|]).
    destruct H. }
  destruct (Ascii.eqb_spec c ">"%char) as [->|Hgt].
  { intros H. vm_compute in H.
    repeat (destruct H as [<-|H]; [repeat split; discriminate|]).
    destruct H. }
  destruct (Ascii.eqb_spec c dquote) as [->|Hdq].
  { intros H. vm_compute in H.
    repeat (destruct H as [<-|H]; [repeat split; discriminate|]).
    destruct H. }
  destruct (Ascii.eqb_spec c squote) as [->|Hsq].
  { intros H. vm_compute in H.
    repeat (destruct H as [<-|H]; [repeat split; discriminate|]).
    destruct H. }
  intros [<-|[]]. repeat split; assumption.
Qed.

Lemma html_escape_clean :
  forall s x,
    In x (html_escape s) ->
    x <> "<"%char /\ x <> ">"%char /\ x <> dquote /\ x <> squote.
Proof.
  intros s x H. unfold html_escape in H. apply in_flat_map in H.
  destruct H as (c & _ & Hc). exact (escape_char_clean c x Hc).
Qed.

Lemma process_variables_bound_placeholder :
  forall pre name post variables escape_html value,
    Spec.is_name name = true ->
    dict_get variables name = Some value ->
    _process_variables (pre ++ Spec.placeholder name ++ post) variables
                       escape_html
    = (fst (_process_variables pre variables escape_html)
         ++ Spec.value_text escape_html value
         ++ fst (_process_variables post variables escape_html),
       snd (_process_variables pre variables escape_html)
         ++ snd (_process_variables post variables escape_html)).
Proof.
  intros pre name post variables escape_html value Hn Hv.
  rewrite !process_variables_left_to_right.
  assert (Hsplit :
            scan VARIABLE_PATTERN (pre ++ Spec.placeholder name ++ post)
            = scan VARIABLE_PATTERN pre
                ++ Match (mk_rmatch name [] (Spec.placeholder name))
                :: scan VARIABLE_PATTERN post).
  { pose proof (VARIABLE_PATTERN_placeholder name post Hn) as Hp.
    unfold Spec.placeholder in *. repeat rewrite <- app_assoc in *.
    rewrite scan_variable_app. f_equal.
    simpl app in *. rewrite (scan_cons VARIABLE_PATTERN_sound).
    rewrite Hp. reflexivity. }
  assert (Hrv : Spec.replace_variable variables escape_html
                  (mk_rmatch name [] (Spec.placeholder name))
                = (Spec.value_text escape_html value, [])).
  { unfold Spec.replace_variable. cbn [group1 group0]. rewrite Hv.
    reflexivity. }
  rewrite Hsplit, sub_tokens_app. cbn [sub_tokens]. rewrite Hrv.
  destruct (sub_tokens (Spec.replace_variable variables escape_html)
              (scan VARIABLE_PATTERN post)) as [o ms].
  cbn [fst snd app]. reflexivity.
Qed.

(** A placeholder of a bound name is replaced by the text of its value
    ([None] gives the empty text) and is not reported missing; the text
    before and the text after it are processed on their own. With
    [escape_html] the text put in has none of the characters [<], [>],
    double quote and single quote. In a text without block syntax this is
    the output of [render]. *)
Theorem bound_placeholder_replaced_by_value :
  forall pre name post variables escape_html value,
    Spec.is_name name = true ->
    dict_get variables name = Some value ->
    let before := _process_variables pre variables escape_html in
    let after := _process_variables post variables escape_html in
    let put_in := Spec.value_text escape_html value in
    _process_variables (pre ++ Spec.placeholder name ++ post) variables
                       escape_html
    = (fst before ++ put_in ++ fst after, snd before ++ snd after) /\
    (value = VNone -> put_in = []) /\
    (escape_html = true ->
     forall x, In x put_in ->
               x <> "<"%char /\ x <> ">"%char /\ x <> dquote /\
               x <> squote) /\
    (occurs (T "{{#") (pre ++ Spec.placeholder name ++ post) = false ->
     render (pre ++ Spec.placeholder name ++ post) variables escape_html
     = Ok (fst before ++ put_in ++ fst after,
           list_set (snd before ++ snd after))).
Proof.
  intros pre name post variables escape_html value Hn Hv before after put_in.
  pose proof (@process_variables_bound_placeholder pre name post variables
                escape_html value Hn Hv) as Hpv.
  fold before in Hpv. fold after in Hpv. fold put_in in Hpv.
  split; [exact Hpv|]. split; [|split].
  - intros ->. unfold put_in, Spec.value_text.
    destruct escape_html; reflexivity.
  - intros -> x Hx. unfold put_in, Spec.value_text in Hx.
    eapply html_escape_clean. exact Hx.
  - intros Ho.
    destruct (block_free_stages _ variables Ho) as [Hc Hl].
    unfold render.
    destruct (pre ++ Spec.placeholder name ++ post) as [|c s] eqn:Es.
    + destruct pre; discriminate Es.
    + rewrite Hc. unfold render_after_conditionals. rewrite Hl.
      cbn [call__process_variables]. rewrite Hpv. reflexivity.
Qed.

End BoundPlaceholders.

Lemma bound_placeholder_replaced_by_value_witness :
  TemplateRenderer.render (T "Hi {{name}}!")
                          [(T "name", Py.VStr (T "<b>Ann</b>"))] true
  = Ok (T "Hi &lt;b&gt;Ann&lt;/b&gt;!", []).
Proof.
  pose proof (@bound_placeholder_replaced_by_value
                (T "Hi ") (T "name") (T "!")
                [(T "name", Py.VStr (T "<b>Ann</b>"))] true
                (Py.VStr (T "<b>Ann</b>")) eq_refl eq_refl) as H.
  cbn zeta in H. destruct H as (_ & _ & _ & H).
  exact (H eq_refl).
Defined.

Section LoopBlocks.
Import Re Py TemplateRenderer.

Lemma unbordered_each_open : unbordered (block_open (T "each")).
Proof.
  intros k Hk Hl. simpl in Hl.
  do 8 (destruct k as [|k]; [try lia; reflexivity|]). lia.
Qed.

Lemma unbordered_each_close : unbordered (block_close (T "each")).
Proof.
  intros k Hk Hl. simpl in Hl.
  do 9 (destruct k as [|k]; [try lia; reflexivity|]). lia.
Qed.

Lemma LOOP_PATTERN_block :
  forall name body rest,
    Spec.is_name name = true ->
    occurs (T "{{/each}}") body = false ->
    LOOP_PATTERN (Shapes.each_block name body ++ rest)
    = Some (mk_rmatch name body (Shapes.each_block name body), rest).
Proof.
  intros name body rest Hn Hb.
  destruct (is_name_word _ Hn) as [Hne Hw].
  unfold LOOP_PATTERN, block_pattern, Shapes.each_block.
  change (block_open (T "each")) with (T "{{#each ").
  change (block_close (T "each")) with (T "{{/each}}").
  repeat rewrite <- app_assoc.
  rewrite starts_with_app.
  rewrite (span_word_stops name (T "}}" ++ body ++ T "{{/each}}" ++ rest) Hw)
    by reflexivity.
  destruct name as [|c name]; [congruence|].
  unfold rbrace2. rewrite starts_with_app.
  rewrite (@find_sub_first (T "{{/each}}") body rest unbordered_each_close Hb).
  reflexivity.
Qed.

Lemma scan_loop_literal :
  forall lit x,
    occurs (T "{{#each ") lit = false ->
    x = [] \/ (exists y, x = T "{{#each " ++ y) ->
    scan LOOP_PATTERN (lit ++ x) = map Lit lit ++ scan LOOP_PATTERN x.
Proof.
  induction lit as [|c lit IH]; intros x Ho Hx; [reflexivity|].
  apply occurs_false_cons in Ho. destruct Ho as [Hs Ho].
  change ((c :: lit) ++ x) with (c :: (lit ++ x)).
  rewrite (scan_cons (@block_pattern_sound (T "each"))).
  assert (Hnone : LOOP_PATTERN (c :: lit ++ x) = None).
  { apply block_pattern_no_open.
    change (c :: lit ++ x) with ((c :: lit) ++ x).
    destruct Hx as [->|[y ->]].
    - rewrite app_nil_r. exact Hs.
    - apply (@starts_with_before (T "{{#each ") (c :: lit) y
               unbordered_each_open); [discriminate|exact Hs]. }
  unfold LOOP_PATTERN in *.
  rewrite Hnone. simpl. f_equal. apply IH; assumption.
Qed.

Lemma sub_tokens_exn_literal_app :
  forall repl lit ts,
    sub_tokens_exn repl (map Lit lit ++ ts)
    = match sub_tokens_exn repl ts with
      | Ok (out, missing) => Ok (lit ++ out, missing)
      | Err e => Err e
      end.
Proof.
  intros repl lit ts. induction lit as [|c lit IH]; cbn [map app].
  - destruct (sub_tokens_exn repl ts) as [[o m]|e]; reflexivity.
  - cbn [sub_tokens_exn]. rewrite IH.
    destruct (sub_tokens_exn repl ts) as [[o m]|e]; reflexivity.
Qed.

Lemma process_loops_block :
  forall lit name body rest variables,
    occurs (T "{{#each ") lit = false ->
    Spec.is_name name = true ->
    occurs (T "{{/each}}") body = false ->
    _process_loops (lit ++ Shapes.each_block name body ++ rest) variables
    = match dict_get variables name with
      | Some (VList (_ :: _)) =>
          Err (TypeError
                 (T "_process_variables() missing 1 required positional argument: 'escape_html'"))
      | Some _ =>
          match _process_loops rest variables with
          | Ok (out, missing) => Ok (lit ++ out, missing)
          | Err e => Err e
          end
      | None =>
          match _process_loops rest variables with
          | Ok (out, missing) => Ok (lit ++ out, name :: missing)
          | Err e => Err e
          end
      end.
Proof.
  intros lit name body rest variables Hl Hn Hb.
  unfold _process_loops.
  rewrite scan_loop_literal;
    [|exact Hl
     |right; exists (name ++ T "}}" ++ body ++ T "{{/each}}" ++ rest);
      unfold Shapes.each_block; repeat rewrite <- app_assoc; reflexivity].
  assert (Hblock :
            scan LOOP_PATTERN (Shapes.each_block name body ++ rest)
            = Match (mk_rmatch name body (Shapes.each_block name body))
                :: scan LOOP_PATTERN rest).
  { pose proof (LOOP_PATTERN_block name body rest Hn Hb) as Hp.
    unfold Shapes.each_block in *. simpl app in *.
    rewrite (scan_cons (@block_pattern_sound (T "each"))).
    unfold LOOP_PATTERN in *. rewrite Hp. reflexivity. }
  rewrite Hblock, sub_tokens_exn_literal_app.
  cbn [sub_tokens_exn]. unfold replace_loop at 1. cbn [group1 group2].
  destruct (dict_get variables name) as [v|].
  - destruct v as [| | | |l|];
      try (destruct (sub_tokens_exn (replace_loop variables)
                       (scan LOOP_PATTERN rest)) as [[o m]|e]; reflexivity).
    destruct l as [|item items].
    + cbn [loop_items].
      destruct (sub_tokens_exn (replace_loop variables)
                  (scan LOOP_PATTERN rest)) as [[o m]|e]; reflexivity.
    + cbn [loop_items call__process_variables]. reflexivity.
  - destruct (sub_tokens_exn (replace_loop variables)
                (scan LOOP_PATTERN rest)) as [[o m]|e]; reflexivity.
Qed.

(** The loop stage on a text that begins with plain text and a loop block.
    When the name is bound to a list that is not empty, the call raises
    the [TypeError] of the inner call, whatever follows. Otherwise the
    block is replaced by nothing and the rest of the text is processed: a
    bound name (an empty list, or a value that is no list at all, without
    any complaint) adds nothing to the missing names, an unbound name is
    reported missing. *)
Theorem each_block_by_binding :
  forall lit name body rest variables,
    occurs (T "{{#each ") lit = false ->
    Spec.is_name name = true ->
    occurs (T "{{/each}}") body = false ->
    let text_ := lit ++ Shapes.each_block name body ++ rest in
    (forall item items,
        dict_get variables name = Some (VList (item :: items)) ->
        exists msg, _process_loops text_ variables = Err (TypeError msg)) /\
    (forall value,
        dict_get variables name = Some value ->
        (forall item items, value <> VList (item :: items)) ->
        _process_loops text_ variables
        = match _process_loops rest variables with
          | Ok (out, missing) => Ok (lit ++ out, missing)
          | Err e => Err e
          end) /\
    (dict_get variables name = None ->
     _process_loops text_ variables
     = match _process_loops rest variables with
       | Ok (out, missing) => Ok (lit ++ out, name :: missing)
       | Err e => Err e
       end).
Proof.
  intros lit name body rest variables Hl Hn Hb text_.
  pose proof (@process_loops_block lit name body rest variables Hl Hn Hb)
    as H.
  fold text_ in H. split; [|split].
  - intros item items Hg. rewrite Hg in H. eexists. exact H.
  - intros value Hg Hnl. rewrite Hg in H.
    destruct value as [| | | |[|item items]|]; try exact H.
    exfalso. apply (Hnl item items). reflexivity.
  - intros Hg. rewrite Hg in H. exact H.
Qed.

End LoopBlocks.

Lemma each_block_by_binding_witness :
  TemplateRenderer._process_loops
    (T "Items: " ++ Shapes.each_block (T "xs") (T "<li>{{item}}</li>")
       ++ T " end")
    [(T "n", Py.VInt 3)]
  = Ok (T "Items:  end", [T "xs"]).
Proof.
  refine (proj2 (proj2 (@each_block_by_binding
                          (T "Items: ") (T "xs") (T "<li>{{item}}</li>")
                          (T " end") [(T "n", Py.VInt 3)]
                          eq_refl eq_refl eq_refl)) _).
  reflexivity.
Defined.

(** ** The variables of a template *)

Section VariableFacts.
Import Re Py TemplateRenderer TemplateVariables.

Lemma insert_sorted_In :
  forall x l n, In n (insert_sorted x l) <-> n = x \/ In n l.
Proof.
  intros x l n. induction l as [|y l IH]; cbn [insert_sorted].
  - simpl. intuition.
  - destruct (text_leb x y); simpl in *; intuition.
Qed.

Lemma sorted_In : forall l n, In n (sorted l) <-> In n l.
Proof.
  intros l n. unfold sorted. induction l as [|x l IH]; cbn [fold_right].
  - reflexivity.
  - rewrite insert_sorted_In, IH. simpl. intuition.
Qed.

Lemma insert_sorted_NoDup :
  forall x l, NoDup l -> ~ In x l -> NoDup (insert_sorted x l).
Proof.
  intros x l. induction l as [|y l IH]; intros Hnd Hx; cbn [insert_sorted].
  - constructor; [intros []|constructor].
  - destruct (text_leb x y).
    + constructor; assumption.
    + inversion Hnd; subst. constructor.
      * rewrite insert_sorted_In. intros [->|H]; [apply Hx; left; reflexivity|].
        contradiction.
      * apply IH; [assumption|]. intros H. apply Hx. right. exact H.
Qed.

Lemma sorted_NoDup : forall l, NoDup l -> NoDup (sorted l).
Proof.
  intros l H. unfold sorted. induction H as [|x l Hx Hnd IH]; cbn [fold_right].
  - constructor.
  - apply insert_sorted_NoDup; [exact IH|].
    intros Hin. apply Hx. apply (proj1 (sorted_In l x)). exact Hin.
Qed.

Lemma findall_nil : forall p, findall p [] = [].
Proof. reflexivity. Qed.

Lemma extract_variables_unfold :
  forall content html_content subject,
    _extract_variables content html_content subject
    = (sorted (filter (fun var => negb (startswith_underscore var))
                      (list_set (Shapes.placeholder_names content
                                   ++ Shapes.placeholder_names html_content
                                   ++ Shapes.placeholder_names subject))),
       sorted (filter startswith_underscore
                      (list_set (Shapes.placeholder_names content
                                   ++ Shapes.placeholder_names html_content
                                   ++ Shapes.placeholder_names subject)))).
Proof.
  intros content html_content subject.
  unfold _extract_variables, Shapes.placeholder_names. cbn zeta.
  destruct html_content as [|h html_content];
    destruct subject as [|c subject];
    rewrite ?findall_nil, ?app_nil_r, <- ?app_assoc; reflexivity.
Qed.

(** [Template._extract_variables] sorts every placeholder name of the
    content, the HTML content and the subject into exactly one of the two
    lists: [optional_variables] when it begins with an underscore,
    [variables] otherwise. Neither list repeats a name, and neither holds
    anything else. *)
Theorem extract_variables_partitions_the_placeholder_names :
  forall content html_content subject,
    let names :=
      Shapes.placeholder_names content
        ++ Shapes.placeholder_names html_content
        ++ Shapes.placeholder_names subject in
    let required_ := fst (_extract_variables content html_content subject) in
    let optional_ := snd (_extract_variables content html_content subject) in
    (forall n, In n required_ <->
               In n names /\ startswith_underscore n = false) /\
    (forall n, In n optional_ <->
               In n names /\ startswith_underscore n = true) /\
    NoDup required_ /\ NoDup optional_.
Proof.
  intros content html_content subject names required_ optional_.
  unfold required_, optional_.
  rewrite extract_variables_unfold. fold names. cbn [fst snd].
  unfold list_set.
  repeat split.
  - apply (proj1 (sorted_In _ _)) in H.
    apply filter_In in H. destruct H as [H _].
    apply (proj1 (nodup_In _ _ _)) in H. exact H.
  - apply (proj1 (sorted_In _ _)) in H.
    apply filter_In in H. destruct H as [_ H].
    destruct (startswith_underscore n); [discriminate H|reflexivity].
  - intros [H1 H2]. apply (proj2 (sorted_In _ _)).
    apply filter_In. split; [apply nodup_In; exact H1|].
    rewrite H2. reflexivity.
  - apply (proj1 (sorted_In _ _)) in H.
    apply filter_In in H. destruct H as [H _].
    apply (proj1 (nodup_In _ _ _)) in H. exact H.
  - apply (proj1 (sorted_In _ _)) in H.
    apply filter_In in H. destruct H as [_ H]. exact H.
  - intros [H1 H2]. apply (proj2 (sorted_In _ _)).
    apply filter_In. split; [apply nodup_In; exact H1|exact H2].
  - apply sorted_NoDup, NoDup_filter, NoDup_nodup.
  - apply sorted_NoDup, NoDup_filter, NoDup_nodup.
Qed.

Lemma mem_In : forall x l, mem x l = true <-> In x l.
Proof.
  intros x l. unfold mem. rewrite existsb_exists. split.
  - intros (y & Hy & E). apply text_eqb_eq in E. subst. exact Hy.
  - intros H. exists x. split; [exact H|apply text_eqb_refl].
Qed.

Lemma dict_get_keys :
  forall (d : dict) k, dict_get d k <> None <-> In k (map fst d).
Proof.
  intros d k. induction d as [|[k' v] d IH]; cbn [dict_get map fst In].
  - split; [congruence|intros []].
  - destruct (text_eqb k' k) eqn:E.
    + apply text_eqb_eq in E. split; [auto|discriminate].
    + rewrite IH. split; [auto|].
      intros [H|H]; [|exact H]. subst k'.
      rewrite text_eqb_refl in E. discriminate E.
Qed.

Lemma provided_mem :
  forall (provided : dict) n,
    mem n (list_set (map fst provided)) = true <-> dict_get provided n <> None.
Proof.
  intros provided n. rewrite mem_In. unfold list_set. rewrite nodup_In.
  symmetry. apply dict_get_keys.
Qed.

Lemma validate_valid_bound :
  forall template_variables provided n,
    valid (_validate_variables template_variables provided) = true ->
    In n template_variables -> dict_get provided n <> None.
Proof.
  intros tv provided n Hvalid Hin.
  unfold _validate_variables in Hvalid. cbn [valid] in Hvalid.
  apply Nat.eqb_eq, length_zero_iff_nil in Hvalid.
  pose proof (provided_mem provided n) as Hm.
  destruct (mem n (list_set (map fst provided))) eqn:E.
  - apply (proj1 Hm). reflexivity.
  - exfalso.
    assert (Hf : In n (filter
              (fun v => negb (mem v (list_set (map fst provided))))
              (list_set tv))).
    { apply filter_In. split.
      - unfold list_set at 1. apply nodup_In. exact Hin.
      - rewrite E. reflexivity. }
    rewrite Hvalid in Hf. exact Hf.
Qed.

(** [_validate_variables] reports as required the names of
    [template.variables], as missing those of them that the request does
    not bind, as extra the bound names that are not among them, and it
    answers [valid] exactly when every name of [template.variables] is
    bound. Whether a name is bound to [None] or to an empty text makes no
    difference. *)
Theorem validate_variables_reports_unbound_names :
  forall template_variables provided,
    let v := _validate_variables template_variables provided in
    (forall n, In n (required v) <-> In n template_variables) /\
    (forall n, In n (missing v) <->
               In n template_variables /\ dict_get provided n = None) /\
    (forall n, In n (extra v) <->
               dict_get provided n <> None /\ ~ In n template_variables) /\
    (valid v = true <->
     forall n, In n template_variables -> dict_get provided n <> None).
Proof.
  intros tv provided. cbn zeta.
  split; [|split; [|split; [|split]]].
  - intros n. unfold _validate_variables. cbn [required].
    rewrite sorted_In. unfold list_set. apply nodup_In.
  - intros n. unfold _validate_variables. cbn [missing].
    rewrite sorted_In, filter_In. unfold list_set at 1.
    rewrite nodup_In.
    pose proof (provided_mem provided n) as Hm.
    destruct (mem n (list_set (map fst provided))); cbn [negb].
    + split; [intros [_ H]; discriminate H|].
      intros [_ H]. exfalso. apply (proj1 Hm); [reflexivity|exact H].
    + split; [|intros [H _]; auto].
      intros [H _]. split; [exact H|].
      destruct (dict_get provided n) eqn:E; [|reflexivity].
      assert (Hf : false = true) by (apply (proj2 Hm); discriminate).
      discriminate Hf.
  - intros n. unfold _validate_variables. cbn [extra].
    rewrite sorted_In, filter_In.
    pose proof (provided_mem provided n) as Hm.
    pose proof (mem_In n (list_set tv)) as Ht. unfold list_set at 2 in Ht.
    rewrite nodup_In in Ht.
    split.
    + intros [H1 H2]. split.
      * apply (proj1 Hm). apply mem_In. exact H1.
      * intros Hin. apply (proj2 Ht) in Hin. rewrite Hin in H2.
        discriminate H2.
    + intros [H1 H2]. split.
      * apply mem_In. apply (proj2 Hm). exact H1.
      * destruct (mem n (list_set tv)); [|reflexivity].
        exfalso. apply H2. apply (proj1 Ht). reflexivity.
  - intros Hvalid n Hin. exact (validate_valid_bound tv provided n Hvalid Hin).
  - intros Hall. unfold _validate_variables. cbn [valid].
    rewrite Nat.eqb_eq, length_zero_iff_nil.
    destruct (filter (fun v => negb (mem v (list_set (map fst provided))))
                     (list_set tv)) as [|n l] eqn:E; [reflexivity|].
    exfalso.
    assert (Hf : In n (filter
              (fun v => negb (mem v (list_set (map fst provided))))
              (list_set tv))) by (rewrite E; left; reflexivity).
    apply filter_In in Hf. destruct Hf as [Hin Hneg].
    unfold list_set at 1 in Hin. apply (proj1 (nodup_In _ _ _)) in Hin.
    apply Hall in Hin. apply (proj2 (provided_mem provided n)) in Hin.
    rewrite Hin in Hneg. discriminate Hneg.
Qed.

(** A request that passes the validation against the variables extracted
    from a template can still leave placeholders of the template unbound,
    but only those whose name begins with an underscore: the validation
    looks at [variables], not at [optional_variables], while the renderer
    reports every unbound placeholder as missing. *)
Theorem validated_request_misses_only_optional_names :
  forall content html_content subject provided escape_html field n,
    valid (_validate_variables
             (fst (_extract_variables content html_content subject))
             provided) = true ->
    field = content \/ field = html_content \/ field = subject ->
    In n (snd (_process_variables field provided escape_html)) ->
    startswith_underscore n = true.
Proof.
  intros content html_content subject provided escape_html field n
         Hvalid Hfield Hin.
  assert (Hm : snd (_process_variables field provided escape_html)
               = filter (fun n => negb (Shapes.bound provided n))
                        (Shapes.placeholder_names field)).
  { unfold _process_variables, Shapes.placeholder_names, findall.
    pose proof (collect_missing provided escape_html
                  (finditer VARIABLE_PATTERN field)) as H.
    destruct (collect provided escape_html (finditer VARIABLE_PATTERN field))
      as [rs ms].
    exact H. }
  rewrite Hm in Hin. apply filter_In in Hin.
  destruct Hin as [Hname Hunbound].
  destruct (startswith_underscore n) eqn:Eu; [reflexivity|exfalso].
  assert (Hr : In n (fst (_extract_variables content html_content subject))).
  { rewrite extract_variables_unfold. cbn [fst].
    apply (proj2 (sorted_In _ _)). apply filter_In.
    split; [|rewrite Eu; reflexivity].
    unfold list_set. apply nodup_In.
    destruct Hfield as [->|[->| ->]]; apply in_or_app; auto;
      right; apply in_or_app; auto. }
  pose proof (validate_valid_bound _ provided n Hvalid Hr) as Hb.
  unfold Shapes.bound in Hunbound.
  destruct (dict_get provided n); [discriminate Hunbound|].
  apply Hb. reflexivity.
Qed.

End VariableFacts.

Lemma validated_request_misses_only_optional_names_witness :
  TemplateVariables.startswith_underscore (T "_ps") = true.
Proof.
  apply (@validated_request_misses_only_optional_names
           (T "Hi {{name}}{{_ps}}") [] (T "For {{name}}")
           [(T "name", Py.VStr (T "Ann"))] true
           (T "Hi {{name}}{{_ps}}") (T "_ps")).
  - vm_compute. reflexivity.
  - left. reflexivity.
  - vm_compute. left. reflexivity.
Defined.

(** ** The mock Redis *)

Section MockRedisFacts.
Import Py MockRedis.

(** [MockRedis] is a plain dictionary: what [setex] stores is read back by
    [get] whatever the expiry and after any [expire], the other keys are
    not touched; [incr] starts a missing counter at 1, adds one to a
    stored number, stores what it returns, and raises on a stored text
    without changing anything. *)
Theorem mock_redis_is_a_plain_dictionary :
  forall d key,
    (forall expiry value seconds,
       get (expire (setex d key expiry value) key seconds) key = Some value) /\
    (forall expiry value other,
       other <> key -> get (setex d key expiry value) other = get d other) /\
    (get d key = None -> fst (incr d key) = Some 1%Z) /\
    (forall n, get d key = Some (VInt n) ->
               fst (incr d key) = Some (n + 1)%Z) /\
    (forall r d', incr d key = (Some r, d') ->
                  get d' key = Some (VInt r) /\
                  forall other, other <> key -> get d' other = get d other) /\
    (forall s, get d key = Some (VStr s) -> incr d key = (None, d)).
Proof.
  intros d key. unfold get, setex, expire, incr.
  split; [|split; [|split; [|split; [|split]]]].
  - intros. apply kv_get_set_same.
  - intros expiry value other Hne. apply kv_get_set_other. exact Hne.
  - intros ->. reflexivity.
  - intros n ->. reflexivity.
  - intros r d' H.
    destruct (kv_get d key) as [[| b |n|s|l|dd]|];
      inversion H; subst; clear H; split;
      try apply kv_get_set_same;
      intros other Hne; apply kv_get_set_other; exact Hne.
  - intros s ->. reflexivity.
Qed.

End MockRedisFacts.

Lemma mock_redis_is_a_plain_dictionary_witness :
  MockRedis.get
    (snd (MockRedis.incr (snd (MockRedis.incr [] (T "template:version")))
                         (T "template:version")))
    (T "template:version")
  = Some (Py.VInt 2).
Proof.
  destruct (@mock_redis_is_a_plain_dictionary
              (snd (MockRedis.incr [] (T "template:version")))
              (T "template:version")) as (_ & _ & _ & _ & H & _).
  destruct (H 2%Z _ eq_refl) as [H1 _]. exact H1.
Defined.

(** ** The usage log of [render_template] *)

Section RenderTemplateLog.
Import Py TemplateRenderer.
Variable TIMEOUT : Z.
Variable clock : nat -> Z.

(** Every call of [render_template] reads the clock three times. What it
    leaves in the usage log depends on the CHECK constraints of the table:
    when the measured render time is negative, or the clock at the INSERT
    is past the moment frozen in the migration, nothing is written and no
    usage is counted, whether the call returns or raises. Otherwise
    exactly one row is appended: it names the notification and the
    organization, keeps at most 500 characters of the error message, never
    lists the missing names, and has the result [success] exactly when the
    call returns; the usage of the template is counted exactly then. *)
Theorem render_template_logs_within_the_checks :
  forall template variables nid oid w,
    let r := render_template TIMEOUT clock template variables nid oid w in
    let render_time := (clock (S (S (reads w))) - clock (reads w))%Z in
    let rendered_at := clock (S (S (S (reads w)))) in
    reads (snd r) = 3 + reads w /\
    ((render_time < 0 \/ RENDERED_AT_LIMIT < rendered_at)%Z ->
     usage_logs (snd r) = usage_logs w /\
     usage_increments (snd r) = usage_increments w) /\
    ((0 <= render_time)%Z -> (rendered_at <= RENDERED_AT_LIMIT)%Z ->
     exists entry,
       usage_logs (snd r) = usage_logs w ++ [entry] /\
       log_notification_id entry = nid /\
       log_organization_id entry = oid /\
       log_render_time entry = render_time /\
       length (log_error_message entry) <= 500 /\
       log_variables_missing entry = [] /\
       (log_result entry = success <-> exists v, fst r = Ok v) /\
       usage_increments (snd r)
       = match fst r, template with
         | Ok _, Some t => usage_increments w ++ [(Models.id t, render_time)]
         | _, _ => usage_increments w
         end).
Proof.
  intros template variables nid oid w. cbn zeta.
  rewrite render_template_is_body. unfold render_template_body.
  cbn zeta. cbn [enter tick reads].
  set (render_time := (clock (S (S (reads w))) - clock (reads w))%Z).
  set (rendered_at := clock (S (S (S (reads w))))).
  assert (Hno : (render_time < 0 \/ RENDERED_AT_LIMIT < rendered_at)%Z ->
                usage_log_checks render_time rendered_at = false).
  { intros [H|H]; unfold usage_log_checks.
    - replace (Z.leb 0 render_time) with false
        by (symmetry; apply Z.leb_gt; exact H).
      reflexivity.
    - replace (Z.leb rendered_at RENDERED_AT_LIMIT) with false
        by (symmetry; apply Z.leb_gt; exact H).
      apply andb_false_r. }
  assert (Hyes : (0 <= render_time)%Z ->
                 (rendered_at <= RENDERED_AT_LIMIT)%Z ->
                 usage_log_checks render_time rendered_at = true).
  { intros H1 H2. unfold usage_log_checks.
    apply andb_true_intro. split; apply Z.leb_le; assumption. }
  destruct (Z.ltb TIMEOUT _);
    [|destruct (render_fields template variables) as [fields|e] eqn:E];
    cbn [fst snd _log_render usage_logs reads attempts sleeps
         usage_increments];
    (split; [reflexivity|]);
    (split;
     [intros Hv; rewrite (Hno Hv); cbn [andb];
      split; [reflexivity|destruct template; reflexivity]
     |intros H1 H2; rewrite (Hyes H1 H2); cbn [andb];
      eexists; (split; [reflexivity|]);
      cbn [log_notification_id log_organization_id log_error_message
           log_variables_missing log_result log_render_time];
      repeat split; try reflexivity;
      try apply firstn_le_length;
      try discriminate;
      try (intros [v Hv]; discriminate Hv);
      try (destruct template; reflexivity);
      try (destruct e; discriminate);
      eauto]).
Qed.

End RenderTemplateLog.
